(** * Solidity-to-MLIR generation and the EraVM lowering of the Solidity dialect

    A shallow embedding of the two passes of the MLIR based code generator:
    - [frontend] and [SolidityToMLIRPass]: the AST and the visitor that
      generates MLIR from it (type mapping, casts, expression, statement and
      function lowering);
    - [eravm] and [lowering]: the Solidity dialect lowering pass for EraVM
      (the [eravm::BuilderHelper], [inRuntimeContext], [ReturnOpLowering]
      and [ObjectOpLowering]), and [contracts]: the [ContractOpLowering];
    - [semantics]: what the integer operations the lowering emits compute.

    The IR both passes build is the [mlir] module below: operations are
    constructors that carry their operands and results, an [OpBuilder] is a
    block under construction together with the supply of fresh SSA numbers.
    Source locations ([mlir::Location]) carry no behaviour and are left out. *)

From Stdlib Require Import ZArith NArith String Ascii Lia.
From stdpp Require Import base option list strings gmap.

Set Default Proof Using "Type".

(** ** Failures and the builder monad *)

(** [solUnimplemented] and [solUnimplementedAssert] throw an
    [UnimplementedFeatureError]; a failed [assert], an [llvm_unreachable] and
    a dereferenced null handle stop the compiler: [InternalCompilerError]. *)
Inductive Failure :=
| UnimplementedFeatureError (msg : string)
| InternalCompilerError (msg : string).

Inductive Result (A : Type) :=
| Ok (a : A)
| Err (f : Failure).
Arguments Ok {A} a.
Arguments Err {A} f.

Definition isOk {A} (r : Result A) : bool :=
  match r with Ok _ => true | Err _ => false end.

(** Code that threads a mutable object [S] and may throw. *)
Definition M (S A : Type) : Type := S -> Result (A * S).

Definition ret {S A} (a : A) : M S A := fun s => Ok (a, s).

Definition bind {S A B} (m : M S A) (f : A -> M S B) : M S B :=
  fun s => match m s with
           | Ok (a, s') => f a s'
           | Err e => Err e
           end.

Definition throw {S A} (e : Failure) : M S A := fun _ => Err e.
Definition get {S} : M S S := fun s => Ok (s, s).
Definition put {S} (s : S) : M S unit := fun _ => Ok (tt, s).
Definition modify {S} (f : S -> S) : M S unit := fun s => Ok (tt, f s).

Declare Scope builder_scope.
Delimit Scope builder_scope with builder.
Notation "x <- c1 ;; c2" := (bind c1 (fun x => c2))
  (at level 100, c1 at next level, right associativity) : builder_scope.
Notation "c1 ;;; c2" := (bind c1 (fun _ => c2))
  (at level 100, right associativity) : builder_scope.
Local Open Scope builder_scope.

(** A [for] loop over a container, with the loop body run for its effects. *)
Fixpoint forEach {S A} (l : list A) (body : A -> M S unit) : M S unit :=
  match l with
  | [] => ret tt
  | x :: l' => body x ;;; forEach l' body
  end.

(** A loop that collects one result per element ([push_back] in the body). *)
Fixpoint mapEach {S A B} (l : list A) (body : A -> M S B) : M S (list B) :=
  match l with
  | [] => ret []
  | x :: l' => y <- body x ;; ys <- mapEach l' body ;; ret (y :: ys)
  end.

Definition newline : string := String (ascii_of_nat 10) EmptyString.

Definition solUnimplemented {S A} (msg : string) : M S A :=
  throw (UnimplementedFeatureError msg).

Definition solUnimplementedAssert {S} (cond : bool) (msg : string) : M S unit :=
  if cond then ret tt else throw (UnimplementedFeatureError msg).

Definition assert {S} (cond : bool) (what : string) : M S unit :=
  if cond then ret tt else throw (InternalCompilerError what).

(** What a computation ends in: a result and a state that satisfy [Q], or
    a failure, which [E] allows or not. *)
Definition outcome {S A} (res : Result (A * S)) (Q : A -> S -> Prop) (E : Prop)
    : Prop :=
  match res with
  | Ok (a, s') => Q a s'
  | Err _ => E
  end.

(** ** The IR *)

Module mlir.

(** [mlir::Type], as far as the two passes build types. *)
Inductive Type_ :=
| IntegerType (width : N)
| MemRefType (elementType : Type_)
| LLVMPointerType (addressSpace : N)
| LLVMArrayType (elementType : Type_) (numElements : N)
| LLVMVoidType
| RankedTensorType (shape : list N) (elementType : Type_).

(** [mlir::Value]: a default constructed (null) handle, the result of an
    operation, or an argument of the enclosing block. *)
Inductive Value :=
| NullValue
| OpResult (id : nat) (ty : Type_)
| BlockArgument (argNumber : nat) (ty : Type_).

Definition getType (v : Value) : option Type_ :=
  match v with
  | NullValue => None
  | OpResult _ ty => Some ty
  | BlockArgument _ ty => Some ty
  end.

Inductive Attribute :=
| BoolAttr (value : bool)
| StringAttr (value : string)
| IntegerAttr (ty : Type_) (numBits : N) (value : Z)
| DenseSplatAttr (numElements : N) (numBits : N) (value : Z)
| ZeroAttr (ty : Type_).

Inductive Linkage := External | Private.

Inductive CmpIPredicate := eq | ne.

#[warnings="-register-all"] Inductive Operation :=
(* arith *)
| arith_ConstantOp (res : Value) (value : Attribute)
| arith_ExtSIOp (res : Value) (operand : Value)
| arith_ExtUIOp (res : Value) (operand : Value)
| arith_AddIOp (res : Value) (lhs rhs : Value)
| arith_MulIOp (res : Value) (lhs rhs : Value)
| arith_AndIOp (res : Value) (lhs rhs : Value)
| arith_CmpIOp (res : Value) (predicate : CmpIPredicate) (lhs rhs : Value)
(* memref *)
| memref_AllocaOp (res : Value)
| memref_LoadOp (res : Value) (memref : Value)
| memref_StoreOp (value : Value) (memref : Value)
(* func *)
| func_FuncOp (sym_name : string) (inputs results : list Type_)
    (body : list Block)
| func_ReturnOp (operands : list Value)
| func_CallOp (callee : string) (results : list Type_) (operands : list Value)
(* scf *)
| scf_IfOp (condition : Value) (thenRegion elseRegion : list Operation)
| scf_YieldOp
(* llvm *)
| LLVM_GlobalOp (sym_name : string) (ty : Type_) (alignment : option N)
    (addrSpace : N) (linkage : Linkage) (value : option Attribute)
| LLVM_LLVMFuncOp (sym_name : string) (resTy : Type_) (argTys : list Type_)
    (linkage : Linkage) (attrs : list (string * Attribute))
    (body : list Block)
| LLVM_AddressOfOp (res : Value) (global_name : string)
| LLVM_StoreOp (value : Value) (addr : Value) (alignment : option N)
| LLVM_LoadOp (res : Value) (addr : Value) (alignment : option N)
| LLVM_PtrToIntOp (res : Value) (arg : Value)
| LLVM_IntToPtrOp (res : Value) (arg : Value)
| LLVM_LShrOp (res : Value) (lhs rhs : Value)
| LLVM_AndOp (res : Value) (lhs rhs : Value)
| LLVM_GEPOp (res : Value) (elemType : Type_) (base : Value)
    (indices : list Value)
| LLVM_CallOp (callee : string) (operands : list Value)
| LLVM_UnreachableOp
(* sol *)
| sol_ContractOp (sym_name : string) (body : list Operation)
| sol_ObjectOp (sym_name : string) (body : list Operation)
| sol_ReturnOp (lhs rhs : Value)
| sol_MStoreOp (addr val : Value)
with Block :=
| mkBlock (arguments : list Value) (operations : list Operation).

#[global] Instance Type_eq_dec : EqDecision Type_.
Proof. solve_decision. Defined.
#[global] Instance Value_eq_dec : EqDecision Value.
Proof. solve_decision. Defined.

Definition arguments (blk : Block) : list Value :=
  match blk with mkBlock args _ => args end.

Definition operations (blk : Block) : list Operation :=
  match blk with mkBlock _ ops => ops end.

(** An [OpBuilder] whose insertion point is the end of [block]: what
    [create] appends to, and the number of the next SSA result. *)
Record OpBuilder := mkOpBuilder {
  nextResult : nat;
  block : Block
}.

Definition emptyBlock : Block := mkBlock [] [].

Definition append (op : Operation) (b : OpBuilder) : OpBuilder :=
  mkOpBuilder (nextResult b)
    (mkBlock (arguments (block b)) (operations (block b) ++ [op])).

(** [create] for an operation with one result of type [ty]. *)
Definition createResult (mk : Value -> Operation) (ty : Type_)
    (b : OpBuilder) : Value * OpBuilder :=
  let res := OpResult (nextResult b) ty in
  (res, append (mk res) (mkOpBuilder (Datatypes.S (nextResult b)) (block b))).

(** [Block::addArgument]. *)
Definition addArgument (ty : Type_) (b : OpBuilder) : Value * OpBuilder :=
  let arg := BlockArgument (length (arguments (block b))) ty in
  (arg, mkOpBuilder (nextResult b)
          (mkBlock (arguments (block b) ++ [arg]) (operations (block b)))).

(** The result of an operation that has one. *)
Definition getResult (op : Operation) : option Value :=
  match op with
  | arith_ConstantOp res _ | arith_ExtSIOp res _ | arith_ExtUIOp res _
  | arith_AddIOp res _ _ | arith_MulIOp res _ _ | arith_AndIOp res _ _
  | arith_CmpIOp res _ _ _ | memref_AllocaOp res | memref_LoadOp res _
  | LLVM_AddressOfOp res _ | LLVM_LoadOp res _ _ | LLVM_PtrToIntOp res _
  | LLVM_IntToPtrOp res _ | LLVM_LShrOp res _ _ | LLVM_AndOp res _ _
  | LLVM_GEPOp res _ _ _ => Some res
  | _ => None
  end.

(** [Value::getDefiningOp] among the operations of a block. *)
Fixpoint getDefiningOp (val : Value) (ops : list Operation) : option Operation :=
  match ops with
  | [] => None
  | op :: ops' =>
      if bool_decide (getResult op = Some val) then Some op
      else getDefiningOp val ops'
  end.

(** The symbol name of an operation that defines a symbol. *)
Definition getSymName (op : Operation) : option string :=
  match op with
  | func_FuncOp sym_name _ _ _ | LLVM_GlobalOp sym_name _ _ _ _ _
  | LLVM_LLVMFuncOp sym_name _ _ _ _ _ | sol_ContractOp sym_name _
  | sol_ObjectOp sym_name _ => Some sym_name
  | _ => None
  end.

(** [ModuleOp::lookupSymbol]: the first operation of the module body that
    defines the symbol [name]. *)
Fixpoint lookupSymbol (name : string) (body : list Operation) : option Operation :=
  match body with
  | [] => None
  | op :: body' =>
      if bool_decide (getSymName op = Some name) then Some op
      else lookupSymbol name body'
  end.

End mlir.

(** ** The AST the generator consumes *)

Module frontend.

(** [solidity::frontend::IntegerType]. *)
Record IntegerType := mkIntegerType {
  numBits : N;
  isSigned : bool
}.

(** [solidity::frontend::Type const *].  The generator compares types by
    address; [id] stands for the address of a type object that is not an
    integer type, so that two rational number types of different literals
    are different types even when their integer types agree.  For a
    [RationalNumberType], [isFractional] and [integerType] are what the
    member functions of these names return. *)
Inductive Type_ :=
| TIntegerType (i : IntegerType)
| TRationalNumberType (id : N) (isFractional : bool)
    (integerType : option IntegerType)
| TOtherType (id : N).

#[global] Instance IntegerType_eq_dec : EqDecision IntegerType.
Proof. solve_decision. Defined.
#[global] Instance Type_eq_dec : EqDecision Type_.
Proof. solve_decision. Defined.

Inductive Token := Add | Mul | Sub | Div | OtherToken.

(** [Expression], with [annotation().type] as the field [ty]; a [Literal]
    carries [ty->literalValue(lit)], an [Identifier] the address of its
    [annotation().referencedDeclaration]. *)
Inductive Expression :=
| Literal (ty : Type_) (literalValue : Z)
| Identifier (ty : Type_) (referencedDeclaration : N)
| BinaryOperation (ty : Type_) (op : Token) (leftExpression rightExpression : Expression)
| OtherExpression (ty : Type_).

Definition annotation_type (expr : Expression) : Type_ :=
  match expr with
  | Literal ty _ => ty
  | Identifier ty _ => ty
  | BinaryOperation ty _ _ _ => ty
  | OtherExpression ty => ty
  end.

(** [Statement]: the return statement and the statements that hold other
    statements (blocks, conditionals, loops); a statement without
    sub-statements is an [ExpressionStatement] to the visitor. *)
#[warnings="-register-all"] Inductive Statement :=
| Return (expression : option Expression)
| Block (statements : list Statement)
| IfStatement (condition : Expression) (trueStatement : Statement)
    (falseStatement : option Statement)
| WhileStatement (condition : Expression) (body : Statement)
| ExpressionStatement (expression : Expression).

Record VariableDeclaration := mkVariableDeclaration {
  decl : N;                       (* the address, the key of [varMemRef] *)
  var_name : string;
  var_type : Type_
}.

Record FunctionDefinition := mkFunctionDefinition {
  name : string;
  parameters : list VariableDeclaration;
  returnParameters : list VariableDeclaration;
  body : Statement
}.

(** [functionType(true)->returnParameterTypes()]: the declared types of the
    return parameters. *)
Definition returnParameterTypes (f : FunctionDefinition) : list Type_ :=
  map var_type (returnParameters f).

(** The declared type of a variable is never the rational number type of a
    literal. *)
Definition isVariableType (ty : Type_) : bool :=
  match ty with
  | TRationalNumberType _ _ _ => false
  | _ => true
  end.

Definition declaredTypesOk (f : FunctionDefinition) : bool :=
  forallb (fun d => isVariableType (var_type d)) (parameters f) &&
  forallb (fun d => isVariableType (var_type d)) (returnParameters f).

Record ContractDefinition := mkContractDefinition {
  contract_name : string;
  definedFunctions : list FunctionDefinition
}.

End frontend.

(** ** The Solidity to MLIR pass *)

Module SolidityToMLIRPass.
Import frontend.

(** The members of the visitor: the builder [b], the map from variables to
    their MemRef and the function being lowered. *)
Record Pass := mkPass {
  b : mlir.OpBuilder;
  varMemRef : gmap N mlir.Value;
  currFunc : option FunctionDefinition
}.

Definition init : Pass := mkPass (mlir.mkOpBuilder 0 mlir.emptyBlock) ∅ None.

Definition withBuilder (f : mlir.OpBuilder -> mlir.OpBuilder) (p : Pass) : Pass :=
  mkPass (f (b p)) (varMemRef p) (currFunc p).

(** [b.create<Op>(...)] for an operation with a result. *)
Definition create (mk : mlir.Value -> mlir.Operation) (ty : mlir.Type_)
    : M Pass mlir.Value :=
  fun p => let '(res, b') := mlir.createResult mk ty (b p) in
           Ok (res, withBuilder (fun _ => b') p).

(** [b.create<Op>(...)] for an operation without results. *)
Definition create_ (op : mlir.Operation) : M Pass unit :=
  modify (withBuilder (mlir.append op)).

(** Reading the type or the location of a null [mlir::Value] (as building an
    operation on it does) dereferences a null pointer. *)
Definition typeOf (val : mlir.Value) : M Pass mlir.Type_ :=
  match mlir.getType val with
  | Some ty => ret ty
  | None => throw (InternalCompilerError "null mlir::Value")
  end.

(** Returns the corresponding mlir type for the solidity type [ty]. *)
Definition type (ty : Type_) : M Pass mlir.Type_ :=
  match ty with
  | TIntegerType i => ret (mlir.IntegerType (numBits i))
  | TRationalNumberType _ isFractional integerType =>
      if isFractional then solUnimplemented ("Unhandled type" +:+ newline)
      else match integerType with
           | Some intTy => ret (mlir.IntegerType (numBits intTy))
           | None => throw (InternalCompilerError "null IntegerType")
           end
  | TOtherType _ => solUnimplemented ("Unhandled type" +:+ newline)
  end.

(** [varMemRef[decl]]: [std::map::operator[]] default-constructs the entry
    of a key that is not in the map. *)
Definition getMemRef (decl : N) : M Pass mlir.Value :=
  fun p => match varMemRef p !! decl with
           | Some addr => Ok (addr, p)
           | None => Ok (mlir.NullValue,
                         mkPass (b p) (<[decl := mlir.NullValue]> (varMemRef p))
                                (currFunc p))
           end.

Definition setMemRef (decl : N) (addr : mlir.Value) : M Pass unit :=
  modify (fun p => mkPass (b p) (<[decl := addr]> (varMemRef p)) (currFunc p)).

Definition getAsIntTy (ty : Type_) : option IntegerType :=
  match ty with
  | TIntegerType intTy => Some intTy
  | TRationalNumberType _ _ (Some intRatTy) => Some intRatTy
  | _ => None
  end.

(** Returns the cast from [val] having the corresponding mlir type of
    [srcTy] to a value having the corresponding mlir type of [dstTy]. *)
Definition genCast (val : mlir.Value) (srcTy dstTy : Type_) : M Pass mlir.Value :=
  (* Don't cast if we're casting to the same type *)
  if bool_decide (srcTy = dstTy) then ret val
  else
    let srcIntTy := getAsIntTy srcTy in
    let dstIntTy := getAsIntTy dstTy in
    match srcIntTy, dstIntTy with
    | Some srcIntTy, Some dstIntTy =>
        (* Generate extends *)
        if (numBits srcIntTy <? numBits dstIntTy)%N then
          _ <- typeOf val ;;                       (* val.getLoc() *)
          resTy <- type (TIntegerType dstIntTy) ;;
          if isSigned dstIntTy
          then create (fun res => mlir.arith_ExtSIOp res val) resTy
          else create (fun res => mlir.arith_ExtUIOp res val) resTy
        else solUnimplemented ("Unhandled cast" +:+ newline)
    | _, _ => solUnimplemented ("Unhandled cast" +:+ newline)
    end.

(** Returns the mlir expression for the literal [lit]. *)
Definition genExpr_Literal (ty : Type_) (literalValue : Z) : M Pass mlir.Value :=
  match ty with
  | TRationalNumberType _ isFractional integerType =>
      if isFractional then solUnimplemented ("Unhandled literal" +:+ newline)
      else match integerType with
           | Some intTy =>
               resTy <- type ty ;;
               create (fun res => mlir.arith_ConstantOp res
                         (mlir.IntegerAttr resTy (numBits intTy) literalValue))
                      resTy
           | None => throw (InternalCompilerError "null IntegerType")
           end
  | _ => solUnimplemented ("Unhandled literal" +:+ newline)
  end.

(** [genExpr] on an [Expression] with an optional result type, with
    [genExpr] on a [BinaryOperation] written in its binary operation branch:
    the two call each other. *)
Fixpoint genExpr (expr : Expression) (resTy : option Type_) : M Pass mlir.Value :=
  let cast (val : mlir.Value) : M Pass mlir.Value :=
    (* Generate cast (Optional) *)
    match resTy with
    | Some resTy => genCast val (annotation_type expr) resTy
    | None => ret val
    end in
  match expr with
  (* Generate literals *)
  | Literal ty literalValue =>
      val <- genExpr_Literal ty literalValue ;;
      cast val
  (* Generate variable access *)
  | Identifier _ referencedDeclaration =>
      addr <- getMemRef referencedDeclaration ;;
      addrTy <- typeOf addr ;;
      match addrTy with
      | mlir.MemRefType elementType =>
          create (fun res => mlir.memref_LoadOp res addr) elementType
      | _ => throw (InternalCompilerError "memref.load of a non-memref")
      end
  (* Generate binary operation *)
  | BinaryOperation binTy op leftExpression rightExpression =>
      val <- (lhs <- genExpr leftExpression (Some binTy) ;;
              rhs <- genExpr rightExpression (Some binTy) ;;
              match op with
              | Add =>
                  opTy <- typeOf lhs ;;
                  _ <- typeOf rhs ;;
                  create (fun res => mlir.arith_AddIOp res lhs rhs) opTy
              | Mul =>
                  opTy <- typeOf lhs ;;
                  _ <- typeOf rhs ;;
                  create (fun res => mlir.arith_MulIOp res lhs rhs) opTy
              | _ => solUnimplemented "Unhandled binary operation"
              end) ;;
      cast val
  | OtherExpression _ => cast mlir.NullValue
  end.

Definition getCurrFunc : M Pass FunctionDefinition :=
  p <- get ;;
  match currFunc p with
  | Some f => ret f
  | None => throw (InternalCompilerError "null currFunc")
  end.

(** [visit] on a [Return]. *)
Definition visit_Return (expression : option Expression) : M Pass bool :=
  func <- getCurrFunc ;;
  let currFuncResTys := returnParameterTypes func in
  match currFuncResTys with
  (* The function generator emits `ReturnOp` for empty result *)
  | [] => ret true
  | resTy0 :: _ =>
      solUnimplementedAssert (length currFuncResTys =? 1)
        "TODO: Impl multivalued return" ;;;
      match expression with
      | Some astExpr =>
          expr <- genExpr astExpr (Some resTy0) ;;
          _ <- typeOf expr ;;
          create_ (mlir.func_ReturnOp [expr]) ;;;
          ret true
      | None =>
          solUnimplementedAssert false "NYI: Empty return" ;;;
          ret true
      end
  end.

(** [accept] on a statement: the visitor overrides [visit(Return)]
    only, every other node is walked through to its sub-statements in source
    order (expressions contain no statement). *)
Fixpoint accept (stmt : Statement) : M Pass unit :=
  match stmt with
  | Return expression => _ <- visit_Return expression ;; ret tt
  | Block statements =>
      (fix acceptAll (l : list Statement) : M Pass unit :=
         match l with
         | [] => ret tt
         | s :: l' => accept s ;;; acceptAll l'
         end) statements
  | IfStatement _ trueStatement falseStatement =>
      accept trueStatement ;;;
      match falseStatement with
      | Some s => accept s
      | None => ret tt
      end
  | WhileStatement _ body => accept body
  | ExpressionStatement _ => ret tt
  end.

(** [run] on a [FunctionDefinition].  The [func::FuncOp] is created at the
    cursor and the cursor moves into its fresh entry block; when the body is
    complete the cursor is set after the function.  Here the block is built
    first and the finished function appended to the enclosing block. *)
Definition run_FunctionDefinition (func : FunctionDefinition) : M Pass unit :=
  modify (fun p => mkPass (b p) (varMemRef p) (Some func)) ;;;
  inpTys <- mapEach (parameters func) (fun param => type (var_type param)) ;;
  outTys <- mapEach (returnParameters func) (fun param => type (var_type param)) ;;
  solUnimplementedAssert (length outTys <=? 1) "TODO: Impl multivalued return" ;;;
  outer <- get ;;
  modify (withBuilder (fun bld => mlir.mkOpBuilder (mlir.nextResult bld) mlir.emptyBlock)) ;;;
  forEach (zip inpTys (parameters func)) (fun '(inpTy, param) =>
    arg <- (fun p => let '(a, b') := mlir.addArgument inpTy (b p) in
                     Ok (a, withBuilder (fun _ => b') p)) ;;
    (* TODO: Support non-scalars *)
    addr <- create mlir.memref_AllocaOp (mlir.MemRefType inpTy) ;;
    setMemRef (decl param) addr ;;;
    create_ (mlir.memref_StoreOp arg addr)) ;;;
  accept (body func) ;;;
  (* Generate empty return *)
  (if bool_decide (outTys = []) then create_ (mlir.func_ReturnOp []) else ret tt) ;;;
  modify (fun p =>
    mkPass (mlir.append (mlir.func_FuncOp (name func) inpTys outTys [mlir.block (b p)])
              (mlir.mkOpBuilder (mlir.nextResult (b p)) (mlir.block (b outer))))
           (varMemRef p) (currFunc p)).

(** [run] on a [ContractDefinition]. *)
Definition run_ContractDefinition (cont : ContractDefinition) : M Pass unit :=
  outer <- get ;;
  modify (withBuilder (fun bld => mlir.mkOpBuilder (mlir.nextResult bld) mlir.emptyBlock)) ;;;
  forEach (definedFunctions cont) run_FunctionDefinition ;;;
  modify (fun p =>
    mkPass (mlir.append (mlir.sol_ContractOp (contract_name cont)
                           (mlir.operations (mlir.block (b p))))
              (mlir.mkOpBuilder (mlir.nextResult (b p)) (mlir.block (b outer))))
           (varMemRef p) (currFunc p)).

(** [getModule()]: the body of the module the pass has built. *)
Definition getModule (p : Pass) : list mlir.Operation :=
  mlir.operations (mlir.block (b p)).

Section Job.

(** [mlir::verify] and [doJob] are what the generated module is handed to. *)
Variable verify : list mlir.Operation -> bool.
Variable doJob : list mlir.Operation -> bool.

(** [runSolidityToMLIRPass]: [Ok r] is the [bool] the function returns,
    [Err] the exception that leaves it. *)
Definition runSolidityToMLIRPass (contracts : list ContractDefinition) : Result bool :=
  match forEach contracts run_ContractDefinition init with
  | Ok (_, gen) =>
      let modOp := getModule gen in
      if negb (verify modOp) then Ok false
      else Ok (doJob modOp)
  | Err e => Err e
  end.

End Job.

End SolidityToMLIRPass.

(** ** EraVM specific utility *)

Module eravm.

Inductive AddrSpace :=
| AddrSpace_Stack
| AddrSpace_Heap
| AddrSpace_HeapAuxiliary
| AddrSpace_Generic
| AddrSpace_Code
| AddrSpace_Storage.

(** The enumerators are used as [unsigned] throughout the lowering. *)
Definition AddrSpace_value (a : AddrSpace) : N :=
  match a with
  | AddrSpace_Stack => 0
  | AddrSpace_Heap => 1
  | AddrSpace_HeapAuxiliary => 2
  | AddrSpace_Generic => 3
  | AddrSpace_Code => 4
  | AddrSpace_Storage => 5
  end.

Definition ByteLen_Byte : Z := 1.
Definition ByteLen_X32 : Z := 4.
Definition ByteLen_X64 : Z := 8.
Definition ByteLen_EthAddr : Z := 20.
Definition ByteLen_Field : Z := 32.

Definition BitLen_Bool : Z := 1.
Definition BitLen_Byte : Z := 8.
Definition BitLen_X32 : Z := BitLen_Byte * ByteLen_X32.
Definition BitLen_X64 : Z := BitLen_Byte * ByteLen_X64.
Definition BitLen_EthAddr : Z := BitLen_Byte * ByteLen_EthAddr.
Definition BitLen_Field : Z := BitLen_Byte * ByteLen_Field.

Definition HeapAuxOffsetCtorRetData : Z := ByteLen_Field * 8.

Inductive RetForwardPageType := UseHeap | ForwardFatPtr | UseAuxHeap.

Definition RetForwardPageType_value (t : RetForwardPageType) : Z :=
  match t with
  | UseHeap => 0
  | ForwardFatPtr => 1
  | UseAuxHeap => 2
  end.

Definition GlobHeapMemPtr : string := "memory_pointer".
Definition GlobCallDataSize : string := "calldatasize".
Definition GlobRetDataSz : string := "returndatasize".
Definition GlobCallFlags : string := "call_flags".
Definition GlobExtraABIData : string := "extra_abi_data".
Definition GlobCallDataPtr : string := "ptr_calldata".
Definition GlobRetDataPtr : string := "ptr_return_data".
Definition GlobActivePtr : string := "ptr_active".

(** [EntryInfo]. *)
Definition ArgIndexCallDataABI : nat := 0.
Definition ArgIndexCallFlags : nat := 1.
Definition MandatoryArgCnt : nat := 2.

(** [UINT_MAX] of [<climits>], for the 32-bit [unsigned] of the target the
    compiler is built for. *)
Definition UINT_MAX : Z := 2 ^ 32 - 1.

End eravm.

(** ** The Solidity dialect lowering pass *)

Module lowering.

(** [llvm::StringRef::endswith]. *)
Definition endswith (s suffix : string) : bool :=
  (String.length suffix <=? String.length s) &&
  String.eqb
    (substring (String.length s - String.length suffix) (String.length suffix) s)
    suffix.

(** The [ConversionPatternRewriter] of a pattern that is rewriting an
    operation of the module: the block at the insertion point, the body of
    the [ModuleOp] and the operations handed to [eraseOp].  The operation
    under rewrite is not listed in [builder] nor in [moduleBody]: every
    pattern ends by erasing it, and an erased operation is not put back. *)
Record Rewriter := mkRewriter {
  builder : mlir.OpBuilder;
  moduleBody : list mlir.Operation;
  erased : list mlir.Operation
}.

Definition withBuilder (f : mlir.OpBuilder -> mlir.OpBuilder) (r : Rewriter) : Rewriter :=
  mkRewriter (f (builder r)) (moduleBody r) (erased r).

Definition withModule (f : list mlir.Operation -> list mlir.Operation)
    (r : Rewriter) : Rewriter :=
  mkRewriter (builder r) (f (moduleBody r)) (erased r).

Definition create (mk : mlir.Value -> mlir.Operation) (ty : mlir.Type_)
    : M Rewriter mlir.Value :=
  fun r => let '(res, b') := mlir.createResult mk ty (builder r) in
           Ok (res, withBuilder (fun _ => b') r).

Definition create_ (op : mlir.Operation) : M Rewriter unit :=
  modify (withBuilder (mlir.append op)).

Definition eraseOp (op : mlir.Operation) : M Rewriter unit :=
  modify (fun r => mkRewriter (builder r) (moduleBody r) (erased r ++ [op])).

Definition i256Ty : mlir.Type_ := mlir.IntegerType 256.

(** *** [solidity::mlirgen::BuilderHelper] *)

(** Modelled from the spec: [getConst] of [solidity::mlirgen::BuilderHelper]
    (libsolidity/codegen/mlir/Util.h, which is not among the sources).  The
    spec describes the builder helpers as the utilities that construct
    typed constants and global-variable declarations and that look up or
    create declarations idempotently (same name, same declaration, created
    at most once per module).  A constant is of the word type [i256] and is
    created at the insertion point. *)
Definition getConst (val : Z) : M Rewriter mlir.Value :=
  create (fun res => mlir.arith_ConstantOp res (mlir.IntegerAttr i256Ty 256 val))
         i256Ty.

(** Modelled from the spec: [getConstSplat] of the same missing helper, the
    constant whose [numElements] words all are [val]. *)
Definition getConstSplat (numElements : N) (val : Z) : M Rewriter mlir.Value :=
  create (fun res => mlir.arith_ConstantOp res
            (mlir.DenseSplatAttr numElements 256 val))
         (mlir.RankedTensorType [numElements] i256Ty).

(** Modelled from the spec: [getOrInsertGlobalOp] of the same missing helper,
    the idempotent lookup-or-insert of a global slot.  A global that is
    created is put at the start of the module body, as
    [getOrInsertLLVMFuncOp] below does with functions. *)
Definition getOrInsertGlobalOp (name : string) (ty : mlir.Type_)
    (alignment : option N) (addrSpace : eravm.AddrSpace)
    (linkage : mlir.Linkage) (attr : option mlir.Attribute)
    : M Rewriter mlir.Operation :=
  r <- get ;;
  match mlir.lookupSymbol name (moduleBody r) with
  | Some (mlir.LLVM_GlobalOp _ _ _ _ _ _ as found) => ret found
  | _ =>
      let glob := mlir.LLVM_GlobalOp name ty alignment
                    (eravm.AddrSpace_value addrSpace) linkage attr in
      modify (withModule (fun body => glob :: body)) ;;;
      ret glob
  end.

(** Modelled from the spec: [getOrInsertIntGlobalOp] of the same missing
    helper, a word-typed global slot initialised to zero. *)
Definition getOrInsertIntGlobalOp (name : string) (addrSpace : eravm.AddrSpace)
    : M Rewriter mlir.Operation :=
  getOrInsertGlobalOp name i256Ty None addrSpace mlir.Private
    (Some (mlir.IntegerAttr i256Ty 256 0)).

(** Modelled from the spec: [getOrInsertPtrGlobalOp] of the same missing
    helper, a pointer-typed global slot of the address space. *)
Definition getOrInsertPtrGlobalOp (name : string) (addrSpace : eravm.AddrSpace)
    : M Rewriter mlir.Operation :=
  getOrInsertGlobalOp name (mlir.LLVMPointerType (eravm.AddrSpace_value addrSpace))
    None addrSpace mlir.Private None.

(** Modelled from the spec: [getGlobalOp] of the same missing helper, the
    lookup of a global slot that must exist. *)
Definition getGlobalOp (name : string) : M Rewriter mlir.Operation :=
  r <- get ;;
  match mlir.lookupSymbol name (moduleBody r) with
  | Some (mlir.LLVM_GlobalOp _ _ _ _ _ _ as found) => ret found
  | _ => throw (InternalCompilerError "global not found")
  end.

(** [b.create<LLVM::AddressOfOp>(loc, globOp)]. *)
Definition createAddressOf (globOp : mlir.Operation) : M Rewriter mlir.Value :=
  match globOp with
  | mlir.LLVM_GlobalOp sym_name _ _ addrSpace _ _ =>
      create (fun res => mlir.LLVM_AddressOfOp res sym_name)
             (mlir.LLVMPointerType addrSpace)
  | _ => throw (InternalCompilerError "not a GlobalOp")
  end.

Definition getAddrSpace (globOp : mlir.Operation) : N :=
  match globOp with
  | mlir.LLVM_GlobalOp _ _ _ addrSpace _ _ => addrSpace
  | _ => 0
  end.

Definition getGlobalType (globOp : mlir.Operation) : mlir.Type_ :=
  match globOp with
  | mlir.LLVM_GlobalOp _ ty _ _ _ _ => ty
  | _ => mlir.LLVMVoidType
  end.

(** *** [eravm::BuilderHelper] *)

Definition initGlobs : M Rewriter unit :=
  let initInt (name : string) : M Rewriter unit :=
    globOp <- getOrInsertIntGlobalOp name eravm.AddrSpace_Stack ;;
    globAddr <- createAddressOf globOp ;;
    zero <- getConst 0 ;;
    create_ (mlir.LLVM_StoreOp zero globAddr (Some 32%N)) in
  (* Initialize the following global ints *)
  initInt eravm.GlobHeapMemPtr ;;;
  initInt eravm.GlobCallDataSize ;;;
  initInt eravm.GlobRetDataSz ;;;
  initInt eravm.GlobCallFlags ;;;
  (* Initialize the GlobExtraABIData int array *)
  extraABIData <- getOrInsertGlobalOp eravm.GlobExtraABIData
                    (mlir.LLVMArrayType i256Ty 10) (Some 32%N)
                    eravm.AddrSpace_Stack mlir.Private
                    (Some (mlir.ZeroAttr (mlir.RankedTensorType [10%N] i256Ty))) ;;
  extraABIDataAddr <- createAddressOf extraABIData ;;
  splat <- getConstSplat 10 0 ;;
  create_ (mlir.LLVM_StoreOp splat extraABIDataAddr None).

Definition getABILen (ptr : mlir.Value) : M Rewriter mlir.Value :=
  ptrToInt <- create (fun res => mlir.LLVM_PtrToIntOp res ptr) i256Ty ;;
  shift <- getConst (eravm.BitLen_X32 * 3) ;;
  lShr <- create (fun res => mlir.LLVM_LShrOp res ptrToInt shift) i256Ty ;;
  mask <- getConst eravm.UINT_MAX ;;
  create (fun res => mlir.LLVM_AndOp res lShr mask) i256Ty.

Definition genLoad (addr : mlir.Value) : M Rewriter mlir.Value :=
  r <- get ;;
  match mlir.getDefiningOp addr (mlir.operations (mlir.block (builder r))) with
  | Some (mlir.LLVM_AddressOfOp _ global_name) =>
      match mlir.lookupSymbol global_name (moduleBody r) with
      | Some (mlir.LLVM_GlobalOp _ ty _ addrSpace _ _) =>
          let alignment :=
            if bool_decide (addrSpace = eravm.AddrSpace_value eravm.AddrSpace_Stack)
            then eravm.ByteLen_Field else eravm.ByteLen_Byte in
          create (fun res => mlir.LLVM_LoadOp res addr (Some (Z.to_N alignment))) ty
      | _ => throw (InternalCompilerError "assert(globOp)")
      end
  | _ => throw (InternalCompilerError "cast<LLVM::AddressOfOp>")
  end.

(** *** Function declarations *)

Definition getOrInsertLLVMFuncOp (name : string) (resTy : mlir.Type_)
    (argTys : list mlir.Type_) (linkage : mlir.Linkage)
    (attrs : list (string * mlir.Attribute)) : M Rewriter mlir.Operation :=
  r <- get ;;
  match mlir.lookupSymbol name (moduleBody r) with
  | Some (mlir.LLVM_LLVMFuncOp _ _ _ _ _ _ as found) => ret found
  | _ =>
      let fn := mlir.LLVM_LLVMFuncOp name resTy argTys linkage attrs [] in
      modify (withModule (fun body => fn :: body)) ;;;
      ret fn
  end.

Definition getOrInsertCreationFuncOp (name : string) (resTy : mlir.Type_)
    (argTys : list mlir.Type_) : M Rewriter mlir.Operation :=
  getOrInsertLLVMFuncOp name resTy argTys mlir.Private
    [("isRuntime", mlir.BoolAttr false)].

Definition getOrInsertRuntimeFuncOp (name : string) (resTy : mlir.Type_)
    (argTys : list mlir.Type_) : M Rewriter mlir.Operation :=
  getOrInsertLLVMFuncOp name resTy argTys mlir.Private
    [("isRuntime", mlir.BoolAttr true)].

(** The [SymbolRefAttr] is the name. *)
Definition getOrInsertLLVMFuncSym (name : string) (resTy : mlir.Type_)
    (argTys : list mlir.Type_) : M Rewriter string :=
  _ <- getOrInsertLLVMFuncOp name resTy argTys mlir.External [] ;;
  ret name.

Definition getOrInsertReturn : M Rewriter string :=
  getOrInsertLLVMFuncSym "__return" mlir.LLVMVoidType [i256Ty; i256Ty; i256Ty].

(** *** Context classification *)

Definition isaLLVMFuncOp (op : mlir.Operation) : bool :=
  match op with mlir.LLVM_LLVMFuncOp _ _ _ _ _ _ => true | _ => false end.

Definition isaObjectOp (op : mlir.Operation) : bool :=
  match op with mlir.sol_ObjectOp _ _ => true | _ => false end.

(** [Operation::getParentOfType]: the nearest enclosing operation of the
    asked kind.  [parents] are the operations that enclose the operation,
    the nearest first. *)
Fixpoint getParentOfType (isa : mlir.Operation -> bool)
    (parents : list mlir.Operation) : option mlir.Operation :=
  match parents with
  | [] => None
  | parent :: parents' =>
      if isa parent then Some parent else getParentOfType isa parents'
  end.

(** [Operation::getAttr] on the attribute dictionary of a function. *)
Fixpoint lookupAttr (name : string) (attrs : list (string * mlir.Attribute))
    : option mlir.Attribute :=
  match attrs with
  | [] => None
  | (n, a) :: attrs' => if String.eqb n name then Some a else lookupAttr name attrs'
  end.

Definition getAttr (name : string) (op : mlir.Operation) : option mlir.Attribute :=
  match op with
  | mlir.LLVM_LLVMFuncOp _ _ _ _ attrs _ => lookupAttr name attrs
  | _ => None
  end.

(** Returns true if [op] is defined in a runtime context. *)
Definition inRuntimeContext (op : mlir.Operation) (parents : list mlir.Operation)
    : Result bool :=
  if isaLLVMFuncOp op || isaObjectOp op
  then Err (InternalCompilerError "assert(!isa<LLVMFuncOp>(op) && !isa<ObjectOp>(op))")
  else
    (* Check if the parent FuncOp has isRuntime attribute set *)
    match getParentOfType isaLLVMFuncOp parents with
    | Some parentFunc =>
        match getAttr "isRuntime" parentFunc with
        | Some (mlir.BoolAttr value) => Ok value
        | Some _ => Err (InternalCompilerError "cast<BoolAttr>")
        | None => Err (InternalCompilerError "assert(isRuntimeAttr)")
        end
    | None =>
        (* If there's no parent FuncOp, check the parent ObjectOp *)
        match getParentOfType isaObjectOp parents with
        | Some parentObj =>
            match mlir.getSymName parentObj with
            | Some symName => Ok (endswith symName "_deployed")
            | None => Err (InternalCompilerError "no symbol name")
            end
        | None => Err (InternalCompilerError "op has no parent FuncOp or ObjectOp")
        end
    end.

Definition lift {S A} (r : Result A) : M S A :=
  fun s => match r with Ok a => Ok (a, s) | Err e => Err e end.

(** *** [ReturnOpLowering] *)

Definition ReturnOpLowering_matchAndRewrite (op : mlir.Operation)
    (parents : list mlir.Operation) : M Rewriter unit :=
  match op with
  | mlir.sol_ReturnOp lhs rhs =>
      returnFunc <- getOrInsertReturn ;;
      inRuntime <- lift (inRuntimeContext op parents) ;;
      if (inRuntime : bool) then
        (* Lowering in the runtime context: create the return call
           (__return(offset, length, RetForwardPageType::UseHeap)) and the
           unreachable op *)
        mode <- getConst (eravm.RetForwardPageType_value eravm.UseHeap) ;;
        create_ (mlir.func_CallOp returnFunc [] [lhs; rhs; mode]) ;;;
        create_ mlir.LLVM_UnreachableOp ;;;
        eraseOp op
      else
        (* Lowering in the creation context *)
        let heapAuxAddrSpacePtrTy :=
          mlir.LLVMPointerType (eravm.AddrSpace_value eravm.AddrSpace_HeapAuxiliary) in
        (* Store ByteLen_Field to the immutables offset *)
        offset <- getConst eravm.HeapAuxOffsetCtorRetData ;;
        immutablesOffsetPtr <-
          create (fun res => mlir.LLVM_IntToPtrOp res offset) heapAuxAddrSpacePtrTy ;;
        field <- getConst eravm.ByteLen_Field ;;
        create_ (mlir.LLVM_StoreOp field immutablesOffsetPtr None) ;;;
        (* Store size of immutables in terms of ByteLen_Field to the
           immutables number offset *)
        let immutablesSize : Z := 0%Z in (* TODO: Implement this! *)
        numOffset <- getConst (eravm.HeapAuxOffsetCtorRetData + eravm.ByteLen_Field)%Z ;;
        immutablesNumPtr <-
          create (fun res => mlir.LLVM_IntToPtrOp res numOffset) heapAuxAddrSpacePtrTy ;;
        num <- getConst (Z.quot immutablesSize eravm.ByteLen_Field) ;;
        create_ (mlir.LLVM_StoreOp num immutablesNumPtr None) ;;;
        (* Calculate the return data length (i.e. immutablesSize * 2 +
           ByteLen_Field * 2 *)
        size <- getConst immutablesSize ;;
        two <- getConst 2 ;;
        immutablesCalcSize <-
          create (fun res => mlir.arith_MulIOp res size two) i256Ty ;;
        fields <- getConst (eravm.ByteLen_Field * 2)%Z ;;
        returnDataLen <-
          create (fun res => mlir.arith_AddIOp res immutablesCalcSize fields) i256Ty ;;
        (* Create the return call (__return(HeapAuxOffsetCtorRetData,
           returnDataLen, RetForwardPageType::UseAuxHeap)) and the
           unreachable op *)
        base <- getConst eravm.HeapAuxOffsetCtorRetData ;;
        mode <- getConst (eravm.RetForwardPageType_value eravm.UseAuxHeap) ;;
        create_ (mlir.func_CallOp returnFunc [] [base; returnDataLen; mode]) ;;;
        create_ mlir.LLVM_UnreachableOp ;;;
        eraseOp op
  | _ => throw (InternalCompilerError "cast<sol::ReturnOp>")
  end.

(** *** [ObjectOpLowering] *)

(** [entryBlk->getArgument(i)] of the block at the insertion point. *)
Definition getArgument (i : nat) : M Rewriter mlir.Value :=
  r <- get ;;
  match mlir.arguments (mlir.block (builder r)) !! i with
  | Some arg => ret arg
  | None => throw (InternalCompilerError "getArgument: index out of range")
  end.

Definition getNumArguments : M Rewriter nat :=
  r <- get ;; ret (length (mlir.arguments (mlir.block (builder r)))).

(** The blocks [region] put before the first block of the function named
    [name] in a module body. *)
Fixpoint inlineInto (name : string) (region : list mlir.Block)
    (body : list mlir.Operation) : list mlir.Operation :=
  match body with
  | [] => []
  | op :: body' =>
      match op with
      | mlir.LLVM_LLVMFuncOp sym_name resTy argTys linkage attrs blocks =>
          if String.eqb sym_name name
          then mlir.LLVM_LLVMFuncOp sym_name resTy argTys linkage attrs
                 (region ++ blocks) :: body'
          else op :: inlineInto name region body'
      | _ => op :: inlineInto name region body'
      end
  end.

(** [rewriter.inlineRegionBefore(region, funcRegion, funcRegion.begin())]
    for the region of the function [func] of the module. *)
Definition inlineRegionBefore (region : list mlir.Block) (func : mlir.Operation)
    : M Rewriter unit :=
  match mlir.getSymName func with
  | Some name => modify (withModule (inlineInto name region))
  | None => throw (InternalCompilerError "not a function")
  end.

Definition symNameOf (func : mlir.Operation) : string :=
  match mlir.getSymName func with Some name => name | None => EmptyString end.

(** The region of an object: one block that holds its body. *)
Definition getRegion (body : list mlir.Operation) : list mlir.Block :=
  [mlir.mkBlock [] body].

(** The input types of the entry function. *)
Definition entryInTys : list mlir.Type_ :=
  let genericAddrSpacePtrTy :=
    mlir.LLVMPointerType (eravm.AddrSpace_value eravm.AddrSpace_Generic) in
  let argCnt := 2 (* Entry::MANDATORY_ARGUMENTS_COUNT *) +
                10 (* eravm::EXTRA_ABI_DATA_SIZE *) in
  fold_left (fun inTys _ => inTys ++ [i256Ty]) (seq 0 (argCnt - 1))
            [genericAddrSpacePtrTy].

Definition ObjectOpLowering_matchAndRewrite (op : mlir.Operation)
    : M Rewriter unit :=
  match op with
  | mlir.sol_ObjectOp symName objBody =>
      let voidTy := mlir.LLVMVoidType in
      (* Is this a runtime object? *)
      if endswith symName "_deployed" then
        (* Move the runtime object region under the __runtime function *)
        runtimeFunc <- getOrInsertRuntimeFuncOp "__runtime" voidTy [] ;;
        inlineRegionBefore (getRegion objBody) runtimeFunc ;;;
        eraseOp op
      else
        let inTys := entryInTys in
        (* The func::FuncOp "__entry" is created at the end of the module
           body and the insertion point set to the start of its new entry
           block; the finished function is put there at the end of this
           rewrite, nothing else being added to the end in between. *)
        modify (withBuilder (fun bld =>
                  mlir.mkOpBuilder (mlir.nextResult bld) mlir.emptyBlock)) ;;;
        forEach inTys (fun inTy =>
          fun r => let '(_, b') := mlir.addArgument inTy (builder r) in
                   Ok (tt, withBuilder (fun _ => b') r)) ;;;
        (* Initialize globals *)
        initGlobs ;;;
        (* Store the calldata ABI arg to the global calldata ptr *)
        globCallDataPtrDef <-
          getOrInsertPtrGlobalOp eravm.GlobCallDataPtr eravm.AddrSpace_Generic ;;
        globCallDataPtr <- createAddressOf globCallDataPtrDef ;;
        callDataABI <- getArgument eravm.ArgIndexCallDataABI ;;
        create_ (mlir.LLVM_StoreOp callDataABI globCallDataPtr (Some 32%N)) ;;;
        (* Store the calldata ABI size to the global calldata size *)
        abiLen <- getABILen globCallDataPtr ;;
        globCallDataSzDef <- getGlobalOp eravm.GlobCallDataSize ;;
        globCallDataSz <- createAddressOf globCallDataSzDef ;;
        create_ (mlir.LLVM_StoreOp abiLen globCallDataSz (Some 32%N)) ;;;
        (* Store calldatasize[calldata abi arg] to the global ret data ptr
           and active ptr *)
        callDataSz <- genLoad globCallDataSz ;;
        callDataABI' <- getArgument eravm.ArgIndexCallDataABI ;;
        retDataABIInitializer <-
          create (fun res => mlir.LLVM_GEPOp res
                    (mlir.IntegerType (Z.to_N eravm.BitLen_Byte))
                    callDataABI' [callDataSz])
                 (mlir.LLVMPointerType (getAddrSpace globCallDataPtrDef)) ;;
        let storeRetDataABIInitializer (name : string) : M Rewriter unit :=
          globDef <- getOrInsertPtrGlobalOp name eravm.AddrSpace_Generic ;;
          globAddr <- createAddressOf globDef ;;
          create_ (mlir.LLVM_StoreOp retDataABIInitializer globAddr (Some 32%N)) in
        storeRetDataABIInitializer eravm.GlobRetDataPtr ;;;
        storeRetDataABIInitializer eravm.GlobActivePtr ;;;
        (* Store call flags arg to the global call flags *)
        globCallFlagsDef <- getGlobalOp eravm.GlobCallFlags ;;
        globCallFlags <- createAddressOf globCallFlagsDef ;;
        callFlags <- getArgument eravm.ArgIndexCallFlags ;;
        create_ (mlir.LLVM_StoreOp callFlags globCallFlags (Some 32%N)) ;;;
        (* Store the remaining args to the global extra ABI data *)
        globExtraABIDataDef <- getGlobalOp eravm.GlobExtraABIData ;;
        globExtraABIData <- createAddressOf globExtraABIDataDef ;;
        numArguments <- getNumArguments ;;
        forEach (seq 2 (numArguments - 2)) (fun i =>
          zero <- getConst 0 ;;
          index <- getConst (Z.of_nat i) ;;
          gep <- create (fun res => mlir.LLVM_GEPOp res
                           (getGlobalType globExtraABIDataDef)
                           globExtraABIData [zero; index])
                        (mlir.LLVMPointerType (getAddrSpace globExtraABIDataDef)) ;;
          arg <- getArgument i ;;
          create_ (mlir.LLVM_StoreOp arg gep (Some 32%N))) ;;;
        (* Check Deploy call flag *)
        callFlags' <- getArgument eravm.ArgIndexCallFlags ;;
        one <- getConst 1 ;;
        deployCallFlag <-
          create (fun res => mlir.arith_AndIOp res callFlags' one) i256Ty ;;
        one' <- getConst 1 ;;
        isDeployCallFlag <-
          create (fun res => mlir.arith_CmpIOp res mlir.eq deployCallFlag one')
                 (mlir.IntegerType 1) ;;
        (* Create the __runtime function *)
        runtimeFunc <- getOrInsertRuntimeFuncOp "__runtime" voidTy [] ;;
        (* Move the runtime object getter under the ObjectOp public API *)
        forEach objBody (fun nested =>
          match nested with
          | mlir.sol_ObjectOp runtimeName runtimeBody =>
              assert (endswith runtimeName "_deployed")
                "assert(runtimeObj.getSymName().endswith(_deployed))" ;;;
              inlineRegionBefore (getRegion runtimeBody) runtimeFunc ;;;
              eraseOp nested
          | _ => ret tt
          end) ;;;
        (* Create the __deploy function; the runtime objects erased above
           do not stay in the region that is moved *)
        deployFunc <- getOrInsertCreationFuncOp "__deploy" voidTy [] ;;
        inlineRegionBefore
          (getRegion (List.filter (fun o => negb (isaObjectOp o)) objBody))
          deployFunc ;;;
        (* If the deploy call flag is set, call __deploy(), else call
           __runtime() *)
        create_ (mlir.scf_IfOp isDeployCallFlag
                   [mlir.LLVM_CallOp (symNameOf deployFunc) []; mlir.scf_YieldOp]
                   [mlir.LLVM_CallOp (symNameOf runtimeFunc) []; mlir.scf_YieldOp]) ;;;
        create_ mlir.LLVM_UnreachableOp ;;;
        eraseOp op ;;;
        modify (fun r => withModule (fun body =>
                  body ++ [mlir.func_FuncOp "__entry" inTys [i256Ty]
                             [mlir.block (builder r)]]) r)
  | _ => throw (InternalCompilerError "cast<sol::ObjectOp>")
  end.

(** *** Reading a lowered module *)

(** The module body declares a global of this name. *)
Definition hasGlobal (name : string) (body : list mlir.Operation) : Prop :=
  exists ty alignment addrSpace linkage value,
    mlir.lookupSymbol name body =
      Some (mlir.LLVM_GlobalOp name ty alignment addrSpace linkage value).

(** Every object nested in the body of an object is a runtime object. *)
Definition nestedDeployed (op : mlir.Operation) : bool :=
  match op with
  | mlir.sol_ObjectOp runtimeName _ => endswith runtimeName "_deployed"
  | _ => true
  end.

(** The pointer whose length field the value [len] is: the operand of the
    pointer-to-integer conversion under the shift by 96 and the mask by
    [UINT_MAX]. *)
Definition ABILenSource (ops : list mlir.Operation) (len : mlir.Value)
    : option mlir.Value :=
  match mlir.getDefiningOp len ops with
  | Some (mlir.LLVM_AndOp _ lShr _) =>
      match mlir.getDefiningOp lShr ops with
      | Some (mlir.LLVM_LShrOp _ ptrToInt _) =>
          match mlir.getDefiningOp ptrToInt ops with
          | Some (mlir.LLVM_PtrToIntOp _ ptr) => Some ptr
          | _ => None
          end
      | _ => None
      end
  | _ => None
  end.

(** The entry block of the function a finished rewrite has put last in the
    module body. *)
Definition entryBlock (body : list mlir.Operation) : option mlir.Block :=
  match last body with
  | Some (mlir.func_FuncOp "__entry" _ _ [blk]) => Some blk
  | _ => None
  end.

(** The input types of that function. *)
Definition entryInputs (body : list mlir.Operation) : option (list mlir.Type_) :=
  match last body with
  | Some (mlir.func_FuncOp "__entry" inputs _ _) => Some inputs
  | _ => None
  end.

(** The integer an operand is the constant of. *)
Definition constantOf (ops : list mlir.Operation) (val : mlir.Value) : option Z :=
  match mlir.getDefiningOp val ops with
  | Some (mlir.arith_ConstantOp _ (mlir.IntegerAttr _ _ value)) => Some value
  | _ => None
  end.

(** The global a pointer is the address of. *)
Definition addressOf (ops : list mlir.Operation) (val : mlir.Value) : option string :=
  match mlir.getDefiningOp val ops with
  | Some (mlir.LLVM_AddressOfOp _ global_name) => Some global_name
  | _ => None
  end.

(** The stores into elements of the global array [name]: the value stored
    and the constant indices of the element, one pair per store, in the
    order of the block. *)
Definition elementStores (name : string) (ops : list mlir.Operation)
    : list (mlir.Value * list (option Z)) :=
  omap (fun op =>
          match op with
          | mlir.LLVM_StoreOp value addr _ =>
              match mlir.getDefiningOp addr ops with
              | Some (mlir.LLVM_GEPOp _ _ base indices) =>
                  if bool_decide (addressOf ops base = Some name)
                  then Some (value, map (constantOf ops) indices)
                  else None
              | _ => None
              end
          | _ => None
          end) ops.

(** The values stored to the global [name] itself. *)
Definition storesTo (name : string) (ops : list mlir.Operation) : list mlir.Value :=
  omap (fun op =>
          match op with
          | mlir.LLVM_StoreOp value addr _ =>
              if bool_decide (addressOf ops addr = Some name) then Some value else None
          | _ => None
          end) ops.

End lowering.

(** ** What the emitted operations compute

    The integer operations the lowering emits, run in order on an
    environment of SSA values, with the stores and calls they perform as a
    trace.  Integers are taken modulo two to the width of their type; a
    pointer made by [inttoptr] is its address.  An operation outside this
    fragment, an operand without a value and a shift by the width or more
    (poison) give [None]. *)

Module semantics.
Import mlir.

Definition Env : Type := Value -> option Z.

Definition emptyEnv : Env := fun _ => None.

Definition setValue (env : Env) (v : Value) (z : Z) : Env :=
  fun v' => if bool_decide (v' = v) then Some z else env v'.

Definition widthOf (v : Value) : option Z :=
  match getType v with
  | Some (IntegerType w) => Some (Z.of_N w)
  | _ => None
  end.

Definition addrSpaceOf (v : Value) : option N :=
  match getType v with
  | Some (LLVMPointerType addressSpace) => Some addressSpace
  | _ => None
  end.

Definition wrap (w z : Z) : Z := (z mod 2 ^ w)%Z.

Inductive Event :=
| EvStore (addrSpace : N) (address value : Z)
| EvCall (callee : string) (args : list Z)
| EvUnreachable.

Definition binop (f : Z -> Z -> Z) (env : Env) (res lhs rhs : Value)
    : option (Env * list Event) :=
  w ← widthOf res; a ← env lhs; b ← env rhs;
  Some (setValue env res (wrap w (f a b)), []).

Definition step (env : Env) (op : Operation) : option (Env * list Event) :=
  match op with
  | arith_ConstantOp res (IntegerAttr _ numBits value) =>
      Some (setValue env res (wrap (Z.of_N numBits) value), [])
  | arith_AddIOp res lhs rhs => binop Z.add env res lhs rhs
  | arith_MulIOp res lhs rhs => binop Z.mul env res lhs rhs
  | arith_AndIOp res lhs rhs => binop Z.land env res lhs rhs
  | LLVM_AndOp res lhs rhs => binop Z.land env res lhs rhs
  | LLVM_LShrOp res lhs rhs =>
      w ← widthOf res; a ← env lhs; b ← env rhs;
      if (b <? w)%Z then Some (setValue env res (Z.shiftr a b), []) else None
  | LLVM_PtrToIntOp res arg =>
      w ← widthOf res; a ← env arg;
      Some (setValue env res (wrap w a), [])
  | LLVM_IntToPtrOp res arg =>
      a ← env arg; Some (setValue env res a, [])
  | LLVM_StoreOp value addr _ =>
      addrSpace ← addrSpaceOf addr; v ← env value; a ← env addr;
      Some (env, [EvStore addrSpace a v])
  | func_CallOp callee _ operands =>
      args ← mapM env operands; Some (env, [EvCall callee args])
  | LLVM_UnreachableOp => Some (env, [EvUnreachable])
  | _ => None
  end.

Fixpoint exec (env : Env) (ops : list Operation) : option (Env * list Event) :=
  match ops with
  | [] => Some (env, [])
  | op :: ops' =>
      '(env', events) ← step env op;
      '(env'', events') ← exec env' ops';
      Some (env'', events ++ events')
  end.

(** The length field of a fat pointer as the design document words it: the
    32 bits at bit offset 3 * 32 of the 256-bit pointer value.  [setABILen]
    writes the field and leaves the other bits of the pointer alone; the
    code has the reading side only, [getABILen]. *)
Definition ABILenOffset : Z := 3 * 32.

Definition setABILen (ptr len : Z) : Z :=
  Z.lor (Z.land ptr (Z.lnot (Z.shiftl (Z.ones 32) ABILenOffset)))
        (Z.shiftl len ABILenOffset).

End semantics.

(** ** Sample inputs *)

Module samples.
Import frontend.

Definition uint8 : Type_ := TIntegerType (mkIntegerType 8 false).
Definition int8 : Type_ := TIntegerType (mkIntegerType 8 true).
Definition int32 : Type_ := TIntegerType (mkIntegerType 32 true).
Definition uint256 : Type_ := TIntegerType (mkIntegerType 256 false).

(** [function f(uint8 a) returns (uint256) { return a; }] *)
Definition return_param_function : FunctionDefinition :=
  mkFunctionDefinition "f"
    [mkVariableDeclaration 1 "a" uint8]
    [mkVariableDeclaration 2 "" uint256]
    (Block [Return (Some (Identifier uint8 1))]).

Definition return_param_contract : ContractDefinition :=
  mkContractDefinition "C" [return_param_function].

(** What the pass makes of [return_param_contract]. *)
Definition return_param_module : mlir.Operation :=
  mlir.sol_ContractOp "C"
    [mlir.func_FuncOp "f" [mlir.IntegerType 8] [mlir.IntegerType 256]
       [mlir.mkBlock [mlir.BlockArgument 0 (mlir.IntegerType 8)]
          [mlir.memref_AllocaOp (mlir.OpResult 0 (mlir.MemRefType (mlir.IntegerType 8)));
           mlir.memref_StoreOp (mlir.BlockArgument 0 (mlir.IntegerType 8))
             (mlir.OpResult 0 (mlir.MemRefType (mlir.IntegerType 8)));
           mlir.memref_LoadOp (mlir.OpResult 1 (mlir.IntegerType 8))
             (mlir.OpResult 0 (mlir.MemRefType (mlir.IntegerType 8)));
           mlir.func_ReturnOp [mlir.OpResult 1 (mlir.IntegerType 8)]]]].

(** [function g() returns (uint8, uint8) { }] *)
Definition two_results_function : FunctionDefinition :=
  mkFunctionDefinition "g" []
    [mkVariableDeclaration 3 "x" uint8; mkVariableDeclaration 4 "y" uint8]
    (Block []).

(** The creation function the object lowering declares, seen as the parent
    of the operations moved into it. *)
Definition deployFunc : mlir.Operation :=
  mlir.LLVM_LLVMFuncOp "__deploy" mlir.LLVMVoidType [] mlir.Private
    [("isRuntime", mlir.BoolAttr false)] [].

Definition emptyRewriter : lowering.Rewriter :=
  lowering.mkRewriter (mlir.mkOpBuilder 0 mlir.emptyBlock) [] [].

(** [object "Foo" { code {} object "Foo_deployed" { code {} } }] *)
Definition Foo : mlir.Operation :=
  mlir.sol_ObjectOp "Foo" [mlir.sol_ObjectOp "Foo_deployed" []].

(** The operations of the entry block that the lowering of [Foo] in an
    empty module builds. *)
Definition FooEntryOps : list mlir.Operation :=
  match lowering.ObjectOpLowering_matchAndRewrite Foo emptyRewriter with
  | Ok (_, r) =>
      match lowering.entryBlock (lowering.moduleBody r) with
      | Some blk => mlir.operations blk
      | None => []
      end
  | Err _ => []
  end.

(** The block of [{ return(0, 0) }] up to the return operation, the two
    constants being its operands. *)
Definition returnRewriter : lowering.Rewriter :=
  lowering.mkRewriter
    (mlir.mkOpBuilder 2
       (mlir.mkBlock []
          [mlir.arith_ConstantOp (mlir.OpResult 0 lowering.i256Ty)
             (mlir.IntegerAttr lowering.i256Ty 256 0);
           mlir.arith_ConstantOp (mlir.OpResult 1 lowering.i256Ty)
             (mlir.IntegerAttr lowering.i256Ty 256 0)]))
    [] [].

End samples.

(** ** The contract lowering *)

Module contracts.
Import mlir.

Definition isaFuncOp (op : Operation) : bool :=
  match op with func_FuncOp _ _ _ _ => true | _ => false end.

(** The body of the [ModuleOp] around the contract under rewrite: the
    operations before it and the operations after it. *)
Record ModuleBody := mkModuleBody {
  before : list Operation;
  after : list Operation
}.

(** [func->moveAfter(modBody, modBody->begin())]: the function is unlinked
    from the contract and put right after the first operation of the module
    body, which is the contract itself when nothing is before it. *)
Definition moveAfterBegin (m : ModuleBody) (func : Operation) : ModuleBody :=
  match before m with
  | [] => mkModuleBody [] (func :: after m)
  | first :: rest => mkModuleBody (first :: func :: rest) (after m)
  end.

(** [ContractOpLowering::matchAndRewrite]: the functions of the contract are
    collected (each asserted to be a [func::FuncOp]), moved one after the
    other, and the contract is erased; the result is the module body. *)
Definition ContractOpLowering_matchAndRewrite (op : Operation) (m : ModuleBody)
    : Result (list Operation) :=
  match op with
  | sol_ContractOp _ body =>
      (* Move functions to the parent ModuleOp *)
      if forallb isaFuncOp body then
        let m' := fold_left moveAfterBegin body m in
        Ok (before m' ++ after m')
      else Err (InternalCompilerError "assert(isa<func::FuncOp>(&func))")
  | _ => Err (InternalCompilerError "cast<sol::ContractOp>")
  end.

End contracts.

(** ** What a lowered function looks like *)

Module shapes.
Import frontend.

(** A statement holds a return statement. *)
Fixpoint hasReturn (stmt : Statement) : bool :=
  match stmt with
  | Return _ => true
  | Block statements =>
      (fix any (l : list Statement) : bool :=
         match l with
         | [] => false
         | s :: l' => hasReturn s || any l'
         end) statements
  | IfStatement _ trueStatement falseStatement =>
      hasReturn trueStatement ||
      match falseStatement with
      | Some s => hasReturn s
      | None => false
      end
  | WhileStatement _ body => hasReturn body
  | ExpressionStatement _ => false
  end.

(** The arguments of the entry block of a function with inputs [tys], the
    first being argument [a]. *)
Fixpoint entryArguments (a : nat) (tys : list mlir.Type_) : list mlir.Value :=
  match tys with
  | [] => []
  | ty :: tys' => mlir.BlockArgument a ty :: entryArguments (Datatypes.S a) tys'
  end.

(** The slot of a parameter: the stack allocation numbered [k], and the
    store of the argument [a] to it. *)
Fixpoint prologue (k a : nat) (tys : list mlir.Type_) : list mlir.Operation :=
  match tys with
  | [] => []
  | ty :: tys' =>
      mlir.memref_AllocaOp (mlir.OpResult k (mlir.MemRefType ty)) ::
      mlir.memref_StoreOp (mlir.BlockArgument a ty)
        (mlir.OpResult k (mlir.MemRefType ty)) ::
      prologue (Datatypes.S k) (Datatypes.S a) tys'
  end.

(** The variables bound to their slots, the first slot being numbered [k]. *)
Fixpoint bindSlots (k : nat) (params : list VariableDeclaration)
    (tys : list mlir.Type_) (vars : gmap N mlir.Value) : gmap N mlir.Value :=
  match params, tys with
  | param :: params', ty :: tys' =>
      bindSlots (Datatypes.S k) params' tys'
        (<[decl param := mlir.OpResult k (mlir.MemRefType ty)]> vars)
  | _, _ => vars
  end.

(** The operation is the function that [func] is lowered to: it has the
    name of [func], one input per parameter and one result per return
    parameter, and one block. *)
Definition lowersFunction (op : mlir.Operation) (func : FunctionDefinition) : Prop :=
  exists inpTys outTys blk,
    op = mlir.func_FuncOp (name func) inpTys outTys [blk] /\
    length inpTys = length (parameters func) /\
    length outTys = length (returnParameters func).

(** The operation is the contract that [cont] is lowered to: it has the name
    of [cont] and holds the lowered functions of [cont], in their order. *)
Definition lowersContract (op : mlir.Operation) (cont : ContractDefinition) : Prop :=
  exists body,
    op = mlir.sol_ContractOp (contract_name cont) body /\
    Forall2 lowersFunction body (definedFunctions cont).

(** The blocks put in front of the runtime function by the loop over the
    body of an outer object: the region of each nested object, the last
    nested object first. *)
Fixpoint nestedRegions (objBody : list mlir.Operation) (blocks : list mlir.Block)
    : list mlir.Block :=
  match objBody with
  | [] => blocks
  | mlir.sol_ObjectOp _ runtimeBody :: objBody' =>
      nestedRegions objBody' (lowering.getRegion runtimeBody ++ blocks)
  | _ :: objBody' => nestedRegions objBody' blocks
  end.

(** The names of the globals [initGlobs] initialises. *)
Definition initialised : list string :=
  [eravm.GlobHeapMemPtr; eravm.GlobCallDataSize; eravm.GlobRetDataSz;
   eravm.GlobCallFlags; eravm.GlobExtraABIData].

(** What the lowering of the sample object [Foo] in an empty module leaves. *)
Definition FooLowered : lowering.Rewriter :=
  match lowering.ObjectOpLowering_matchAndRewrite samples.Foo samples.emptyRewriter with
  | Ok (_, r') => r'
  | Err _ => samples.emptyRewriter
  end.

End shapes.

(** * Facts about the builder monad *)

Module MonadFacts.

Lemma bind_Ok {S A B} (m : M S A) (f : A -> M S B) s a s' :
  m s = Ok (a, s') -> bind m f s = f a s'.
Proof. intros H. unfold bind. now rewrite H. Qed.

Lemma bind_Err {S A B} (m : M S A) (f : A -> M S B) s e :
  m s = Err e -> bind m f s = Err e.
Proof. intros H. unfold bind. now rewrite H. Qed.

Lemma outcome_bind {S A B} (m : M S A) (f : A -> M S B) (s : S) (a : A) (s' : S)
    (Q : B -> S -> Prop) (E : Prop) :
  m s = Ok (a, s') -> outcome (f a s') Q E -> outcome (bind m f s) Q E.
Proof. intros H. unfold bind. now rewrite H. Qed.

Lemma outcome_bind_Err {S A B} (m : M S A) (f : A -> M S B) (s : S) (e : Failure)
    (Q : B -> S -> Prop) (E : Prop) :
  m s = Err e -> E -> outcome (bind m f s) Q E.
Proof. intros H HE. unfold bind. now rewrite H. Qed.

Lemma outcome_assoc {S A B C} (m : M S A) (f : A -> M S B) (g : B -> M S C)
    (s : S) (Q : C -> S -> Prop) (E : Prop) :
  outcome (bind m (fun a => bind (f a) g) s) Q E ->
  outcome (bind (bind m f) g s) Q E.
Proof.
  unfold bind. destruct (m s) as [[a s1]|e]; exact (fun H => H).
Qed.

End MonadFacts.

(** * Properties of the Solidity to MLIR pass *)

Module GenProofs.
Import frontend SolidityToMLIRPass samples MonadFacts.

Lemma typeOf_nonnull (val : mlir.Value) (p : Pass) :
  val <> mlir.NullValue -> exists ty, typeOf val p = Ok (ty, p).
Proof. destruct val; [congruence | eexists; reflexivity ..]. Qed.

(** A cast to the very same type returns its argument and leaves the builder
    as it is. *)
Lemma genCast_same (val : mlir.Value) (ty : Type_) (p : Pass) :
  genCast val ty ty p = Ok (val, p).
Proof. unfold genCast. rewrite bool_decide_eq_true_2; reflexivity. Qed.

(** A cast between different types never returns with the builder
    untouched: it emits an operation or throws. *)
Lemma genCast_distinct (val res : mlir.Value) (srcTy dstTy : Type_) (p p' : Pass) :
  srcTy <> dstTy ->
  genCast val srcTy dstTy p = Ok (res, p') ->
  mlir.nextResult (b p') = Datatypes.S (mlir.nextResult (b p)).
Proof.
  intros Hne. unfold genCast. rewrite bool_decide_eq_false_2 by exact Hne.
  destruct (getAsIntTy srcTy) as [s|], (getAsIntTy dstTy) as [d|];
    try discriminate.
  destruct (numBits s <? numBits d)%N; [|discriminate].
  unfold bind. destruct (typeOf val p) as [[ty p1]|e] eqn:Hty; [|discriminate].
  assert (p1 = p) as ->.
  { destruct val; cbv in Hty; congruence. }
  simpl. destruct (isSigned d); simpl; intros [= _ <-]; reflexivity.
Qed.

(** C5: a cast of a value from an integer type A to a wider integer type B
    emits one sign-extend when B is signed and one zero-extend when B is
    unsigned, to the MLIR integer type of B's width, and returns its result;
    a cast from a type to the identical type returns the same value and
    emits nothing. *)
Theorem genCast_widening_and_identity
    (val : mlir.Value) (srcTy dstTy : Type_) (A B : IntegerType) (p : Pass) :
  genCast val srcTy srcTy p = Ok (val, p) /\
  (val <> mlir.NullValue ->
   getAsIntTy srcTy = Some A ->
   getAsIntTy dstTy = Some B ->
   (numBits A < numBits B)%N ->
   let res := mlir.OpResult (mlir.nextResult (b p)) (mlir.IntegerType (numBits B)) in
   let ext := if isSigned B then mlir.arith_ExtSIOp res val
              else mlir.arith_ExtUIOp res val in
   genCast val srcTy dstTy p =
     Ok (res,
         mkPass (mlir.mkOpBuilder (Datatypes.S (mlir.nextResult (b p)))
                   (mlir.mkBlock (mlir.arguments (mlir.block (b p)))
                      (mlir.operations (mlir.block (b p)) ++ [ext])))
                (varMemRef p) (currFunc p))).
Proof.
  split; [apply genCast_same|].
  intros Hval HA HB Hlt res ext.
  assert (srcTy <> dstTy) as Hne.
  { intros ->. rewrite HA in HB. injection HB as ->. lia. }
  unfold genCast. rewrite bool_decide_eq_false_2 by exact Hne.
  rewrite HA, HB. apply N.ltb_lt in Hlt. rewrite Hlt.
  destruct (typeOf_nonnull val p Hval) as [ty Hty].
  rewrite (bind_Ok _ _ _ _ _ Hty). simpl.
  subst ext res. destruct (isSigned B); reflexivity.
Qed.

Lemma genCast_widening_and_identity_witness :
  genCast (mlir.BlockArgument 0 (mlir.IntegerType 8)) uint8 uint8 init =
    Ok (mlir.BlockArgument 0 (mlir.IntegerType 8), init) /\
  genCast (mlir.BlockArgument 0 (mlir.IntegerType 8)) uint8 int32 init =
    Ok (mlir.OpResult 0 (mlir.IntegerType 32),
        mkPass (mlir.mkOpBuilder 1
                  (mlir.mkBlock []
                     [mlir.arith_ExtSIOp (mlir.OpResult 0 (mlir.IntegerType 32))
                        (mlir.BlockArgument 0 (mlir.IntegerType 8))]))
               ∅ None).
Proof.
  destruct (genCast_widening_and_identity
              (mlir.BlockArgument 0 (mlir.IntegerType 8)) uint8 int32
              (mkIntegerType 8 false) (mkIntegerType 32 true) init) as [H1 H2].
  split; [exact H1|].
  apply H2; [discriminate | reflexivity | reflexivity | reflexivity].
Defined.

(** C10: a cast between two distinct types whose integer types have the
    same width throws the unimplemented failure; and whenever a cast returns
    its argument with nothing emitted, source and destination are the very
    same type. *)
Theorem genCast_same_width_unimplemented
    (val : mlir.Value) (srcTy dstTy : Type_) (A B : IntegerType) (p : Pass) :
  (srcTy <> dstTy ->
   getAsIntTy srcTy = Some A ->
   getAsIntTy dstTy = Some B ->
   numBits A = numBits B ->
   genCast val srcTy dstTy p =
     Err (UnimplementedFeatureError ("Unhandled cast" +:+ newline))) /\
  (genCast val srcTy dstTy p = Ok (val, p) -> srcTy = dstTy).
Proof.
  split.
  - intros Hne HA HB Hw. unfold genCast.
    rewrite bool_decide_eq_false_2 by exact Hne.
    rewrite HA, HB, Hw, N.ltb_irrefl. reflexivity.
  - intros H. destruct (decide (srcTy = dstTy)) as [|Hne]; [assumption|].
    apply (genCast_distinct _ _ _ _ _ _ Hne) in H. lia.
Qed.

Lemma genCast_same_width_unimplemented_witness :
  genCast (mlir.BlockArgument 0 (mlir.IntegerType 8)) uint8 int8 init =
    Err (UnimplementedFeatureError ("Unhandled cast" +:+ newline)) /\
  uint8 = uint8.
Proof.
  split.
  - apply (genCast_same_width_unimplemented
             (mlir.BlockArgument 0 (mlir.IntegerType 8)) uint8 int8
             (mkIntegerType 8 false) (mkIntegerType 8 true) init);
      [discriminate | reflexivity | reflexivity | reflexivity].
  - apply (genCast_same_width_unimplemented
             (mlir.BlockArgument 0 (mlir.IntegerType 8)) uint8 uint8
             (mkIntegerType 8 false) (mkIntegerType 8 false) init).
    reflexivity.
Defined.

(** C6, at the function [f(uint8 a) returns (uint256) { return a; }]: the
    identifier branch of [genExpr] returns the load at once, so the value
    handed to [func.return] is the [i8] load of [a] and no extension to the
    requested [uint256] is emitted; for an identifier the requested result
    type plays no part at all; [genCast] on that same load would have
    emitted the zero-extend. *)
Theorem genExpr_identifier_skips_cast :
  run_ContractDefinition return_param_contract init =
    Ok (tt, mkPass (mlir.mkOpBuilder 2 (mlir.mkBlock [] [return_param_module]))
              {[ 1%N := mlir.OpResult 0 (mlir.MemRefType (mlir.IntegerType 8)) ]}
              (Some return_param_function)) /\
  (forall (ty : Type_) (d : N) (resTy : Type_),
     genExpr (Identifier ty d) (Some resTy) = genExpr (Identifier ty d) None) /\
  (forall p : Pass,
     genCast (mlir.OpResult 1 (mlir.IntegerType 8)) uint8 uint256 p =
       create (fun res => mlir.arith_ExtUIOp res (mlir.OpResult 1 (mlir.IntegerType 8)))
              (mlir.IntegerType 256) p).
Proof.
  split; [|split].
  - vm_compute. reflexivity.
  - intros ty d resTy. reflexivity.
  - intros p. reflexivity.
Qed.

(** ** Unsupported shapes *)

Lemma mapEach_length {S A B} (l : list A) (body : A -> M S B) s ys s' :
  mapEach l body s = Ok (ys, s') -> length ys = length l.
Proof.
  revert s ys s'. induction l as [|x l IH]; intros s ys s'; simpl.
  - intros [= <- _]. reflexivity.
  - unfold bind at 1. destruct (body x s) as [[y s1]|e]; [|discriminate].
    unfold bind at 1. destruct (mapEach l body s1) as [[ys1 s2]|e] eqn:E;
      [|discriminate].
    intros [= <- _]. simpl. f_equal. eapply IH. exact E.
Qed.

Lemma type_variable_Err (ty : Type_) (p : Pass) (e : Failure) :
  isVariableType ty = true -> type ty p = Err e ->
  exists msg, e = UnimplementedFeatureError msg.
Proof.
  destruct ty as [i|id fr it|id]; simpl; try discriminate.
  intros _ [= <-]. eexists; reflexivity.
Qed.

Lemma mapEach_type_Err (l : list VariableDeclaration) (p : Pass) (e : Failure) :
  Forall (fun d => isVariableType (var_type d) = true) l ->
  mapEach l (fun param => type (var_type param)) p = Err e ->
  exists msg, e = UnimplementedFeatureError msg.
Proof.
  intros Hl. revert p. induction Hl as [|d l Hd Hl IH]; intros p; simpl.
  - discriminate.
  - unfold bind at 1.
    destruct (type (var_type d) p) as [[y s1]|e1] eqn:E1.
    + unfold bind at 1.
      destruct (mapEach l _ s1) as [[ys s2]|e2] eqn:E2; [discriminate|].
      intros [= <-]. eapply IH. exact E2.
    + intros [= <-]. eapply type_variable_Err; eassumption.
Qed.

(** Lowering a function with two return parameters throws, whatever the
    state of the pass. *)
Lemma run_FunctionDefinition_two_results (func : FunctionDefinition) (p : Pass) :
  length (returnParameters func) = 2 ->
  exists e, run_FunctionDefinition func p = Err e /\
    (declaredTypesOk func = true -> exists msg, e = UnimplementedFeatureError msg).
Proof.
  intros Hlen.
  assert (declaredTypesOk func = true ->
          Forall (fun d => isVariableType (var_type d) = true) (parameters func) /\
          Forall (fun d => isVariableType (var_type d) = true) (returnParameters func))
    as Hdecl.
  { unfold declaredTypesOk. intros H. apply andb_true_iff in H as [H1 H2].
    rewrite List.forallb_forall in H1, H2.
    split; apply List.Forall_forall; assumption. }
  unfold run_FunctionDefinition.
  unfold bind at 1. cbn [modify].
  set (p0 := mkPass (b p) (varMemRef p) (Some func)).
  unfold bind at 1.
  destruct (mapEach (parameters func) _ p0) as [[inpTys p1]|e1] eqn:E1.
  - unfold bind at 1.
    destruct (mapEach (returnParameters func) _ p1) as [[outTys p2]|e2] eqn:E2.
    + apply mapEach_length in E2. rewrite Hlen in E2.
      unfold bind at 1. unfold solUnimplementedAssert. rewrite E2. simpl.
      eexists; split; [reflexivity|]. intros _. eexists; reflexivity.
    + eexists; split; [reflexivity|]. intros H.
      eapply mapEach_type_Err; [|exact E2]. apply Hdecl, H.
  - eexists; split; [reflexivity|]. intros H.
    eapply mapEach_type_Err; [|exact E1]. apply Hdecl, H.
Qed.

Lemma forEach_fails {S A} (l : list A) (body : A -> M S unit) (x : A) :
  In x l -> (forall s, isOk (body x s) = false) ->
  forall s, isOk (forEach l body s) = false.
Proof.
  intros Hin Hx. induction l as [|y l IH]; [destruct Hin|].
  intros s. simpl. unfold bind.
  destruct Hin as [->|Hin].
  - specialize (Hx s). destruct (body x s) as [[? ?]|?]; [discriminate|reflexivity].
  - destruct (body y s) as [[? s1]|?]; [apply IH; assumption|reflexivity].
Qed.

Lemma run_ContractDefinition_fails (cont : ContractDefinition)
    (func : FunctionDefinition) (p : Pass) :
  In func (definedFunctions cont) ->
  length (returnParameters func) = 2 ->
  isOk (run_ContractDefinition cont p) = false.
Proof.
  intros Hin Hlen.
  assert (forall s, isOk (run_FunctionDefinition func s) = false) as Hfunc.
  { intros s.
    destruct (run_FunctionDefinition_two_results func s Hlen) as [e [-> _]].
    reflexivity. }
  unfold run_ContractDefinition.
  unfold bind at 1. cbn [get]. unfold bind at 1. cbn [modify].
  unfold bind at 1.
  match goal with |- context [forEach _ _ ?s] =>
    pose proof (forEach_fails (definedFunctions cont) run_FunctionDefinition
                  func Hin Hfunc s) as H end.
  destruct (forEach _ _ _) as [[? ?]|?]; [discriminate|reflexivity].
Qed.

(** C9: lowering a function with two declared result types throws
    UnimplementedFeature, in [run] on the function (its declared types
    being types of variables) as well as in [visit] on a return statement
    of such a function; a cast from a 32-bit integer type to an 8-bit
    integer type throws UnimplementedFeature; and the pass run on contracts
    that hold such a function ends in the exception: no module reaches the
    verifier or the job. *)
Theorem unsupported_shapes_fail_fast :
  (forall (func : FunctionDefinition) (p : Pass),
     length (returnParameters func) = 2 ->
     declaredTypesOk func = true ->
     exists msg, run_FunctionDefinition func p = Err (UnimplementedFeatureError msg)) /\
  (forall (func : FunctionDefinition) (expression : option Expression) (p : Pass),
     currFunc p = Some func ->
     length (returnParameters func) = 2 ->
     visit_Return expression p =
       Err (UnimplementedFeatureError "TODO: Impl multivalued return")) /\
  (forall (val : mlir.Value) (srcSigned dstSigned : bool) (p : Pass),
     genCast val (TIntegerType (mkIntegerType 32 srcSigned))
                 (TIntegerType (mkIntegerType 8 dstSigned)) p =
       Err (UnimplementedFeatureError ("Unhandled cast" +:+ newline))) /\
  (forall (verify doJob : list mlir.Operation -> bool)
          (contracts : list ContractDefinition)
          (cont : ContractDefinition) (func : FunctionDefinition),
     In cont contracts ->
     In func (definedFunctions cont) ->
     length (returnParameters func) = 2 ->
     isOk (runSolidityToMLIRPass verify doJob contracts) = false).
Proof.
  split; [|split; [|split]].
  - intros func p Hlen Hok.
    destruct (run_FunctionDefinition_two_results func p Hlen) as [e [-> He]].
    destruct (He Hok) as [msg ->]. eexists; reflexivity.
  - intros func expression p Hcur Hlen. unfold visit_Return, getCurrFunc.
    unfold bind at 1. unfold bind at 1. cbn [get]. rewrite Hcur. cbn [ret].
    unfold returnParameterTypes.
    destruct (returnParameters func) as [|d1 [|d2 [|d3 l]]]; try discriminate.
    reflexivity.
  - intros val s d p. unfold genCast.
    rewrite bool_decide_eq_false_2 by discriminate. reflexivity.
  - intros verify doJob contracts cont func Hc Hf Hlen.
    unfold runSolidityToMLIRPass.
    pose proof (forEach_fails contracts run_ContractDefinition cont Hc
                  (fun s => run_ContractDefinition_fails cont func s Hf Hlen) init) as H.
    destruct (forEach contracts run_ContractDefinition init) as [[? ?]|?];
      [discriminate|reflexivity].
Qed.

Lemma unsupported_shapes_fail_fast_witness :
  (exists msg, run_FunctionDefinition two_results_function init =
                 Err (UnimplementedFeatureError msg)) /\
  visit_Return None (mkPass (mlir.mkOpBuilder 0 mlir.emptyBlock) ∅
                       (Some two_results_function)) =
    Err (UnimplementedFeatureError "TODO: Impl multivalued return") /\
  isOk (runSolidityToMLIRPass (fun _ => true) (fun _ => true)
          [mkContractDefinition "C" [two_results_function]]) = false.
Proof.
  destruct unsupported_shapes_fail_fast as [H1 [H2 [_ H4]]].
  split; [|split].
  - apply H1; reflexivity.
  - apply (H2 two_results_function); reflexivity.
  - apply (H4 _ _ _ (mkContractDefinition "C" [two_results_function])
              two_results_function); [left; reflexivity | left; reflexivity | reflexivity].
Defined.

End GenProofs.

(** * Properties of the lowering pass *)

Module LoweringProofs.
Import mlir lowering semantics MonadFacts.

(** ** Names that end with a suffix *)

Lemma substring_all (s : string) : substring 0 (String.length s) s = s.
Proof. induction s as [|c s IH]; simpl; [reflexivity|]. now rewrite IH. Qed.

Lemma substring_append (pre s : string) :
  substring (String.length pre) (String.length s) (pre +:+ s) = s.
Proof. induction pre as [|c pre IH]; simpl; [apply substring_all|exact IH]. Qed.

Lemma length_append (pre s : string) :
  String.length (pre +:+ s) = String.length pre + String.length s.
Proof. induction pre as [|c pre IH]; simpl; [reflexivity|]. now rewrite IH. Qed.

Lemma substring_split (s : string) (n : nat) :
  n <= String.length s ->
  substring 0 n s +:+ substring n (String.length s - n) s = s.
Proof.
  revert n. induction s as [|c s IH]; intros n Hn; simpl in Hn.
  - assert (n = 0) as -> by lia. reflexivity.
  - destruct n as [|n]; simpl.
    + now rewrite substring_all.
    + change (String c (substring 0 n s) +:+ substring n (String.length s - n) s)
        with (String c (substring 0 n s +:+ substring n (String.length s - n) s)).
      f_equal. apply IH. lia.
Qed.

Lemma endswith_spec (s suffix : string) :
  endswith s suffix = true <-> exists pre, s = pre +:+ suffix.
Proof.
  unfold endswith. rewrite andb_true_iff, Nat.leb_le, String.eqb_eq. split.
  - intros [Hlen Hsub].
    exists (substring 0 (String.length s - String.length suffix) s).
    pose proof (substring_split s (String.length s - String.length suffix)
                  ltac:(lia)) as Hsplit.
    replace (String.length s - (String.length s - String.length suffix))
      with (String.length suffix) in Hsplit by lia.
    rewrite Hsub in Hsplit. symmetry. exact Hsplit.
  - intros [pre ->]. rewrite length_append. split; [lia|].
    replace (String.length pre + String.length suffix - String.length suffix)
      with (String.length pre) by lia.
    apply substring_append.
Qed.

(** ** Context classification *)







(** ** Running emitted operations *)

Lemma setValue_eq (env : Env) (v : Value) (z : Z) : setValue env v z v = Some z.
Proof. unfold setValue. now rewrite bool_decide_eq_true_2. Qed.

Lemma setValue_ne (env : Env) (v v' : Value) (z : Z) :
  v' <> v -> setValue env v z v' = env v'.
Proof. intros H. unfold setValue. now rewrite bool_decide_eq_false_2. Qed.

Ltac lookup :=
  repeat first
    [ rewrite setValue_eq
    | rewrite setValue_ne by (intros [=]; lia) ].

Lemma exec_pure (env env' : Env) (op : Operation) (ops : list Operation) :
  step env op = Some (env', []) -> exec env (op :: ops) = exec env' ops.
Proof.
  intros H. simpl. rewrite H. simpl.
  destruct (exec env' ops) as [[e evs]|]; reflexivity.
Qed.

Lemma exec_event (env : Env) (ev : Event) (op : Operation) (ops : list Operation) :
  step env op = Some (env, [ev]) ->
  exec env (op :: ops) =
    match exec env ops with
    | Some (env', evs) => Some (env', ev :: evs)
    | None => None
    end.
Proof.
  intros H. simpl. rewrite H. simpl.
  destruct (exec env ops) as [[e evs]|]; reflexivity.
Qed.

Lemma step_constant (env : Env) (res : Value) (ty : Type_) (numBits : N) (value : Z) :
  step env (arith_ConstantOp res (IntegerAttr ty numBits value)) =
    Some (setValue env res (wrap (Z.of_N numBits) value), []).
Proof. reflexivity. Qed.

Lemma binop_spec (f : Z -> Z -> Z) (env : Env) (res lhs rhs : Value) (w a b : Z) :
  widthOf res = Some w -> env lhs = Some a -> env rhs = Some b ->
  binop f env res lhs rhs = Some (setValue env res (wrap w (f a b)), []).
Proof. intros Hw Ha Hb. unfold binop. rewrite Hw, Ha, Hb. reflexivity. Qed.

Lemma step_lshr (env : Env) (res lhs rhs : Value) (w a b : Z) :
  widthOf res = Some w -> env lhs = Some a -> env rhs = Some b ->
  (b <? w)%Z = true ->
  step env (LLVM_LShrOp res lhs rhs) = Some (setValue env res (Z.shiftr a b), []).
Proof. intros Hw Ha Hb Hlt. simpl. rewrite Hw, Ha, Hb. simpl. now rewrite Hlt. Qed.

Lemma step_ptrtoint (env : Env) (res arg : Value) (w a : Z) :
  widthOf res = Some w -> env arg = Some a ->
  step env (LLVM_PtrToIntOp res arg) = Some (setValue env res (wrap w a), []).
Proof. intros Hw Ha. simpl. rewrite Hw, Ha. reflexivity. Qed.

Lemma step_inttoptr (env : Env) (res arg : Value) (a : Z) :
  env arg = Some a ->
  step env (LLVM_IntToPtrOp res arg) = Some (setValue env res a, []).
Proof. intros Ha. simpl. rewrite Ha. reflexivity. Qed.

Lemma step_store (env : Env) (value addr : Value) (alignment : option N)
    (addrSpace : N) (v a : Z) :
  addrSpaceOf addr = Some addrSpace -> env value = Some v -> env addr = Some a ->
  step env (LLVM_StoreOp value addr alignment) = Some (env, [EvStore addrSpace a v]).
Proof. intros Hs Hv Ha. simpl. rewrite Hs, Hv, Ha. reflexivity. Qed.

Lemma step_call3 (env : Env) (callee : string) (results : list Type_)
    (x y z : Value) (a b c : Z) :
  env x = Some a -> env y = Some b -> env z = Some c ->
  step env (func_CallOp callee results [x; y; z]) =
    Some (env, [EvCall callee [a; b; c]]).
Proof. intros Hx Hy Hz. simpl. rewrite Hx, Hy, Hz. reflexivity. Qed.

Ltac side := first [ reflexivity | eassumption | lookup; first [reflexivity | eassumption] ].

Ltac exec_one :=
  first
    [ erewrite exec_pure by apply step_constant
    | erewrite exec_pure by (eapply step_ptrtoint; side)
    | erewrite exec_pure by (eapply step_inttoptr; side)
    | erewrite exec_pure by (eapply step_lshr; side)
    | erewrite exec_pure by (eapply binop_spec; side)
    | erewrite exec_event by (eapply step_store; side)
    | erewrite exec_event by (eapply step_call3; side)
    | erewrite exec_event by reflexivity ].

(** ** The length field of the ABI pointer *)

(** Shifting right by 96 and masking with [UINT_MAX] reads the field that
    [setABILen] wrote, whatever the other bits of the pointer. *)
Lemma ABILen_decode (ptr len : Z) :
  (0 <= len < 2 ^ 32)%Z ->
  wrap 256 (Z.land (Z.shiftr (wrap 256 (setABILen ptr len)) 96)
                   (wrap 256 eravm.UINT_MAX)) = len.
Proof.
  intros Hlen. unfold wrap, eravm.UINT_MAX, setABILen, ABILenOffset.
  change (2 ^ 32 - 1)%Z with (Z.ones 32).
  rewrite (Z.mod_small (Z.ones 32)) by (cbv; split; [discriminate|reflexivity]).
  rewrite Z.land_ones by lia.
  assert (forall x, (0 <= x mod 2 ^ 32 < 2 ^ 256)%Z) as Hsmall.
  { intros x. pose proof (Z.mod_pos_bound x (2 ^ 32) ltac:(lia)).
    assert (2 ^ 32 < 2 ^ 256)%Z by (apply Z.pow_lt_mono_r; lia). lia. }
  rewrite Z.mod_small by apply Hsmall.
  apply Z.bits_inj'. intros n Hn.
  destruct (Z.lt_ge_cases n 32) as [Hlt|Hge].
  - rewrite Z.mod_pow2_bits_low by lia.
    rewrite Z.shiftr_spec by lia.
    rewrite Z.mod_pow2_bits_low by lia.
    rewrite Z.lor_spec, Z.land_spec, Z.lnot_spec by lia.
    rewrite !Z.shiftl_spec by lia.
    replace (n + 96 - 3 * 32)%Z with n by lia.
    rewrite Z.ones_spec_low by lia. simpl. now rewrite andb_false_r.
  - rewrite Z.mod_pow2_bits_high by lia.
    symmetry. destruct (Z.eq_dec len 0%Z) as [->|Hne]; [apply Z.bits_0|].
    apply Z.bits_above_log2; [lia|].
    assert (Z.log2 len < 32)%Z by (apply Z.log2_lt_pow2; lia). lia.
Qed.

(** What [getABILen] appends to the block. *)
Lemma getABILen_emits (ptr : Value) (n : nat) (args : list Value)
    (ops body er : list Operation) :
  getABILen ptr (mkRewriter (mkOpBuilder n (mkBlock args ops)) body er) =
    Ok (OpResult (4 + n) i256Ty,
        mkRewriter
          (mkOpBuilder (5 + n)
             (mkBlock args
                (ops ++
                 [LLVM_PtrToIntOp (OpResult n i256Ty) ptr;
                  arith_ConstantOp (OpResult (1 + n) i256Ty)
                    (IntegerAttr i256Ty 256 (eravm.BitLen_X32 * 3));
                  LLVM_LShrOp (OpResult (2 + n) i256Ty) (OpResult n i256Ty)
                    (OpResult (1 + n) i256Ty);
                  arith_ConstantOp (OpResult (3 + n) i256Ty)
                    (IntegerAttr i256Ty 256 eravm.UINT_MAX);
                  LLVM_AndOp (OpResult (4 + n) i256Ty) (OpResult (2 + n) i256Ty)
                    (OpResult (3 + n) i256Ty)])))
          body er).
Proof. cbv -[app]. rewrite <- !app_assoc. reflexivity. Qed.

(** C3: the operations [getABILen] emits for a pointer, run on a pointer
    value whose length field holds L, give L: the field written at bit
    offset 3 * 32 is what the right shift by 96 and the mask to the low 32
    bits read, for every L below 2^32. *)
Theorem getABILen_roundtrip
    (ptr : Value) (ptrValue L : Z) (env : Env) (r : Rewriter) :
  (0 <= L < 2 ^ 32)%Z ->
  env ptr = Some (setABILen ptrValue L) ->
  exists (len : Value) (r' : Rewriter) (new : list Operation) (env' : Env),
    getABILen ptr r = Ok (len, r') /\
    operations (block (builder r')) = operations (block (builder r)) ++ new /\
    exec env new = Some (env', []) /\
    env' len = Some L.
Proof.
  intros HL Hptr.
  destruct r as [[n [args ops]] body er].
  eexists _, _, _, _. split; [apply getABILen_emits|].
  split; [reflexivity|].
  do 5 exec_one. split; [reflexivity|].
  lookup. f_equal. apply (ABILen_decode ptrValue L HL).
Qed.

Lemma getABILen_roundtrip_witness :
  exists (len : Value) (r' : Rewriter) (new : list Operation) (env' : Env),
    getABILen (BlockArgument 0 (LLVMPointerType 3)) samples.emptyRewriter =
      Ok (len, r') /\
    operations (block (builder r')) = [] ++ new /\
    exec (setValue emptyEnv (BlockArgument 0 (LLVMPointerType 3))
            (setABILen 0 68)) new = Some (env', []) /\
    env' len = Some 68%Z.
Proof.
  apply (getABILen_roundtrip (BlockArgument 0 (LLVMPointerType 3)) 0 68
           (setValue emptyEnv (BlockArgument 0 (LLVMPointerType 3)) (setABILen 0 68))
           samples.emptyRewriter).
  - lia.
  - reflexivity.
Defined.

(** ** Return lowering *)

Lemma lookupSymbol_name (name : string) (body : list Operation) (op : Operation) :
  lookupSymbol name body = Some op -> getSymName op = Some name.
Proof.
  induction body as [|o body IH]; simpl; [discriminate|].
  destruct (bool_decide (getSymName o = Some name)) eqn:E.
  - intros [= <-]. now apply bool_decide_eq_true in E.
  - exact IH.
Qed.

(** The declaration of the return function touches the module body only and
    leaves the function declared. *)
Lemma getOrInsertReturn_spec (bld : OpBuilder) (body er : list Operation) :
  exists body' fn,
    getOrInsertReturn (mkRewriter bld body er) =
      Ok ("__return", mkRewriter bld body' er) /\
    lookupSymbol "__return" body' = Some fn /\
    isaLLVMFuncOp fn = true.
Proof.
  unfold getOrInsertReturn, getOrInsertLLVMFuncSym, getOrInsertLLVMFuncOp.
  unfold bind at 1. unfold bind at 1. cbn [get moduleBody].
  destruct (lookupSymbol "__return" body) as [found|] eqn:E.
  - destruct found;
      try (eexists (_ :: body), _; split; [reflexivity|]; split; reflexivity).
    eexists body, _. split; [reflexivity|]. split; [exact E|reflexivity].
  - eexists (_ :: body), _. split; [reflexivity|]. split; reflexivity.
Qed.

(** C2: the lowering of a return operation in the creation context (for
    every offset and length operand, the literal 0 and 0 among them).  The
    operations put in its place, run in order, store the field width 32 at
    the auxiliary heap offset 256, store the immutables count 0 at offset
    256 + 32, call the return function with the base offset 256, the length
    0 * 2 + 2 * 32 = 64 and the mode 2 (use the auxiliary heap), and reach
    the unreachable terminator; the return operation itself is erased. *)
Theorem creation_return_lowering
    (lhs rhs : Value) (parents : list Operation) (r : Rewriter) (env : Env) :
  inRuntimeContext (sol_ReturnOp lhs rhs) parents = Ok false ->
  exists (r' : Rewriter) (new : list Operation) (env' : Env),
    ReturnOpLowering_matchAndRewrite (sol_ReturnOp lhs rhs) parents r = Ok (tt, r') /\
    operations (block (builder r')) = operations (block (builder r)) ++ new /\
    exec env new =
      Some (env', [EvStore 2 256 32; EvStore 2 288 0;
                   EvCall "__return" [256; 64; 2]%Z; EvUnreachable]) /\
    erased r' = erased r ++ [sol_ReturnOp lhs rhs] /\
    (exists fn, lookupSymbol "__return" (moduleBody r') = Some fn /\
                isaLLVMFuncOp fn = true).
Proof.
  intros Hctx. destruct r as [[n [args ops]] body er].
  destruct (getOrInsertReturn_spec (mkOpBuilder n (mkBlock args ops)) body er)
    as (body' & fn & Hret & Hfn & Hisa).
  unfold ReturnOpLowering_matchAndRewrite.
  rewrite (bind_Ok _ _ _ _ _ Hret).
  unfold bind at 1. unfold lift at 1. rewrite Hctx. cbv iota beta.
  eexists _, _, _. split; [cbv -[app]; reflexivity|].
  cbn [builder block operations erased moduleBody].
  split; [rewrite <- !app_assoc; reflexivity|]. cbn [app].
  split.
  { do 17 exec_one. reflexivity. }
  split; [reflexivity|].
  exists fn. split; assumption.
Qed.

Lemma creation_return_lowering_witness :
  exists (r' : Rewriter) (new : list Operation) (env' : Env),
    ReturnOpLowering_matchAndRewrite
      (sol_ReturnOp (OpResult 0 i256Ty) (OpResult 1 i256Ty))
      [samples.deployFunc] samples.returnRewriter = Ok (tt, r') /\
    operations (block (builder r')) =
      operations (block (builder samples.returnRewriter)) ++ new /\
    exec emptyEnv new =
      Some (env', [EvStore 2 256 32; EvStore 2 288 0;
                   EvCall "__return" [256; 64; 2]%Z; EvUnreachable]) /\
    erased r' = [] ++ [sol_ReturnOp (OpResult 0 i256Ty) (OpResult 1 i256Ty)] /\
    (exists fn, lookupSymbol "__return" (moduleBody r') = Some fn /\
                isaLLVMFuncOp fn = true).
Proof.
  apply (creation_return_lowering (OpResult 0 i256Ty) (OpResult 1 i256Ty)
           [samples.deployFunc] samples.returnRewriter emptyEnv).
  reflexivity.
Defined.

End LoweringProofs.

(** * The entry function *)

Module EntryProofs.
Import mlir lowering MonadFacts.

Lemma hasGlobal_cons (name other : string) (body : list Operation)
    ty alignment addrSpace linkage value :
  hasGlobal other body ->
  hasGlobal other (LLVM_GlobalOp name ty alignment addrSpace linkage value :: body).
Proof.
  intros H. unfold hasGlobal. simpl.
  destruct (bool_decide (Some name = Some other)) eqn:E; [|exact H].
  apply bool_decide_eq_true in E. injection E as ->.
  do 5 eexists. reflexivity.
Qed.

(** Looking a global up or inserting it leaves the builder alone, returns a
    global of the asked name, and keeps the globals the module has. *)
Lemma getOrInsertGlobalOp_spec (name : string) ty alignment addrSpace linkage attr
    (bld : OpBuilder) (body er : list Operation) :
  exists ty' alignment' addrSpace' linkage' value' body',
    getOrInsertGlobalOp name ty alignment addrSpace linkage attr
      (mkRewriter bld body er) =
      Ok (LLVM_GlobalOp name ty' alignment' addrSpace' linkage' value',
          mkRewriter bld body' er) /\
    hasGlobal name body' /\
    (forall other, hasGlobal other body -> hasGlobal other body').
Proof.
  unfold getOrInsertGlobalOp. unfold bind at 1. cbn [get moduleBody].
  destruct (lookupSymbol name body) as [found|] eqn:E.
  - destruct found;
      try (do 5 eexists; eexists (_ :: body);
           split; [reflexivity|]; split;
           [ unfold hasGlobal; simpl; rewrite bool_decide_eq_true_2 by reflexivity;
             do 5 eexists; reflexivity
           | intros other; apply hasGlobal_cons ]).
    pose proof (LoweringProofs.lookupSymbol_name _ _ _ E) as Hn. simpl in Hn.
    injection Hn as ->.
    do 5 eexists. exists body. split; [reflexivity|]. split; [|auto].
    do 5 eexists. exact E.
  - do 5 eexists. eexists (_ :: body).
    split; [reflexivity|]. split.
    + unfold hasGlobal. simpl. rewrite bool_decide_eq_true_2 by reflexivity.
      do 5 eexists. reflexivity.
    + intros other. apply hasGlobal_cons.
Qed.

Lemma getGlobalOp_spec (name : string) (bld : OpBuilder) (body er : list Operation) :
  hasGlobal name body ->
  exists ty alignment addrSpace linkage value,
    getGlobalOp name (mkRewriter bld body er) =
      Ok (LLVM_GlobalOp name ty alignment addrSpace linkage value,
          mkRewriter bld body er) /\
    lookupSymbol name body =
      Some (LLVM_GlobalOp name ty alignment addrSpace linkage value).
Proof.
  intros (ty & al & asp & lk & v & H). exists ty, al, asp, lk, v.
  split; [|exact H].
  unfold getGlobalOp. unfold bind. cbn [get moduleBody]. rewrite H. reflexivity.
Qed.

Lemma getDefiningOp_at (val : Value) (ops : list Operation) (i : nat) (op : Operation) :
  ops !! i = Some op ->
  getResult op = Some val ->
  Forall (fun o => getResult o <> Some val) (take i ops) ->
  getDefiningOp val ops = Some op.
Proof.
  revert i. induction ops as [|o ops IH]; intros i Hi Hres Hpre; [discriminate|].
  destruct i as [|i]; simpl in *.
  - injection Hi as ->. now rewrite bool_decide_eq_true_2.
  - inversion Hpre as [|? ? Ho Hrest]; subst.
    rewrite bool_decide_eq_false_2 by exact Ho. eapply IH; eassumption.
Qed.

(** [genLoad] of the address of a global of the module. *)
Lemma genLoad_spec (addr : Value) (name : string) (i k : nat) (args : list Value)
    (ops body er : list Operation) ty alignment addrSpace linkage value :
  ops !! i = Some (LLVM_AddressOfOp addr name) ->
  Forall (fun o => getResult o <> Some addr) (take i ops) ->
  lookupSymbol name body =
    Some (LLVM_GlobalOp name ty alignment addrSpace linkage value) ->
  exists al,
    genLoad addr (mkRewriter (mkOpBuilder k (mkBlock args ops)) body er) =
      Ok (OpResult k ty,
          mkRewriter
            (mkOpBuilder (Datatypes.S k)
               (mkBlock args (ops ++ [LLVM_LoadOp (OpResult k ty) addr al])))
            body er).
Proof.
  intros Hi Hpre Hglob. unfold genLoad. unfold bind.
  cbn [get builder block operations moduleBody].
  rewrite (getDefiningOp_at addr ops i _ Hi eq_refl Hpre), Hglob.
  eexists. reflexivity.
Qed.

(** The loop over the body of the outer object: each nested runtime object
    is moved under the runtime function and erased, the builder being left
    alone; a nested object that is not a runtime object stops the loop. *)
Lemma nested_objects_spec (runtimeFunc : Operation) (name : string) :
  getSymName runtimeFunc = Some name ->
  forall (objBody : list Operation) (bld : OpBuilder) (body er : list Operation),
  let loop :=
    forEach objBody
      (fun nested =>
         match nested with
         | sol_ObjectOp runtimeName runtimeBody =>
             bind (assert (endswith runtimeName "_deployed")
                     "assert(runtimeObj.getSymName().endswith(_deployed))")
               (fun _ => bind (inlineRegionBefore (getRegion runtimeBody) runtimeFunc)
                           (fun _ => eraseOp nested))
         | _ => ret tt
         end) (mkRewriter bld body er) in
  if forallb nestedDeployed objBody
  then exists body',
         loop = Ok (tt, mkRewriter bld body' (er ++ List.filter isaObjectOp objBody))
  else exists e, loop = Err e.
Proof.
  intros Hname objBody. induction objBody as [|op objBody IH]; intros bld body er.
  - exists body. cbn [List.filter]. rewrite app_nil_r. reflexivity.
  - cbn [forallb forEach].
    destruct op;
      try (cbn [nestedDeployed andb]; unfold bind at 1;
           cbn [ret List.filter isaObjectOp]; apply IH).
    cbn [nestedDeployed].
    destruct (endswith sym_name "_deployed") eqn:Hop; cbn [andb].
    + specialize (IH bld (inlineInto name (getRegion body0) body)
                     (er ++ [sol_ObjectOp sym_name body0])).
      cbv zeta in IH.
      rewrite (bind_Ok _ _ _ tt
                 (mkRewriter bld (inlineInto name (getRegion body0) body)
                    (er ++ [sol_ObjectOp sym_name body0]))).
      * destruct (forallb nestedDeployed objBody).
        -- destruct IH as [body' Hloop]. exists body'. rewrite Hloop.
           cbn [List.filter isaObjectOp]. rewrite <- app_assoc. reflexivity.
        -- exact IH.
      * unfold bind, assert, inlineRegionBefore. rewrite Hname. reflexivity.
    + eexists. reflexivity.
Qed.

Lemma getOrInsertLLVMFuncOp_spec (name : string) resTy argTys linkage attrs
    (bld : OpBuilder) (body er : list Operation) :
  exists resTy' argTys' linkage' attrs' blocks' body',
    getOrInsertLLVMFuncOp name resTy argTys linkage attrs (mkRewriter bld body er) =
      Ok (LLVM_LLVMFuncOp name resTy' argTys' linkage' attrs' blocks',
          mkRewriter bld body' er).
Proof.
  unfold getOrInsertLLVMFuncOp. unfold bind at 1. cbn [get moduleBody].
  destruct (lookupSymbol name body) as [found|] eqn:E.
  - destruct found;
      try (do 5 eexists; eexists (_ :: body); reflexivity).
    pose proof (LoweringProofs.lookupSymbol_name _ _ _ E) as Hn. simpl in Hn.
    injection Hn as ->.
    do 5 eexists. exists body. reflexivity.
  - do 5 eexists. eexists (_ :: body). reflexivity.
Qed.

Ltac assoc :=
  repeat lazymatch goal with
         | |- outcome (bind (bind _ _) _ _) _ _ => apply outcome_assoc
         end.

Ltac run_with H :=
  eapply outcome_bind; [ exact H | cbv beta ].

Ltac run_builder :=
  assoc;
  eapply outcome_bind;
  [ cbv -[lookupSymbol inlineInto List.filter]; reflexivity
  | cbv beta ].

Ltac run_getOrInsertGlobal :=
  assoc;
  unfold getOrInsertIntGlobalOp, getOrInsertPtrGlobalOp;
  lazymatch goal with
  | |- outcome (bind (getOrInsertGlobalOp ?name ?ty ?al ?asp ?lk ?attr) _
                  (mkRewriter ?bld ?body ?er)) _ _ =>
      let Hrun := fresh "Hrun" in
      let Hhas := fresh "Hhas" in
      let Hpres := fresh "Hpres" in
      destruct (getOrInsertGlobalOp_spec name ty al asp lk attr bld body er)
        as (? & ? & ? & ? & ? & ? & Hrun & Hhas & Hpres);
      run_with Hrun; clear Hrun
  end.

Ltac run_getGlobal :=
  assoc;
  lazymatch goal with
  | |- outcome (bind (getGlobalOp ?name) _ (mkRewriter ?bld ?body ?er)) _ _ =>
      let Hrun := fresh "Hrun" in
      let Hlook := fresh "Hlook" in
      let H := fresh in
      assert (hasGlobal name body) as H by eauto 20;
      destruct (getGlobalOp_spec name bld body er H)
        as (? & ? & ? & ? & ? & Hrun & Hlook);
      clear H; run_with Hrun; clear Hrun
  end.

Ltac run_getOrInsertFunc :=
  assoc;
  unfold getOrInsertRuntimeFuncOp, getOrInsertCreationFuncOp;
  lazymatch goal with
  | |- outcome (bind (getOrInsertLLVMFuncOp ?name ?resTy ?argTys ?lk ?attrs) _
                  (mkRewriter ?bld ?body ?er)) _ _ =>
      let Hrun := fresh "Hrun" in
      let F := fresh "func" in
      destruct (getOrInsertLLVMFuncOp_spec name resTy argTys lk attrs bld body er)
        as (? & ? & ? & ? & ? & ? & Hrun);
      lazymatch type of Hrun with _ = Ok (?fn, _) => pose (F := fn) end;
      run_with Hrun; clear Hrun
  end.

Ltac initInt := run_getOrInsertGlobal; do 3 run_builder.

Ltac run_genLoad i :=
  assoc;
  lazymatch goal with
  | Hl : lookupSymbol ?name ?body = Some (LLVM_GlobalOp ?name ?ty ?al ?asp ?lk ?v)
    |- outcome (bind (genLoad ?addr) _
                  (mkRewriter (mkOpBuilder ?k (mkBlock ?args ?ops)) ?body ?er)) _ _ =>
      let Hpre := fresh in
      let Hload := fresh in
      assert (Forall (fun o => getResult o <> Some addr) (take i ops)) as Hpre
        by (cbn [take]; repeat constructor; cbn [getResult]; intros [=]; lia);
      destruct (genLoad_spec addr name i k args ops body er ty al asp lk v
                  eq_refl Hpre Hl) as [? Hload];
      clear Hpre; run_with Hload; clear Hload; cbn [app]
  end.

Ltac run_nested_objects :=
  assoc;
  lazymatch goal with
  | F := ?fn
    |- outcome (bind (forEach ?objBody _) _ (mkRewriter ?bld ?body ?er)) _ _ =>
      let Hloop := fresh in
      let Hnested := fresh "Hnested" in
      pose proof (nested_objects_spec fn _ eq_refl objBody bld body er) as Hloop;
      cbv zeta in Hloop;
      destruct (forallb nestedDeployed objBody) eqn:Hnested;
      [ destruct Hloop as (? & Hloop); run_with Hloop; clear Hloop
      | destruct Hloop as (? & Hloop);
        exact (outcome_bind_Err _ _ _ _ _ _ Hloop eq_refl) ]
  end.

(** The rewrite of an outer object stops if an object nested in it is not a
    runtime object; otherwise it returns, and the function it has put at the
    end of the module body is the entry function, with the generic pointer
    and eleven words as inputs and as arguments of its block. *)
Lemma ObjectOpLowering_entry (symName : string) (objBody : list Operation)
    (r : Rewriter) :
  endswith symName "_deployed" = false ->
  outcome (ObjectOpLowering_matchAndRewrite (sol_ObjectOp symName objBody) r)
    (fun _ r' =>
       forallb nestedDeployed objBody = true /\
       entryInputs (moduleBody r') =
         Some (LLVMPointerType 3 :: replicate 11 (IntegerType 256)) /\
       (exists ops,
          entryBlock (moduleBody r') =
            Some (mkBlock
                    (BlockArgument 0 (LLVMPointerType 3) ::
                     map (fun i => BlockArgument i (IntegerType 256)) (seq 1 11))
                    ops) /\
          (exists addr,
             In (LLVM_StoreOp (BlockArgument 0 (LLVMPointerType 3)) addr (Some 32%N)) ops /\
             In (LLVM_AddressOfOp addr eravm.GlobCallDataPtr) ops) /\
          (exists addr,
             In (LLVM_StoreOp (BlockArgument 1 (IntegerType 256)) addr (Some 32%N)) ops /\
             In (LLVM_AddressOfOp addr eravm.GlobCallFlags) ops) /\
          Forall (fun i => exists gep elemType base zero index,
                    In (LLVM_StoreOp (BlockArgument i (IntegerType 256)) gep (Some 32%N)) ops /\
                    In (LLVM_GEPOp gep elemType base [zero; index]) ops /\
                    In (arith_ConstantOp index
                          (IntegerAttr (IntegerType 256) 256 (Z.of_nat i))) ops /\
                    In (LLVM_AddressOfOp base eravm.GlobExtraABIData) ops)
                 (seq 2 10) /\
          (exists addr ptrToInt shift lShr mask len size,
             In (LLVM_AddressOfOp addr eravm.GlobCallDataPtr) ops /\
             In (LLVM_PtrToIntOp ptrToInt addr) ops /\
             In (LLVM_LShrOp lShr ptrToInt shift) ops /\
             In (LLVM_AndOp len lShr mask) ops /\
             In (LLVM_StoreOp len size (Some 32%N)) ops /\
             In (LLVM_AddressOfOp size eravm.GlobCallDataSize) ops)) /\
       erased r' =
         erased r ++ List.filter isaObjectOp objBody ++ [sol_ObjectOp symName objBody])
    (forallb nestedDeployed objBody = false).
Proof.
  intros Hname. destruct r as [[n [args0 ops0]] body er].
  unfold ObjectOpLowering_matchAndRewrite. rewrite Hname.
  run_builder. run_builder.
  unfold initGlobs. cbv zeta.
  do 5 initInt.
  run_getOrInsertGlobal. do 3 run_builder.
  (* getABILen *) run_builder.
  run_getGlobal. do 2 run_builder.
  run_genLoad 22.
  do 2 run_builder.
  run_getOrInsertGlobal. do 2 run_builder.
  run_getOrInsertGlobal. do 2 run_builder.
  run_getGlobal. do 3 run_builder.
  run_getGlobal. do 2 run_builder.
  (* the loop over the extra ABI data arguments *) run_builder.
  do 5 run_builder.
  run_getOrInsertFunc.
  run_nested_objects.
  run_getOrInsertFunc.
  do 3 run_builder.
  eapply outcome_bind; [reflexivity|]. cbv beta.
  unfold outcome, modify.
  cbn [moduleBody erased withModule builder block].
  unfold entryInputs, entryBlock. rewrite last_snoc.
  split; [reflexivity|].
  split; [reflexivity|]. split; [|rewrite app_assoc; reflexivity].
  eexists. split; [reflexivity|].
  split; [|split; [|split]].
  - eexists. split; cbn [In]; repeat first [left; reflexivity | right].
  - eexists. split; cbn [In]; repeat first [left; reflexivity | right].
  - repeat constructor;
      (do 5 eexists; repeat split; cbn [In];
       repeat first [left; reflexivity | right]).
  - do 7 eexists. repeat split; cbn [In];
      repeat first [left; reflexivity | right].
Qed.

(** C1, as amended: for every lowering of an outer object (one whose name
    does not end with _deployed), in any module, the entry function the
    rewrite has put in the module when it returns has exactly 12 parameters:
    one pointer of the generic address space, which is the call-data-ABI
    argument (the argument stored to the calldata pointer global), followed
    by 11 word typed parameters: the call-flags argument (stored to the
    call flags global) and the 10 extra-ABI-data arguments.  The rewrite
    returns whenever the objects nested in the outer object are runtime
    objects. *)
Theorem entry_function_parameters
    (symName : string) (objBody : list Operation) (r : Rewriter) :
  endswith symName "_deployed" = false ->
  let genericPtrTy := LLVMPointerType (eravm.AddrSpace_value eravm.AddrSpace_Generic) in
  let lowered := ObjectOpLowering_matchAndRewrite (sol_ObjectOp symName objBody) r in
  (forall r' : Rewriter,
     lowered = Ok (tt, r') ->
     entryInputs (moduleBody r') = Some (genericPtrTy :: replicate 11 i256Ty) /\
     length (genericPtrTy :: replicate 11 i256Ty) = 12 /\
     exists ops : list Operation,
       entryBlock (moduleBody r') =
         Some (mkBlock (BlockArgument 0 genericPtrTy ::
                        map (fun i => BlockArgument i i256Ty) (seq 1 11)) ops) /\
       (exists addr,
          In (LLVM_StoreOp (BlockArgument eravm.ArgIndexCallDataABI genericPtrTy)
                addr (Some 32%N)) ops /\
          In (LLVM_AddressOfOp addr eravm.GlobCallDataPtr) ops) /\
       (exists addr,
          In (LLVM_StoreOp (BlockArgument eravm.ArgIndexCallFlags i256Ty)
                addr (Some 32%N)) ops /\
          In (LLVM_AddressOfOp addr eravm.GlobCallFlags) ops) /\
       Forall (fun i => exists addr,
                 In (LLVM_StoreOp (BlockArgument i i256Ty) addr (Some 32%N)) ops)
              (seq eravm.MandatoryArgCnt 10)) /\
  (forallb nestedDeployed objBody = true -> exists r', lowered = Ok (tt, r')).
Proof.
  intros Hname genericPtrTy lowered.
  pose proof (ObjectOpLowering_entry symName objBody r Hname) as H.
  fold lowered in H. unfold outcome in H.
  destruct lowered as [[[] r1]|e].
  - destruct H as (_ & Hinputs & (ops & Hblock & Hptr & Hflags & Hextra & _) & _).
    split; [|intros _; exists r1; reflexivity].
    intros r' [= <-]. split; [exact Hinputs|]. split; [reflexivity|].
    exists ops. split; [exact Hblock|].
    split; [exact Hptr|]. split; [exact Hflags|].
    eapply Forall_impl; [exact Hextra|].
    intros i (gep & _ & _ & _ & _ & Hstore & _). exists gep. exact Hstore.
  - split; [discriminate|]. intros Hnested. congruence.
Qed.

Lemma entry_function_parameters_witness :
  exists (r' : Rewriter) (ops : list Operation),
    ObjectOpLowering_matchAndRewrite samples.Foo samples.emptyRewriter = Ok (tt, r') /\
    entryInputs (moduleBody r') = Some (LLVMPointerType 3 :: replicate 11 i256Ty) /\
    length (LLVMPointerType 3 :: replicate 11 i256Ty) = 12 /\
    entryBlock (moduleBody r') =
      Some (mkBlock (BlockArgument 0 (LLVMPointerType 3) ::
                     map (fun i => BlockArgument i i256Ty) (seq 1 11)) ops).
Proof.
  destruct (entry_function_parameters "Foo" [sol_ObjectOp "Foo_deployed" []]
              samples.emptyRewriter eq_refl) as [Hshape Hreturns].
  destruct (Hreturns eq_refl) as [r' Hrun].
  destruct (Hshape r' Hrun) as (Hinputs & Hlen & ops & Hblock & _).
  exists r', ops. repeat split; assumption.
Defined.

(** C1 with 13 parameters fails on [Foo]: the entry function and its block
    have 12 parameters, the generic pointer and 11 words. *)
Lemma entry_function_not_13_parameters :
  exists (r' : Rewriter) (inputs : list Type_) (blk : Block),
    ObjectOpLowering_matchAndRewrite samples.Foo samples.emptyRewriter = Ok (tt, r') /\
    entryInputs (moduleBody r') = Some inputs /\
    entryBlock (moduleBody r') = Some blk /\
    length inputs = 12 /\ length (arguments blk) = 12 /\
    length inputs <> 13 /\
    inputs <> LLVMPointerType 3 :: replicate 12 i256Ty.
Proof.
  eexists _, _, _. split; [vm_compute; reflexivity|].
  split; [vm_compute; reflexivity|]. split; [vm_compute; reflexivity|].
  split; [reflexivity|]. split; [reflexivity|].
  split; [vm_compute; discriminate|]. vm_compute. discriminate.
Qed.

(** In every module and for every outer object, the length stored to the
    calldata size global is decoded from the address of the calldata pointer
    global. *)
Lemma calldata_size_source (symName : string) (objBody : list Operation)
    (r r' : Rewriter) :
  endswith symName "_deployed" = false ->
  ObjectOpLowering_matchAndRewrite (sol_ObjectOp symName objBody) r = Ok (tt, r') ->
  exists args ops addr ptrToInt shift lShr mask len size,
    entryBlock (moduleBody r') = Some (mkBlock args ops) /\
    In (LLVM_AddressOfOp addr eravm.GlobCallDataPtr) ops /\
    In (LLVM_PtrToIntOp ptrToInt addr) ops /\
    In (LLVM_LShrOp lShr ptrToInt shift) ops /\
    In (LLVM_AndOp len lShr mask) ops /\
    In (LLVM_StoreOp len size (Some 32%N)) ops /\
    In (LLVM_AddressOfOp size eravm.GlobCallDataSize) ops.
Proof.
  intros Hname Hrun.
  pose proof (ObjectOpLowering_entry symName objBody r Hname) as H.
  rewrite Hrun in H. unfold outcome in H.
  destruct H as (_ & _ & (ops & Hblock & _ & _ & _ & Hsize) & _).
  destruct Hsize as (addr & ptrToInt & shift & lShr & mask & len & size & Hsize).
  eexists _, ops, addr, ptrToInt, shift, lShr, mask, len, size.
  split; [exact Hblock|exact Hsize].
Qed.

(** In every module and for every outer object, the entry argument at
    position i, from 2 to 11, is stored to the element of the extra ABI data
    array whose index is the constant i. *)
Lemma extra_abi_data_index (symName : string) (objBody : list Operation)
    (r r' : Rewriter) :
  endswith symName "_deployed" = false ->
  ObjectOpLowering_matchAndRewrite (sol_ObjectOp symName objBody) r = Ok (tt, r') ->
  exists args ops,
    entryBlock (moduleBody r') = Some (mkBlock args ops) /\
    Forall (fun i => exists gep elemType base zero index,
              In (LLVM_StoreOp (BlockArgument i i256Ty) gep (Some 32%N)) ops /\
              In (LLVM_GEPOp gep elemType base [zero; index]) ops /\
              In (arith_ConstantOp index (IntegerAttr i256Ty 256 (Z.of_nat i))) ops /\
              In (LLVM_AddressOfOp base eravm.GlobExtraABIData) ops)
           (seq 2 10).
Proof.
  intros Hname Hrun.
  pose proof (ObjectOpLowering_entry symName objBody r Hname) as H.
  rewrite Hrun in H. unfold outcome in H.
  destruct H as (_ & _ & (ops & Hblock & _ & _ & Hextra & _) & _).
  eexists _, ops. split; [exact Hblock|exact Hextra].
Qed.

(** C4, on [Foo]: two values are stored to the calldata size global, the
    initial zero and the decoded length.  The pointer that length is
    decoded from (converted to an integer, shifted, masked) is the result
    of the address-of operation on the calldata pointer global, that is the
    address of the global; the ABI pointer argument, block argument 0, is
    the value stored into that global and is not what is decoded. *)
Theorem calldata_size_decoded_from_global_address :
  storesTo eravm.GlobCallDataSize samples.FooEntryOps =
    [OpResult 3 i256Ty; OpResult 15 i256Ty] /\
  constantOf samples.FooEntryOps (OpResult 3 i256Ty) = Some 0%Z /\
  ABILenSource samples.FooEntryOps (OpResult 15 i256Ty) =
    Some (OpResult 10 (LLVMPointerType 3)) /\
  addressOf samples.FooEntryOps (OpResult 10 (LLVMPointerType 3)) =
    Some eravm.GlobCallDataPtr /\
  storesTo eravm.GlobCallDataPtr samples.FooEntryOps =
    [BlockArgument eravm.ArgIndexCallDataABI (LLVMPointerType 3)] /\
  ABILenSource samples.FooEntryOps (OpResult 15 i256Ty) <>
    Some (BlockArgument eravm.ArgIndexCallDataABI (LLVMPointerType 3)).
Proof.
  repeat split; try (vm_compute; reflexivity).
  vm_compute. discriminate.
Qed.

(** C8, on [Foo]: the stores into the extra ABI data array.  The argument
    at position i of the entry block, for i from 2 to 11, is stored to the
    element with indices 0 and i: the k-th argument after the call flags
    goes to element k + 2, not k, and the last two go to the elements 10
    and 11 of an array of 10 elements. *)
Theorem extra_abi_data_stores_shifted :
  elementStores eravm.GlobExtraABIData samples.FooEntryOps =
    map (fun i => (BlockArgument i i256Ty, [Some 0%Z; Some (Z.of_nat i)])) (seq 2 10) /\
  lookupSymbol eravm.GlobExtraABIData
    (match ObjectOpLowering_matchAndRewrite samples.Foo samples.emptyRewriter with
     | Ok (_, r') => moduleBody r'
     | Err _ => []
     end) =
    Some (LLVM_GlobalOp eravm.GlobExtraABIData (LLVMArrayType i256Ty 10)
            (Some 32%N) 0 Private
            (Some (ZeroAttr (RankedTensorType [10%N] i256Ty)))) /\
  elementStores eravm.GlobExtraABIData samples.FooEntryOps <>
    map (fun k => (BlockArgument (2 + k) i256Ty, [Some 0%Z; Some (Z.of_nat k)])) (seq 0 10).
Proof.
  split; [vm_compute; reflexivity|]. split; [vm_compute; reflexivity|].
  vm_compute. discriminate.
Qed.

End EntryProofs.

(** * More about the Solidity to MLIR pass *)

Module GenMoreProofs.
Import frontend SolidityToMLIRPass samples shapes MonadFacts.

(** ** Statements that emit nothing *)

Lemma accept_no_return :
  forall (stmt : Statement) (p : Pass),
    hasReturn stmt = false -> accept stmt p = Ok (tt, p).
Proof.
  fix IH 1. intros stmt p. destruct stmt as [e|statements|c t f|c body|e]; simpl.
  - discriminate.
  - revert p. induction statements as [|s l IHl]; intros p Hl; [reflexivity|].
    apply orb_false_iff in Hl as [Hs Hl].
    unfold bind. rewrite (IH s p Hs). apply IHl. exact Hl.
  - intros H. apply orb_false_iff in H as [Ht Hf].
    unfold bind. rewrite (IH t p Ht).
    destruct f as [s|]; [apply IH; exact Hf|reflexivity].
  - apply IH.
  - reflexivity.
Qed.

Lemma visit_Return_no_results (expression : option Expression) (p : Pass)
    (func : FunctionDefinition) :
  currFunc p = Some func -> returnParameters func = [] ->
  visit_Return expression p = Ok (true, p).
Proof.
  intros Hc Hr. unfold visit_Return, getCurrFunc, bind, get, returnParameterTypes.
  rewrite Hc. cbn. rewrite Hr. reflexivity.
Qed.

Lemma accept_no_results (func : FunctionDefinition) :
  returnParameters func = [] ->
  forall (stmt : Statement) (p : Pass),
    currFunc p = Some func -> accept stmt p = Ok (tt, p).
Proof.
  intros Hr. fix IH 1. intros stmt p Hc.
  destruct stmt as [e|statements|c t f|c body|e]; simpl.
  - unfold bind. rewrite (visit_Return_no_results e p func Hc Hr). reflexivity.
  - induction statements as [|s l IHl]; [reflexivity|].
    unfold bind. rewrite (IH s p Hc). exact IHl.
  - unfold bind. rewrite (IH t p Hc).
    destruct f as [s|]; [apply IH; exact Hc|reflexivity].
  - apply IH. exact Hc.
  - reflexivity.
Qed.

(** ** The parameters of a function *)

Lemma mapEach_type_integers (params : list VariableDeclaration) :
  forall (ints : list IntegerType) (p : Pass),
    map var_type params = map TIntegerType ints ->
    mapEach params (fun param => type (var_type param)) p =
      Ok (map (fun i => mlir.IntegerType (numBits i)) ints, p).
Proof.
  induction params as [|param params IH]; intros [|i ints] p H; try discriminate.
  - reflexivity.
  - injection H as Hty Hrest. cbn [mapEach map]. unfold bind at 1.
    rewrite Hty. cbn [type ret]. unfold bind at 1.
    rewrite (IH ints p Hrest). reflexivity.
Qed.

Lemma prologue_loop (params : list VariableDeclaration) :
  forall (inpTys : list mlir.Type_) (n : nat) (args : list mlir.Value)
         (ops : list mlir.Operation) (vars : gmap N mlir.Value)
         (cf : option FunctionDefinition),
    length inpTys = length params ->
    forEach (zip inpTys params) (fun '(inpTy, param) =>
      arg <- (fun p => let '(a, b') := mlir.addArgument inpTy (b p) in
                       Ok (a, withBuilder (fun _ => b') p)) ;;
      addr <- create mlir.memref_AllocaOp (mlir.MemRefType inpTy) ;;
      setMemRef (decl param) addr ;;;
      create_ (mlir.memref_StoreOp arg addr))
      (mkPass (mlir.mkOpBuilder n (mlir.mkBlock args ops)) vars cf) =
    Ok (tt, mkPass (mlir.mkOpBuilder (n + length inpTys)
                      (mlir.mkBlock (args ++ entryArguments (length args) inpTys)
                                    (ops ++ prologue n (length args) inpTys)))
                   (bindSlots n params inpTys vars) cf).
Proof.
  induction params as [|param params IH]; intros [|inpTy inpTys] n args ops vars cf Hlen;
    try discriminate.
  - cbn. rewrite !app_nil_r, Nat.add_0_r. reflexivity.
  - cbn [zip zip_with forEach]. unfold bind at 1.
    cbv [bind create create_ setMemRef modify withBuilder mlir.addArgument
         mlir.createResult mlir.append b varMemRef currFunc mlir.nextResult
         mlir.block mlir.arguments mlir.operations].
    injection Hlen as Hlen.
    rewrite (IH inpTys (Datatypes.S n) (args ++ [mlir.BlockArgument (length args) inpTy])
               _ _ cf Hlen).
    cbn [entryArguments prologue bindSlots length].
    rewrite length_app. cbn [length].
    rewrite <- !app_assoc. cbn [app].
    replace (length args + 1) with (Datatypes.S (length args)) by lia.
    replace (Datatypes.S n + length inpTys) with (n + Datatypes.S (length inpTys)) by lia.
    reflexivity.
Qed.

(** [run] on a function whose parameters and results have integer types:
    the entry block is filled with the slots of the parameters, the body is
    walked, and the finished function is put after what the enclosing block
    held. *)
Lemma run_FunctionDefinition_steps (func : FunctionDefinition)
    (ints outs : list IntegerType) (p : Pass) :
  map var_type (parameters func) = map TIntegerType ints ->
  map var_type (returnParameters func) = map TIntegerType outs ->
  length outs <= 1 ->
  let inpTys := map (fun i => mlir.IntegerType (numBits i)) ints in
  let outTys := map (fun i => mlir.IntegerType (numBits i)) outs in
  let n := mlir.nextResult (b p) in
  run_FunctionDefinition func p =
    match accept (body func)
            (mkPass (mlir.mkOpBuilder (n + length inpTys)
                       (mlir.mkBlock (entryArguments 0 inpTys) (prologue n 0 inpTys)))
                    (bindSlots n (parameters func) inpTys (varMemRef p))
                    (Some func)) with
    | Ok (_, q) =>
        let blk :=
          mlir.mkBlock (mlir.arguments (mlir.block (b q)))
            (mlir.operations (mlir.block (b q)) ++
             (if bool_decide (outTys = []) then [mlir.func_ReturnOp []] else [])) in
        Ok (tt,
            mkPass
              (mlir.append (mlir.func_FuncOp (name func) inpTys outTys [blk])
                 (mlir.mkOpBuilder (mlir.nextResult (b q)) (mlir.block (b p))))
              (varMemRef q) (currFunc q))
    | Err e => Err e
    end.
Proof.
  intros Hin Hout Hlen inpTys outTys n.
  unfold run_FunctionDefinition.
  unfold bind at 1. cbn [modify].
  unfold bind at 1. rewrite (mapEach_type_integers _ ints _ Hin).
  unfold bind at 1. rewrite (mapEach_type_integers _ outs _ Hout).
  fold inpTys outTys.
  assert ((length outTys <=? 1) = true) as ->.
  { apply Nat.leb_le. unfold outTys. rewrite length_map. exact Hlen. }
  cbn [solUnimplementedAssert].
  unfold bind at 1. cbn [ret].
  unfold bind at 1. cbn [get].
  unfold bind at 1. cbn [modify withBuilder b varMemRef currFunc mlir.nextResult].
  unfold bind at 1. unfold mlir.emptyBlock.
  lazymatch goal with
  | |- context [forEach _ _ (withBuilder ?f ?s)] =>
      change (withBuilder f s)
        with (mkPass (mlir.mkOpBuilder n (mlir.mkBlock [] [])) (varMemRef p) (Some func))
  end.
  rewrite prologue_loop.
  2:{ unfold inpTys. rewrite length_map.
      rewrite <- (length_map var_type), Hin, length_map. reflexivity. }
  cbn [app length].
  unfold bind at 1.
  destruct (accept (body func) _) as [[[] q]|e]; [|reflexivity].
  destruct q as [[k [args ops]] vars cf].
  destruct (bool_decide (outTys = [])); [reflexivity|].
  cbn. rewrite app_nil_r. reflexivity.
Qed.

Lemma prologue_no_return (tys : list mlir.Type_) :
  forall (k a : nat) (operands : list mlir.Value),
    ~ In (mlir.func_ReturnOp operands) (prologue k a tys).
Proof.
  induction tys as [|ty tys IH]; intros k a operands; cbn [prologue In].
  - tauto.
  - intros [H|[H|H]]; try discriminate. exact (IH _ _ _ H).
Qed.

Lemma bindSlots_other (params : list VariableDeclaration) :
  forall (tys : list mlir.Type_) (k : nat) (vars : gmap N mlir.Value) (d : N),
    ~ In d (map decl params) ->
    bindSlots k params tys vars !! d = vars !! d.
Proof.
  induction params as [|param params IH]; intros [|ty tys] k vars d Hd;
    cbn [bindSlots]; try reflexivity.
  cbn [map In] in Hd.
  rewrite IH by tauto.
  apply lookup_insert_ne. intros Heq. apply Hd. left. exact Heq.
Qed.

Lemma bindSlots_lookup (params : list VariableDeclaration) :
  forall (tys : list mlir.Type_) (k : nat) (vars : gmap N mlir.Value) (i : nat)
         (param : VariableDeclaration) (ty : mlir.Type_),
    NoDup (map decl params) ->
    params !! i = Some param -> tys !! i = Some ty ->
    bindSlots k params tys vars !! decl param =
      Some (mlir.OpResult (k + i) (mlir.MemRefType ty)).
Proof.
  induction params as [|param0 params IH]; intros [|ty0 tys] k vars i param ty Hnd Hp Ht;
    try discriminate.
  apply NoDup_cons in Hnd as [Hnotin Hnd].
  destruct i as [|i]; cbn in Hp, Ht; cbn [bindSlots].
  - injection Hp as ->. injection Ht as ->.
    rewrite bindSlots_other by (rewrite <- list_elem_of_In; exact Hnotin).
    rewrite Nat.add_0_r. apply lookup_insert_eq.
  - rewrite (IH tys (Datatypes.S k) _ i param ty Hnd Hp Ht).
    f_equal. f_equal. lia.
Qed.

(** ** Functions *)

(** X1.  A function without return parameters, with parameters of integer
    types: whatever its body, the lowered function holds one stack slot per
    parameter with the store of the argument to it, in the order of the
    parameters, then one empty [func.return]; every parameter is bound to its
    slot, and the function is put after what the enclosing block held. *)
Theorem function_without_results (func : FunctionDefinition)
    (ints : list IntegerType) (p : Pass) :
  returnParameters func = [] ->
  map var_type (parameters func) = map TIntegerType ints ->
  let inpTys := map (fun i => mlir.IntegerType (numBits i)) ints in
  let n := mlir.nextResult (b p) in
  run_FunctionDefinition func p =
    Ok (tt,
        mkPass
          (mlir.mkOpBuilder (n + length inpTys)
             (mlir.mkBlock (mlir.arguments (mlir.block (b p)))
                (mlir.operations (mlir.block (b p)) ++
                 [mlir.func_FuncOp (name func) inpTys []
                    [mlir.mkBlock (entryArguments 0 inpTys)
                       (prologue n 0 inpTys ++ [mlir.func_ReturnOp []])]])))
          (bindSlots n (parameters func) inpTys (varMemRef p))
          (Some func)).
Proof.
  intros Hres Hin inpTys n.
  rewrite (run_FunctionDefinition_steps func ints [] p Hin);
    [|rewrite Hres; reflexivity|cbn; lia].
  fold inpTys n. rewrite (accept_no_results func Hres) by reflexivity.
  reflexivity.
Qed.

Lemma function_without_results_witness :
  run_FunctionDefinition
    (mkFunctionDefinition "h"
       [mkVariableDeclaration 1 "a" uint8; mkVariableDeclaration 2 "b" int32] []
       (Block [Return None]))
    init =
    Ok (tt,
        mkPass
          (mlir.mkOpBuilder 2
             (mlir.mkBlock []
                [mlir.func_FuncOp "h" [mlir.IntegerType 8; mlir.IntegerType 32] []
                   [mlir.mkBlock
                      [mlir.BlockArgument 0 (mlir.IntegerType 8);
                       mlir.BlockArgument 1 (mlir.IntegerType 32)]
                      [mlir.memref_AllocaOp
                         (mlir.OpResult 0 (mlir.MemRefType (mlir.IntegerType 8)));
                       mlir.memref_StoreOp (mlir.BlockArgument 0 (mlir.IntegerType 8))
                         (mlir.OpResult 0 (mlir.MemRefType (mlir.IntegerType 8)));
                       mlir.memref_AllocaOp
                         (mlir.OpResult 1 (mlir.MemRefType (mlir.IntegerType 32)));
                       mlir.memref_StoreOp (mlir.BlockArgument 1 (mlir.IntegerType 32))
                         (mlir.OpResult 1 (mlir.MemRefType (mlir.IntegerType 32)));
                       mlir.func_ReturnOp []]]]))
          (<[2%N := mlir.OpResult 1 (mlir.MemRefType (mlir.IntegerType 32))]>
             (<[1%N := mlir.OpResult 0 (mlir.MemRefType (mlir.IntegerType 8))]> ∅))
          (Some (mkFunctionDefinition "h"
                   [mkVariableDeclaration 1 "a" uint8; mkVariableDeclaration 2 "b" int32]
                   [] (Block [Return None])))).
Proof.
  exact (function_without_results
           (mkFunctionDefinition "h"
              [mkVariableDeclaration 1 "a" uint8; mkVariableDeclaration 2 "b" int32] []
              (Block [Return None]))
           [mkIntegerType 8 false; mkIntegerType 32 true] init eq_refl eq_refl).
Defined.

(** X2.  A function that declares one result of an integer type and whose
    body holds no return statement is lowered without a failure to a function
    whose block holds the slots of the parameters only: no [func.return]
    ends it. *)
Theorem result_without_return_statement (func : FunctionDefinition)
    (ints : list IntegerType) (out : IntegerType) (p : Pass) :
  map var_type (parameters func) = map TIntegerType ints ->
  map var_type (returnParameters func) = [TIntegerType out] ->
  hasReturn (body func) = false ->
  let inpTys := map (fun i => mlir.IntegerType (numBits i)) ints in
  let n := mlir.nextResult (b p) in
  exists (blk : mlir.Block) (p' : Pass),
    run_FunctionDefinition func p = Ok (tt, p') /\
    mlir.operations (mlir.block (b p')) =
      mlir.operations (mlir.block (b p)) ++
      [mlir.func_FuncOp (name func) inpTys [mlir.IntegerType (numBits out)] [blk]] /\
    mlir.operations blk = prologue n 0 inpTys /\
    (forall operands, ~ In (mlir.func_ReturnOp operands) (mlir.operations blk)).
Proof.
  intros Hin Hout Hbody inpTys n.
  rewrite (run_FunctionDefinition_steps func ints [out] p Hin Hout); [|cbn; lia].
  fold inpTys n. rewrite accept_no_return by exact Hbody.
  cbn [b mlir.block mlir.operations mlir.arguments map bool_decide decide_rel].
  eexists. eexists. split; [reflexivity|].
  cbn. rewrite app_nil_r.
  split; [reflexivity|]. split; [reflexivity|].
  intros operands. apply prologue_no_return.
Qed.

Lemma result_without_return_statement_witness :
  exists (blk : mlir.Block) (p' : Pass),
    run_FunctionDefinition
      (mkFunctionDefinition "k" [mkVariableDeclaration 1 "a" uint8]
         [mkVariableDeclaration 2 "" uint256]
         (Block [ExpressionStatement (Identifier uint8 1)]))
      init = Ok (tt, p') /\
    mlir.operations (mlir.block (b p')) =
      [] ++ [mlir.func_FuncOp "k" [mlir.IntegerType 8] [mlir.IntegerType 256] [blk]] /\
    mlir.operations blk =
      [mlir.memref_AllocaOp (mlir.OpResult 0 (mlir.MemRefType (mlir.IntegerType 8)));
       mlir.memref_StoreOp (mlir.BlockArgument 0 (mlir.IntegerType 8))
         (mlir.OpResult 0 (mlir.MemRefType (mlir.IntegerType 8)))] /\
    (forall operands, ~ In (mlir.func_ReturnOp operands) (mlir.operations blk)).
Proof.
  exact (result_without_return_statement
           (mkFunctionDefinition "k" [mkVariableDeclaration 1 "a" uint8]
              [mkVariableDeclaration 2 "" uint256]
              (Block [ExpressionStatement (Identifier uint8 1)]))
           [mkIntegerType 8 false] (mkIntegerType 256 false) init
           eq_refl eq_refl eq_refl).
Defined.


Lemma accept_return_identifier (func : FunctionDefinition) (resTy0 ty : Type_)
    (d : N) (addr : mlir.Value) (elementType : mlir.Type_) (q : Pass) :
  currFunc q = Some func ->
  map var_type (returnParameters func) = [resTy0] ->
  varMemRef q !! d = Some addr ->
  mlir.getType addr = Some (mlir.MemRefType elementType) ->
  let res := mlir.OpResult (mlir.nextResult (b q)) elementType in
  accept (Block [Return (Some (Identifier ty d))]) q =
    Ok (tt,
        mkPass
          (mlir.mkOpBuilder (Datatypes.S (mlir.nextResult (b q)))
             (mlir.mkBlock (mlir.arguments (mlir.block (b q)))
                (mlir.operations (mlir.block (b q)) ++
                 [mlir.memref_LoadOp res addr; mlir.func_ReturnOp [res]])))
          (varMemRef q) (currFunc q)).
Proof.
  intros Hc Hres Hlook Hty res.
  destruct q as [[k [args ops]] vars cf]. cbn in Hc, Hlook. subst cf.
  cbn [accept]. unfold bind at 1. unfold bind at 1.
  unfold visit_Return. unfold bind at 1. unfold getCurrFunc. unfold bind at 1.
  cbn [get currFunc ret]. unfold returnParameterTypes. rewrite Hres.
  cbn [length Nat.eqb solUnimplementedAssert]. unfold bind at 1. cbn [ret].
  unfold bind at 1. cbn [genExpr]. unfold bind at 1.
  unfold getMemRef. cbn [varMemRef]. rewrite Hlook.
  unfold bind at 1. unfold typeOf at 1. rewrite Hty. cbn [ret].
  cbv [create mlir.createResult mlir.append withBuilder b varMemRef currFunc
       mlir.nextResult mlir.block mlir.arguments mlir.operations].
  unfold bind at 1. cbv [typeOf mlir.getType ret].
  unfold bind at 1.
  cbv [create_ modify mlir.append withBuilder b varMemRef currFunc
       mlir.nextResult mlir.block mlir.arguments mlir.operations ret].
  subst res. cbn [b mlir.nextResult mlir.block mlir.arguments mlir.operations
                  varMemRef currFunc].
  rewrite <- app_assoc. reflexivity.
Qed.

(** X3.  A function that returns one of its parameters: the lowered function
    holds the slots of the parameters, one load from the slot of that
    parameter and the [func.return] of the loaded value, which has the type
    of the parameter whatever type the function declares for its result. *)
Theorem return_of_parameter (func : FunctionDefinition)
    (ints : list IntegerType) (out : IntegerType) (i : nat)
    (param : VariableDeclaration) (int : IntegerType) (ty : Type_) (p : Pass) :
  map var_type (parameters func) = map TIntegerType ints ->
  map var_type (returnParameters func) = [TIntegerType out] ->
  NoDup (map decl (parameters func)) ->
  parameters func !! i = Some param ->
  ints !! i = Some int ->
  body func = Block [Return (Some (Identifier ty (decl param)))] ->
  let inpTys := map (fun i => mlir.IntegerType (numBits i)) ints in
  let n := mlir.nextResult (b p) in
  let slot := mlir.OpResult (n + i) (mlir.MemRefType (mlir.IntegerType (numBits int))) in
  let val := mlir.OpResult (n + length inpTys) (mlir.IntegerType (numBits int)) in
  run_FunctionDefinition func p =
    Ok (tt,
        mkPass
          (mlir.mkOpBuilder (Datatypes.S (n + length inpTys))
             (mlir.mkBlock (mlir.arguments (mlir.block (b p)))
                (mlir.operations (mlir.block (b p)) ++
                 [mlir.func_FuncOp (name func) inpTys [mlir.IntegerType (numBits out)]
                    [mlir.mkBlock (entryArguments 0 inpTys)
                       (prologue n 0 inpTys ++
                        [mlir.memref_LoadOp val slot; mlir.func_ReturnOp [val]])]])))
          (bindSlots n (parameters func) inpTys (varMemRef p))
          (Some func)).
Proof.
  intros Hin Hout Hnd Hparam Hint Hbody inpTys n slot val.
  rewrite (run_FunctionDefinition_steps func ints [out] p Hin Hout); [|cbn; lia].
  fold inpTys n. rewrite Hbody.
  erewrite (accept_return_identifier func (TIntegerType out) ty (decl param) slot);
    [ | reflexivity | exact Hout | | reflexivity ].
  2:{ cbn [varMemRef]. apply bindSlots_lookup; [exact Hnd|exact Hparam|].
      unfold inpTys. rewrite list_lookup_fmap, Hint. reflexivity. }
  cbn. rewrite app_nil_r. reflexivity.
Qed.

Lemma return_of_parameter_witness :
  run_FunctionDefinition return_param_function init =
    Ok (tt,
        mkPass
          (mlir.mkOpBuilder 2
             (mlir.mkBlock []
                [mlir.func_FuncOp "f" [mlir.IntegerType 8] [mlir.IntegerType 256]
                   [mlir.mkBlock [mlir.BlockArgument 0 (mlir.IntegerType 8)]
                      [mlir.memref_AllocaOp
                         (mlir.OpResult 0 (mlir.MemRefType (mlir.IntegerType 8)));
                       mlir.memref_StoreOp (mlir.BlockArgument 0 (mlir.IntegerType 8))
                         (mlir.OpResult 0 (mlir.MemRefType (mlir.IntegerType 8)));
                       mlir.memref_LoadOp (mlir.OpResult 1 (mlir.IntegerType 8))
                         (mlir.OpResult 0 (mlir.MemRefType (mlir.IntegerType 8)));
                       mlir.func_ReturnOp [mlir.OpResult 1 (mlir.IntegerType 8)]]]]))
          (<[1%N := mlir.OpResult 0 (mlir.MemRefType (mlir.IntegerType 8))]> ∅)
          (Some return_param_function)).
Proof.
  refine (return_of_parameter return_param_function [mkIntegerType 8 false]
            (mkIntegerType 256 false) 0 (mkVariableDeclaration 1 "a" uint8)
            (mkIntegerType 8 false) uint8 init eq_refl eq_refl _ eq_refl eq_refl eq_refl).
  repeat constructor. cbn. intros H. apply elem_of_nil in H. exact H.
Defined.

(** ** Expressions *)

(** X4.  A literal of an integral rational number type with integer type
    [A]: without a requested type one constant of [A]'s width is emitted;
    with a requested integer type [B] that is another type object, the
    constant is followed by the extension to [B]'s width when [B] is wider
    (signed when [B] is), and the generator stops with [Unhandled cast] when
    [B] is as wide as [A] or narrower. *)
Theorem literal_then_cast (id : N) (A B : IntegerType) (value : Z)
    (resTy : Type_) (p : Pass) :
  let ty := TRationalNumberType id false (Some A) in
  let n := mlir.nextResult (b p) in
  let c := mlir.OpResult n (mlir.IntegerType (numBits A)) in
  let constant :=
    mlir.arith_ConstantOp c
      (mlir.IntegerAttr (mlir.IntegerType (numBits A)) (numBits A) value) in
  let res := mlir.OpResult (Datatypes.S n) (mlir.IntegerType (numBits B)) in
  let ext := if isSigned B then mlir.arith_ExtSIOp res c else mlir.arith_ExtUIOp res c in
  genExpr (Literal ty value) None p =
    Ok (c, mkPass (mlir.mkOpBuilder (Datatypes.S n)
                     (mlir.mkBlock (mlir.arguments (mlir.block (b p)))
                        (mlir.operations (mlir.block (b p)) ++ [constant])))
                  (varMemRef p) (currFunc p)) /\
  (resTy <> ty -> getAsIntTy resTy = Some B ->
   genExpr (Literal ty value) (Some resTy) p =
     if (numBits A <? numBits B)%N
     then Ok (res, mkPass (mlir.mkOpBuilder (Datatypes.S (Datatypes.S n))
                             (mlir.mkBlock (mlir.arguments (mlir.block (b p)))
                                (mlir.operations (mlir.block (b p)) ++ [constant; ext])))
                          (varMemRef p) (currFunc p))
     else Err (UnimplementedFeatureError ("Unhandled cast" +:+ newline))).
Proof.
  intros ty n c constant res ext.
  destruct p as [[k [args ops]] vars cf].
  split; [reflexivity|].
  intros Hne HB.
  cbn [genExpr annotation_type]. unfold bind at 1.
  change (genExpr_Literal ty value _)
    with (Ok (c, mkPass (mlir.mkOpBuilder (Datatypes.S k)
                           (mlir.mkBlock args (ops ++ [constant]))) vars cf)).
  unfold genCast. rewrite bool_decide_eq_false_2 by congruence.
  rewrite HB. subst ty. cbn [getAsIntTy].
  destruct (numBits A <? numBits B)%N; [|reflexivity].
  subst ext. destruct (isSigned B);
    cbv [bind typeOf mlir.getType ret type create mlir.createResult mlir.append
         withBuilder b varMemRef currFunc mlir.nextResult mlir.block
         mlir.arguments mlir.operations c];
    rewrite <- app_assoc; reflexivity.
Qed.

Lemma literal_then_cast_witness :
  genExpr (Literal (TRationalNumberType 7 false (Some (mkIntegerType 8 false))) 1)
    (Some uint256) init =
    Ok (mlir.OpResult 1 (mlir.IntegerType 256),
        mkPass (mlir.mkOpBuilder 2
                  (mlir.mkBlock []
                     [mlir.arith_ConstantOp (mlir.OpResult 0 (mlir.IntegerType 8))
                        (mlir.IntegerAttr (mlir.IntegerType 8) 8 1);
                      mlir.arith_ExtUIOp (mlir.OpResult 1 (mlir.IntegerType 256))
                        (mlir.OpResult 0 (mlir.IntegerType 8))]))
               ∅ None) /\
  genExpr (Literal (TRationalNumberType 7 false (Some (mkIntegerType 8 false))) 1)
    (Some uint8) init =
    Err (UnimplementedFeatureError ("Unhandled cast" +:+ newline)).
Proof.
  split.
  - apply (proj2 (literal_then_cast 7 (mkIntegerType 8 false) (mkIntegerType 256 false)
                    1 uint256 init)); [discriminate|reflexivity].
  - apply (proj2 (literal_then_cast 7 (mkIntegerType 8 false) (mkIntegerType 8 false)
                    1 uint8 init)); [discriminate|reflexivity].
Defined.

(** X5.  A binary operation whose operator is neither [Add] nor [Mul] never
    yields a value, whatever type is requested; when its two operands are
    lowered without a failure, the failure is [Unhandled binary operation],
    thrown after the code of the operands was emitted. *)
Theorem unsupported_operator (ty : Type_) (op : Token)
    (l r : Expression) (resTy : option Type_) (p : Pass) :
  op <> Add -> op <> Mul ->
  isOk (genExpr (BinaryOperation ty op l r) resTy p) = false /\
  (forall lhs rhs p1 p2,
     genExpr l (Some ty) p = Ok (lhs, p1) ->
     genExpr r (Some ty) p1 = Ok (rhs, p2) ->
     genExpr (BinaryOperation ty op l r) resTy p =
       Err (UnimplementedFeatureError "Unhandled binary operation")).
Proof.
  intros Hadd Hmul. cbn [genExpr]. unfold bind.
  destruct (genExpr l (Some ty) p) as [[lhs p1]|e] eqn:Hl.
  2:{ split; [reflexivity|]. intros; discriminate. }
  destruct (genExpr r (Some ty) p1) as [[rhs p2]|e] eqn:Hr.
  2:{ split; [reflexivity|]. intros ? ? ? ? [= <- <-]. rewrite Hr. discriminate. }
  destruct op; try congruence; (split; [reflexivity|]);
    intros ? ? ? ? [= <- <-]; rewrite Hr; intros [= <- <-]; reflexivity.
Qed.

Lemma unsupported_operator_witness :
  isOk (genExpr
          (BinaryOperation uint256 Sub
             (Literal (TRationalNumberType 7 false (Some (mkIntegerType 8 false))) 2)
             (Literal (TRationalNumberType 8 false (Some (mkIntegerType 8 false))) 1))
          None init) = false.
Proof.
  refine (proj1 (unsupported_operator uint256 Sub _ _ None init _ _)); discriminate.
Defined.

(** X6.  Addition and multiplication: the code of the left operand comes
    first, then the code of the right operand, both lowered with the type of
    the operation as requested type; then one [arith.addi] or [arith.muli] on
    the two values is emitted, with the type of the left value, and its
    result is returned as it is when no type or the type of the operation
    itself is requested. *)
Theorem binary_operation_composes (ty : Type_) (op : Token)
    (l r : Expression) (resTy : option Type_) (p p1 p2 : Pass)
    (lhs rhs : mlir.Value) (opTy : mlir.Type_) :
  op = Add \/ op = Mul ->
  resTy = None \/ resTy = Some ty ->
  genExpr l (Some ty) p = Ok (lhs, p1) ->
  genExpr r (Some ty) p1 = Ok (rhs, p2) ->
  mlir.getType lhs = Some opTy ->
  rhs <> mlir.NullValue ->
  let res := mlir.OpResult (mlir.nextResult (b p2)) opTy in
  genExpr (BinaryOperation ty op l r) resTy p =
    Ok (res,
        mkPass
          (mlir.mkOpBuilder (Datatypes.S (mlir.nextResult (b p2)))
             (mlir.mkBlock (mlir.arguments (mlir.block (b p2)))
                (mlir.operations (mlir.block (b p2)) ++
                 [match op with
                  | Mul => mlir.arith_MulIOp res lhs rhs
                  | _ => mlir.arith_AddIOp res lhs rhs
                  end])))
          (varMemRef p2) (currFunc p2)).
Proof.
  intros Hop HresTy Hl Hr Hlhs Hrhs res.
  cbn [genExpr annotation_type]. unfold bind at 1. unfold bind at 1.
  rewrite Hl. unfold bind at 1. rewrite Hr.
  assert (exists rty, mlir.getType rhs = Some rty) as [rty Hrty]
    by (destruct rhs; [congruence|eexists; reflexivity..]).
  assert (forall val q, match resTy with
                        | Some resTy => genCast val ty resTy
                        | None => ret val
                        end q = Ok (val, q)) as Hcast.
  { intros val q. destruct HresTy as [->| ->]; [reflexivity|apply GenProofs.genCast_same]. }
  destruct Hop as [->| ->];
    unfold bind at 1; unfold typeOf at 1; rewrite Hlhs; cbn [ret];
    unfold bind at 1; unfold typeOf at 1; rewrite Hrty; cbn [ret];
    unfold create; cbn [mlir.createResult]; rewrite Hcast; reflexivity.
Qed.

Lemma binary_operation_composes_witness :
  genExpr
    (BinaryOperation int32 Add
       (Literal (TRationalNumberType 7 false (Some (mkIntegerType 8 false))) 2)
       (Literal (TRationalNumberType 8 false (Some (mkIntegerType 8 false))) 1))
    (Some int32) init =
    Ok (mlir.OpResult 4 (mlir.IntegerType 32),
        mkPass
          (mlir.mkOpBuilder 5
             (mlir.mkBlock []
                [mlir.arith_ConstantOp (mlir.OpResult 0 (mlir.IntegerType 8))
                   (mlir.IntegerAttr (mlir.IntegerType 8) 8 2);
                 mlir.arith_ExtSIOp (mlir.OpResult 1 (mlir.IntegerType 32))
                   (mlir.OpResult 0 (mlir.IntegerType 8));
                 mlir.arith_ConstantOp (mlir.OpResult 2 (mlir.IntegerType 8))
                   (mlir.IntegerAttr (mlir.IntegerType 8) 8 1);
                 mlir.arith_ExtSIOp (mlir.OpResult 3 (mlir.IntegerType 32))
                   (mlir.OpResult 2 (mlir.IntegerType 8));
                 mlir.arith_AddIOp (mlir.OpResult 4 (mlir.IntegerType 32))
                   (mlir.OpResult 1 (mlir.IntegerType 32))
                   (mlir.OpResult 3 (mlir.IntegerType 32))]))
          ∅ None).
Proof.
  refine (binary_operation_composes int32 Add
            (Literal (TRationalNumberType 7 false (Some (mkIntegerType 8 false))) 2)
            (Literal (TRationalNumberType 8 false (Some (mkIntegerType 8 false))) 1)
            (Some int32) init
            (mkPass
               (mlir.mkOpBuilder 2
                  (mlir.mkBlock []
                     [mlir.arith_ConstantOp (mlir.OpResult 0 (mlir.IntegerType 8))
                        (mlir.IntegerAttr (mlir.IntegerType 8) 8 2);
                      mlir.arith_ExtSIOp (mlir.OpResult 1 (mlir.IntegerType 32))
                        (mlir.OpResult 0 (mlir.IntegerType 8))]))
               ∅ None)
            (mkPass
               (mlir.mkOpBuilder 4
                  (mlir.mkBlock []
                     [mlir.arith_ConstantOp (mlir.OpResult 0 (mlir.IntegerType 8))
                        (mlir.IntegerAttr (mlir.IntegerType 8) 8 2);
                      mlir.arith_ExtSIOp (mlir.OpResult 1 (mlir.IntegerType 32))
                        (mlir.OpResult 0 (mlir.IntegerType 8));
                      mlir.arith_ConstantOp (mlir.OpResult 2 (mlir.IntegerType 8))
                        (mlir.IntegerAttr (mlir.IntegerType 8) 8 1);
                      mlir.arith_ExtSIOp (mlir.OpResult 3 (mlir.IntegerType 32))
                        (mlir.OpResult 2 (mlir.IntegerType 8))]))
               ∅ None)
            (mlir.OpResult 1 (mlir.IntegerType 32))
            (mlir.OpResult 3 (mlir.IntegerType 32)) (mlir.IntegerType 32)
            (or_introl eq_refl) (or_intror eq_refl) eq_refl eq_refl eq_refl _).
  discriminate.
Defined.




(** ** Contracts and the module *)

Lemma type_state (ty : Type_) (p p' : Pass) (mty : mlir.Type_) :
  type ty p = Ok (mty, p') -> p' = p.
Proof.
  destruct ty as [i|id [|] [intTy|]|id]; cbn; intros [=]; congruence.
Qed.

Lemma mapEach_type_state (l : list VariableDeclaration) :
  forall (p p' : Pass) (tys : list mlir.Type_),
    mapEach l (fun param => type (var_type param)) p = Ok (tys, p') -> p' = p.
Proof.
  induction l as [|x l IH]; intros p p' tys; cbn [mapEach].
  - intros [= _ <-]. reflexivity.
  - unfold bind at 1.
    destruct (type (var_type x) p) as [[ty p1]|e] eqn:Hty; [|discriminate].
    apply type_state in Hty as ->.
    unfold bind at 1.
    destruct (mapEach l _ p) as [[ys p2]|e] eqn:Hl; [|discriminate].
    apply IH in Hl as ->. intros [= _ <-]. reflexivity.
Qed.

Lemma run_FunctionDefinition_appends (func : FunctionDefinition) (p p' : Pass) :
  run_FunctionDefinition func p = Ok (tt, p') ->
  exists op,
    lowersFunction op func /\
    mlir.operations (mlir.block (b p')) = mlir.operations (mlir.block (b p)) ++ [op] /\
    mlir.arguments (mlir.block (b p')) = mlir.arguments (mlir.block (b p)).
Proof.
  unfold run_FunctionDefinition.
  unfold bind at 1. cbn [modify].
  unfold bind at 1.
  destruct (mapEach (parameters func) _ _) as [[inpTys p1]|e] eqn:Hin; [|discriminate].
  pose proof (GenProofs.mapEach_length _ _ _ _ _ Hin) as Hlin.
  apply mapEach_type_state in Hin as ->.
  unfold bind at 1.
  destruct (mapEach (returnParameters func) _ _) as [[outTys p1]|e] eqn:Hout;
    [|discriminate].
  pose proof (GenProofs.mapEach_length _ _ _ _ _ Hout) as Hlout.
  apply mapEach_type_state in Hout as ->.
  unfold bind at 1.
  destruct (solUnimplementedAssert _ _ _) as [[[] p1]|e] eqn:Hassert; [|discriminate].
  assert (p1 = mkPass (b p) (varMemRef p) (Some func)) as ->.
  { unfold solUnimplementedAssert in Hassert.
    destruct (length outTys <=? 1); [|discriminate].
    injection Hassert as <-. reflexivity. }
  unfold bind at 1. cbn [get].
  unfold bind at 1. cbn [modify].
  unfold bind at 1.
  destruct (forEach (zip inpTys (parameters func)) _ _) as [[[] p2]|e]; [|discriminate].
  unfold bind at 1.
  destruct (accept (body func) p2) as [[[] p3]|e]; [|discriminate].
  unfold bind at 1.
  destruct (bool_decide (outTys = [])); cbn [create_ modify ret b];
    intros [= <-]; cbn [b mlir.append mlir.block mlir.operations mlir.arguments];
    (eexists; split; [|split; reflexivity]);
    eexists inpTys, outTys, _; auto.
Qed.

Lemma forEach_run_FunctionDefinition (funcs : list FunctionDefinition) :
  forall (p p' : Pass),
    forEach funcs run_FunctionDefinition p = Ok (tt, p') ->
    exists body,
      Forall2 lowersFunction body funcs /\
      mlir.operations (mlir.block (b p')) = mlir.operations (mlir.block (b p)) ++ body.
Proof.
  induction funcs as [|func funcs IH]; intros p p'; cbn [forEach].
  - intros [= <-]. exists []. split; [constructor|]. rewrite app_nil_r. reflexivity.
  - unfold bind at 1.
    destruct (run_FunctionDefinition func p) as [[[] p1]|e] eqn:Hf; [|discriminate].
    intros Hrest.
    destruct (run_FunctionDefinition_appends _ _ _ Hf) as (op & Hop & Hops & _).
    destruct (IH _ _ Hrest) as (body & Hbody & Hops').
    exists (op :: body). split; [constructor; assumption|].
    rewrite Hops', Hops, <- app_assoc. reflexivity.
Qed.

Lemma run_ContractDefinition_appends (cont : ContractDefinition) (p p' : Pass) :
  run_ContractDefinition cont p = Ok (tt, p') ->
  exists op,
    lowersContract op cont /\
    mlir.operations (mlir.block (b p')) = mlir.operations (mlir.block (b p)) ++ [op].
Proof.
  unfold run_ContractDefinition.
  unfold bind at 1. cbn [get].
  unfold bind at 1. cbn [modify].
  unfold bind at 1.
  destruct (forEach (definedFunctions cont) _ _) as [[[] p1]|e] eqn:Hfuncs;
    [|discriminate].
  destruct (forEach_run_FunctionDefinition _ _ _ Hfuncs) as (body & Hbody & Hops).
  cbn [modify]. intros [= <-].
  cbn [b mlir.append mlir.block mlir.operations].
  eexists. split; [|reflexivity].
  exists (mlir.operations (mlir.block (b p1))). split; [reflexivity|].
  rewrite Hops. exact Hbody.
Qed.

Lemma forEach_run_ContractDefinition (contracts : list ContractDefinition) :
  forall (p p' : Pass),
    forEach contracts run_ContractDefinition p = Ok (tt, p') ->
    exists ops,
      Forall2 lowersContract ops contracts /\
      mlir.operations (mlir.block (b p')) = mlir.operations (mlir.block (b p)) ++ ops.
Proof.
  induction contracts as [|cont contracts IH]; intros p p'; cbn [forEach].
  - intros [= <-]. exists []. split; [constructor|]. rewrite app_nil_r. reflexivity.
  - unfold bind at 1.
    destruct (run_ContractDefinition cont p) as [[[] p1]|e] eqn:Hc; [|discriminate].
    intros Hrest.
    destruct (run_ContractDefinition_appends _ _ _ Hc) as (op & Hop & Hops).
    destruct (IH _ _ Hrest) as (ops & Hall & Hops').
    exists (op :: ops). split; [constructor; assumption|].
    rewrite Hops', Hops, <- app_assoc. reflexivity.
Qed.

(** X8.  When the pass returns [true], the verifier and the job were given
    one and the same module and both accepted it, and that module holds one
    [sol.contract] per contract of the input, in the order of the input and
    under the name of the contract, each holding one [func.func] per
    function the contract defines, in their order, under the name of the
    function, with one input per parameter and one result per return
    parameter; when it returns [false], the verifier or the job refused. *)
Theorem pass_module_shape (verify doJob : list mlir.Operation -> bool)
    (contracts : list ContractDefinition) (res : bool) :
  runSolidityToMLIRPass verify doJob contracts = Ok res ->
  exists modOp : list mlir.Operation,
    Forall2 lowersContract modOp contracts /\
    res = verify modOp && doJob modOp.
Proof.
  unfold runSolidityToMLIRPass.
  destruct (forEach contracts run_ContractDefinition init) as [[[] gen]|e] eqn:Hgen;
    [|discriminate].
  destruct (forEach_run_ContractDefinition _ _ _ Hgen) as (ops & Hall & Hops).
  cbn in Hops. intros Hres. exists (getModule gen).
  unfold getModule. rewrite Hops. split; [exact Hall|].
  rewrite <- Hops. fold (getModule gen).
  destruct (verify (getModule gen)); cbn in Hres |- *; congruence.
Qed.

Lemma pass_module_shape_witness :
  exists modOp : list mlir.Operation,
    Forall2 lowersContract modOp [return_param_contract] /\
    true = (fun _ => true) modOp && (fun _ => true) modOp.
Proof.
  exact (pass_module_shape (fun _ => true) (fun _ => true) [return_param_contract]
           true eq_refl).
Defined.

End GenMoreProofs.

(** * More about the lowering pass *)

Module LoweringMoreProofs.
Import mlir lowering semantics contracts MonadFacts LoweringProofs.

(** ** The return operation in the runtime context *)

(** X9.  The lowering of a return operation in the runtime context, for
    every offset and length operand defined before it: one constant 0 (the
    mode, use the heap), the call of the return function on the offset, the
    length and the mode, and the unreachable terminator are put in its place
    and the return operation is erased; run in order, they call [__return]
    with the values of the two operands and 0. *)
Theorem runtime_return_lowering
    (lhs rhs : Value) (parents : list Operation) (r : Rewriter) (env : Env)
    (offset len : Z) :
  inRuntimeContext (sol_ReturnOp lhs rhs) parents = Ok true ->
  let mode := OpResult (nextResult (builder r)) i256Ty in
  lhs <> mode -> rhs <> mode ->
  env lhs = Some offset -> env rhs = Some len ->
  exists (r' : Rewriter) (env' : Env),
    let new := [arith_ConstantOp mode (IntegerAttr i256Ty 256 0);
                func_CallOp "__return" [] [lhs; rhs; mode];
                LLVM_UnreachableOp] in
    ReturnOpLowering_matchAndRewrite (sol_ReturnOp lhs rhs) parents r = Ok (tt, r') /\
    operations (block (builder r')) = operations (block (builder r)) ++ new /\
    exec env new = Some (env', [EvCall "__return" [offset; len; 0%Z]; EvUnreachable]) /\
    erased r' = erased r ++ [sol_ReturnOp lhs rhs] /\
    (exists fn, lookupSymbol "__return" (moduleBody r') = Some fn /\
                isaLLVMFuncOp fn = true).
Proof.
  intros Hctx mode Hlhs Hrhs Hoffset Hlength.
  destruct r as [[n [args ops]] body er].
  destruct (getOrInsertReturn_spec (mkOpBuilder n (mkBlock args ops)) body er)
    as (body' & fn & Hret & Hfn & Hisa).
  unfold ReturnOpLowering_matchAndRewrite.
  rewrite (bind_Ok _ _ _ _ _ Hret).
  unfold bind at 1. unfold lift at 1. rewrite Hctx. cbv iota beta.
  eexists _, _. cbv zeta. split; [cbv -[app]; reflexivity|].
  cbn [builder block operations erased moduleBody].
  split; [rewrite <- !app_assoc; reflexivity|].
  split.
  { erewrite exec_pure by apply step_constant.
    erewrite exec_event.
    2:{ eapply step_call3.
        - rewrite setValue_ne by exact Hlhs. exact Hoffset.
        - rewrite setValue_ne by exact Hrhs. exact Hlength.
        - apply setValue_eq. }
    erewrite exec_event by reflexivity. reflexivity. }
  split; [reflexivity|].
  exists fn. split; assumption.
Qed.

Lemma runtime_return_lowering_witness :
  exists (r' : Rewriter) (env' : Env),
    ReturnOpLowering_matchAndRewrite
      (sol_ReturnOp (OpResult 0 i256Ty) (OpResult 1 i256Ty))
      [sol_ObjectOp "Foo_deployed" []] samples.returnRewriter = Ok (tt, r') /\
    operations (block (builder r')) =
      operations (block (builder samples.returnRewriter)) ++
      [arith_ConstantOp (OpResult 2 i256Ty) (IntegerAttr i256Ty 256 0);
       func_CallOp "__return" [] [OpResult 0 i256Ty; OpResult 1 i256Ty; OpResult 2 i256Ty];
       LLVM_UnreachableOp] /\
    exec (setValue (setValue emptyEnv (OpResult 0 i256Ty) 64) (OpResult 1 i256Ty) 32)
      [arith_ConstantOp (OpResult 2 i256Ty) (IntegerAttr i256Ty 256 0);
       func_CallOp "__return" [] [OpResult 0 i256Ty; OpResult 1 i256Ty; OpResult 2 i256Ty];
       LLVM_UnreachableOp] =
      Some (env', [EvCall "__return" [64; 32; 0]%Z; EvUnreachable]) /\
    erased r' = [] ++ [sol_ReturnOp (OpResult 0 i256Ty) (OpResult 1 i256Ty)] /\
    (exists fn, lookupSymbol "__return" (moduleBody r') = Some fn /\
                isaLLVMFuncOp fn = true).
Proof.
  apply (runtime_return_lowering (OpResult 0 i256Ty) (OpResult 1 i256Ty)
           [sol_ObjectOp "Foo_deployed" []] samples.returnRewriter
           (setValue (setValue emptyEnv (OpResult 0 i256Ty) 64) (OpResult 1 i256Ty) 32)
           64 32);
    [reflexivity|discriminate|discriminate|reflexivity|reflexivity].
Defined.

(** ** Function declarations *)

Lemma lookupSymbol_cons_other (name other : string) (op : Operation)
    (body : list Operation) :
  getSymName op = Some name -> other <> name ->
  lookupSymbol other (op :: body) = lookupSymbol other body.
Proof.
  intros Hop Hne. cbn [lookupSymbol]. rewrite Hop.
  rewrite bool_decide_eq_false_2 by congruence. reflexivity.
Qed.

Lemma lookupSymbol_cons_same (name : string) (op : Operation) (body : list Operation) :
  getSymName op = Some name -> lookupSymbol name (op :: body) = Some op.
Proof.
  intros Hop. cbn [lookupSymbol]. rewrite Hop.
  rewrite bool_decide_eq_true_2 by reflexivity. reflexivity.
Qed.

(** The two ways [getOrInsertLLVMFuncOp] ends: the first operation of the
    module body that defines the name is an LLVM function and is returned,
    or a function without blocks is put in front of the module body. *)
Lemma getOrInsertLLVMFuncOp_cases (name : string) resTy argTys linkage attrs
    (r : Rewriter) :
  (exists fn,
     lookupSymbol name (moduleBody r) = Some fn /\ isaLLVMFuncOp fn = true /\
     getOrInsertLLVMFuncOp name resTy argTys linkage attrs r = Ok (fn, r)) \/
  ((forall fn, lookupSymbol name (moduleBody r) = Some fn -> isaLLVMFuncOp fn = false) /\
   getOrInsertLLVMFuncOp name resTy argTys linkage attrs r =
     Ok (LLVM_LLVMFuncOp name resTy argTys linkage attrs [],
         mkRewriter (builder r)
           (LLVM_LLVMFuncOp name resTy argTys linkage attrs [] :: moduleBody r)
           (erased r))).
Proof.
  unfold getOrInsertLLVMFuncOp, bind. cbn [get].
  destruct (lookupSymbol name (moduleBody r)) as [found|] eqn:E.
  - destruct found;
      try (right; split; [intros fn [= <-]; reflexivity|reflexivity]).
    left. eexists. split; [reflexivity|]. split; reflexivity.
  - right. split; [intros fn [=]|reflexivity].
Qed.

(** X10.  [getOrInsertLLVMFuncOp] declares a function at most once: the
    function it returns is an LLVM function of the asked name and is what the
    name resolves to afterwards; the insertion point and the erased
    operations stay, the module body stays or gets the function in front, and
    every other name resolves as before; and asking again for the name, with
    whatever signature, linkage or attributes, returns the same function and
    changes nothing. *)
Theorem getOrInsertLLVMFuncOp_idempotent (name : string) resTy argTys linkage attrs
    (r : Rewriter) :
  exists (fn : Operation) (r' : Rewriter),
    getOrInsertLLVMFuncOp name resTy argTys linkage attrs r = Ok (fn, r') /\
    lookupSymbol name (moduleBody r') = Some fn /\
    isaLLVMFuncOp fn = true /\
    builder r' = builder r /\ erased r' = erased r /\
    (moduleBody r' = moduleBody r \/ moduleBody r' = fn :: moduleBody r) /\
    (forall other, other <> name ->
       lookupSymbol other (moduleBody r') = lookupSymbol other (moduleBody r)) /\
    (forall resTy' argTys' linkage' attrs',
       getOrInsertLLVMFuncOp name resTy' argTys' linkage' attrs' r' = Ok (fn, r')).
Proof.
  destruct (getOrInsertLLVMFuncOp_cases name resTy argTys linkage attrs r)
    as [(fn & Hfn & Hisa & Hrun)|(Hnone & Hrun)].
  - exists fn, r. repeat split; auto.
    intros resTy' argTys' linkage' attrs'.
    destruct (getOrInsertLLVMFuncOp_cases name resTy' argTys' linkage' attrs' r)
      as [(fn' & Hfn' & _ & Hrun')|(Hnone' & _)].
    + rewrite Hfn in Hfn'. injection Hfn' as <-. exact Hrun'.
    + rewrite (Hnone' fn Hfn) in Hisa. discriminate.
  - eexists _, _. split; [exact Hrun|]. cbn [moduleBody builder erased].
    split; [apply lookupSymbol_cons_same; reflexivity|].
    split; [reflexivity|]. split; [reflexivity|]. split; [reflexivity|].
    split; [right; reflexivity|].
    split; [intros other Hne; apply (lookupSymbol_cons_other name); [reflexivity|exact Hne]|].
    intros resTy' argTys' linkage' attrs'.
    unfold getOrInsertLLVMFuncOp, bind. cbn [get moduleBody].
    rewrite (lookupSymbol_cons_same name) by reflexivity. reflexivity.
Qed.

(** X11.  The first declaration of a function decides the context of what
    is under it: when a name that the module does not define is declared as
    a creation function, a later request for a runtime function of that name
    returns the creation function with its attribute unchanged, and a return
    operation under the function is classified as creation context. *)
Theorem first_declaration_decides_context (name : string)
    resTy argTys resTy' argTys' (lhs rhs : Value) (r : Rewriter) :
  lookupSymbol name (moduleBody r) = None ->
  exists (fn : Operation) (r' : Rewriter),
    getOrInsertCreationFuncOp name resTy argTys r = Ok (fn, r') /\
    getOrInsertRuntimeFuncOp name resTy' argTys' r' = Ok (fn, r') /\
    getAttr "isRuntime" fn = Some (BoolAttr false) /\
    inRuntimeContext (sol_ReturnOp lhs rhs) [fn] = Ok false.
Proof.
  intros Hnone. unfold getOrInsertCreationFuncOp, getOrInsertRuntimeFuncOp.
  unfold getOrInsertLLVMFuncOp at 1. unfold bind at 1. cbn [get]. rewrite Hnone.
  eexists _, _. split; [reflexivity|].
  split; [|split; reflexivity].
  unfold getOrInsertLLVMFuncOp, bind. cbn [get moduleBody modify withModule ret].
  rewrite (lookupSymbol_cons_same name) by reflexivity. reflexivity.
Qed.

Lemma first_declaration_decides_context_witness :
  exists (fn : Operation) (r' : Rewriter),
    getOrInsertCreationFuncOp "__deploy" LLVMVoidType [] samples.emptyRewriter =
      Ok (fn, r') /\
    getOrInsertRuntimeFuncOp "__deploy" LLVMVoidType [] r' = Ok (fn, r') /\
    getAttr "isRuntime" fn = Some (BoolAttr false) /\
    inRuntimeContext (sol_ReturnOp NullValue NullValue) [fn] = Ok false.
Proof.
  exact (first_declaration_decides_context "__deploy" LLVMVoidType [] LLVMVoidType []
           NullValue NullValue samples.emptyRewriter eq_refl).
Defined.


(** ** Runtime objects *)

Lemma lookupSymbol_inlineInto (name : string) (region : list Block)
    (body : list Operation) resTy argTys linkage attrs blocks :
  lookupSymbol name body = Some (LLVM_LLVMFuncOp name resTy argTys linkage attrs blocks) ->
  lookupSymbol name (inlineInto name region body) =
    Some (LLVM_LLVMFuncOp name resTy argTys linkage attrs (region ++ blocks)).
Proof.
  induction body as [|op body IH]; cbn [lookupSymbol inlineInto]; [discriminate|].
  destruct (bool_decide (getSymName op = Some name)) eqn:E.
  - intros [= ->]. rewrite String.eqb_refl. cbn [lookupSymbol getSymName].
    rewrite bool_decide_eq_true_2 by reflexivity. reflexivity.
  - intros H. apply bool_decide_eq_false in E.
    destruct op; cbn [lookupSymbol]; try (rewrite bool_decide_eq_false_2 by exact E);
      try (apply IH; exact H).
    destruct (String.eqb sym_name name) eqn:Hn.
    + apply String.eqb_eq in Hn. subst. exfalso. apply E. reflexivity.
    + cbn [lookupSymbol]. rewrite bool_decide_eq_false_2 by exact E. apply IH. exact H.
Qed.

Lemma lookupSymbol_inlineInto_other (name other : string) (region : list Block)
    (body : list Operation) :
  other <> name ->
  lookupSymbol other (inlineInto name region body) = lookupSymbol other body.
Proof.
  intros Hne. induction body as [|op body IH]; [reflexivity|].
  cbn [inlineInto].
  destruct op; cbn [lookupSymbol getSymName]; try (rewrite IH; reflexivity).
  destruct (String.eqb sym_name name) eqn:Hn.
  - apply String.eqb_eq in Hn. subst sym_name. cbn [lookupSymbol getSymName].
    rewrite !bool_decide_eq_false_2 by congruence. reflexivity.
  - cbn [lookupSymbol getSymName]. rewrite IH. reflexivity.
Qed.

(** X12.  The lowering of a runtime object (a name that ends with
    [_deployed]) leaves the insertion point alone, erases the object and puts
    the block of the object in front of the blocks of the [__runtime]
    function, which is the function the module had under that name or, when
    the module had none, a new private function without arguments tagged
    [isRuntime = true]; every other name resolves as before.  A return
    operation of the object, runtime context by the name of the object,
    is runtime context under the new function too. *)
Theorem runtime_object_lowering (symName : string) (objBody : list Operation)
    (lhs rhs : Value) (r : Rewriter) :
  endswith symName "_deployed" = true ->
  exists (r' : Rewriter) resTy argTys linkage attrs (blocks : list Block),
    let runtimeFunc :=
      LLVM_LLVMFuncOp "__runtime" resTy argTys linkage attrs
        (mkBlock [] objBody :: blocks) in
    ObjectOpLowering_matchAndRewrite (sol_ObjectOp symName objBody) r = Ok (tt, r') /\
    builder r' = builder r /\
    erased r' = erased r ++ [sol_ObjectOp symName objBody] /\
    lookupSymbol "__runtime" (moduleBody r') = Some runtimeFunc /\
    (forall other, other <> "__runtime" ->
       lookupSymbol other (moduleBody r') = lookupSymbol other (moduleBody r)) /\
    (lookupSymbol "__runtime" (moduleBody r) =
       Some (LLVM_LLVMFuncOp "__runtime" resTy argTys linkage attrs blocks) \/
     (forall fn, lookupSymbol "__runtime" (moduleBody r) = Some fn ->
                 isaLLVMFuncOp fn = false) /\
     runtimeFunc =
       LLVM_LLVMFuncOp "__runtime" LLVMVoidType [] Private
         [("isRuntime", BoolAttr true)] [mkBlock [] objBody] /\
     inRuntimeContext (sol_ReturnOp lhs rhs) [sol_ObjectOp symName objBody] = Ok true /\
     inRuntimeContext (sol_ReturnOp lhs rhs) [runtimeFunc] = Ok true).
Proof.
  intros Hname. unfold ObjectOpLowering_matchAndRewrite. rewrite Hname.
  unfold getOrInsertRuntimeFuncOp.
  destruct (getOrInsertLLVMFuncOp_cases "__runtime" LLVMVoidType [] Private
              [("isRuntime", BoolAttr true)] r)
    as [(fn & Hfn & Hisa & Hrun)|(Hnone & Hrun)].
  - pose proof (lookupSymbol_name _ _ _ Hfn) as Hsym.
    destruct fn; try discriminate. cbn in Hsym. injection Hsym as ->.
    rewrite (bind_Ok _ _ _ _ _ Hrun).
    eexists _, resTy, argTys, linkage, attrs, body. cbv zeta.
    split; [reflexivity|]. cbn [builder erased moduleBody withModule].
    split; [reflexivity|]. split; [reflexivity|].
    split; [apply (lookupSymbol_inlineInto "__runtime" (getRegion objBody)); exact Hfn|].
    split; [intros other Hne; apply lookupSymbol_inlineInto_other; exact Hne|].
    left. exact Hfn.
  - rewrite (bind_Ok _ _ _ _ _ Hrun).
    eexists _, LLVMVoidType, [], Private, [("isRuntime", BoolAttr true)], []. cbv zeta.
    split; [reflexivity|]. cbn [builder erased moduleBody withModule].
    split; [reflexivity|]. split; [reflexivity|].
    split; [reflexivity|].
    split.
    { intros other Hne.
      rewrite lookupSymbol_inlineInto_other by exact Hne.
      apply (lookupSymbol_cons_other "__runtime"); [reflexivity|exact Hne]. }
    right. split; [exact Hnone|]. split; [reflexivity|].
    split; [|reflexivity].
    unfold inRuntimeContext. cbn. rewrite Hname. reflexivity.
Qed.

Lemma runtime_object_lowering_witness :
  exists (r' : Rewriter) resTy argTys linkage attrs (blocks : list Block),
    ObjectOpLowering_matchAndRewrite
      (sol_ObjectOp "Foo_deployed" [sol_ReturnOp NullValue NullValue])
      samples.emptyRewriter = Ok (tt, r') /\
    lookupSymbol "__runtime" (moduleBody r') =
      Some (LLVM_LLVMFuncOp "__runtime" resTy argTys linkage attrs
              (mkBlock [] [sol_ReturnOp NullValue NullValue] :: blocks)).
Proof.
  destruct (runtime_object_lowering "Foo_deployed" [sol_ReturnOp NullValue NullValue]
              NullValue NullValue samples.emptyRewriter eq_refl)
    as (r' & resTy & argTys & linkage & attrs & blocks & Hrun & _ & _ & Hfn & _).
  exists r', resTy, argTys, linkage, attrs, blocks. split; [exact Hrun|exact Hfn].
Defined.

(** ** Loads from globals *)

(** X13.  The address of a global the module declares, taken at the
    insertion point and loaded with [genLoad]: an address-of operation and a
    load are emitted, the loaded value has the type of the global, and the
    load is aligned to 32 bytes for a global in the stack address space and
    to 1 byte otherwise.  The result number of the address must be fresh in
    the block for the load to find the address-of operation. *)
Theorem load_of_global (name : string) ty alignment addrSpace linkage value
    (r : Rewriter) :
  let glob := LLVM_GlobalOp name ty alignment addrSpace linkage value in
  let n := nextResult (builder r) in
  let addr := OpResult n (LLVMPointerType addrSpace) in
  let val := OpResult (Datatypes.S n) ty in
  lookupSymbol name (moduleBody r) = Some glob ->
  Forall (fun o => getResult o <> Some addr) (operations (block (builder r))) ->
  (addr <- createAddressOf glob ;; genLoad addr) r =
    Ok (val,
        mkRewriter
          (mkOpBuilder (Datatypes.S (Datatypes.S n))
             (mkBlock (arguments (block (builder r)))
                (operations (block (builder r)) ++
                 [LLVM_AddressOfOp addr name;
                  LLVM_LoadOp val addr
                    (Some (if bool_decide (addrSpace = 0%N) then 32%N else 1%N))])))
          (moduleBody r) (erased r)).
Proof.
  intros glob n addr val Hglob Hfresh.
  destruct r as [[k [args ops]] body er].
  cbn in Hglob, Hfresh, n. subst n.
  unfold bind. cbn [createAddressOf glob create createResult builder nextResult block
                    withBuilder append moduleBody erased arguments operations].
  unfold genLoad, bind.
  cbn [get builder block operations moduleBody withBuilder append nextResult
       arguments erased].
  fold addr.
  assert (getDefiningOp addr (ops ++ [LLVM_AddressOfOp addr name]) =
          Some (LLVM_AddressOfOp addr name)) as ->.
  { clear Hglob. induction Hfresh as [|o l Ho _ IH]; cbn [app getDefiningOp].
    - cbn [getResult]. rewrite bool_decide_eq_true_2 by reflexivity. reflexivity.
    - rewrite bool_decide_eq_false_2 by exact Ho. exact IH. }
  rewrite Hglob. unfold glob.
  cbv [create createResult builder nextResult block withBuilder append moduleBody
       erased arguments operations].
  rewrite <- app_assoc. cbn [app].
  change (eravm.AddrSpace_value eravm.AddrSpace_Stack) with 0%N.
  destruct (bool_decide (addrSpace = 0%N)); reflexivity.
Qed.

Lemma load_of_global_witness :
  (addr <- createAddressOf (LLVM_GlobalOp "calldatasize" i256Ty None 0 Private None) ;;
   genLoad addr)
    (mkRewriter (mkOpBuilder 0 emptyBlock)
       [LLVM_GlobalOp "calldatasize" i256Ty None 0 Private None] []) =
    Ok (OpResult 1 i256Ty,
        mkRewriter
          (mkOpBuilder 2
             (mkBlock []
                [LLVM_AddressOfOp (OpResult 0 (LLVMPointerType 0)) "calldatasize";
                 LLVM_LoadOp (OpResult 1 i256Ty) (OpResult 0 (LLVMPointerType 0))
                   (Some 32%N)]))
          [LLVM_GlobalOp "calldatasize" i256Ty None 0 Private None] []).
Proof.
  apply (load_of_global "calldatasize" i256Ty None 0 Private None
           (mkRewriter (mkOpBuilder 0 emptyBlock)
              [LLVM_GlobalOp "calldatasize" i256Ty None 0 Private None] []));
    [reflexivity|constructor].
Defined.

(** ** Contracts *)

Lemma moveAfterBegin_empty (funcs : list Operation) :
  forall post acc : list Operation,
    fold_left moveAfterBegin funcs (mkModuleBody [] (acc ++ post)) =
      mkModuleBody [] (rev funcs ++ acc ++ post).
Proof.
  induction funcs as [|func funcs IH]; intros post acc; [reflexivity|].
  cbn [fold_left rev].
  change (moveAfterBegin (mkModuleBody [] (acc ++ post)) func)
    with (mkModuleBody [] ((func :: acc) ++ post)).
  rewrite (IH post (func :: acc)). rewrite <- app_assoc. reflexivity.
Qed.

Lemma moveAfterBegin_first (funcs : list Operation) :
  forall (first : Operation) (acc rest post : list Operation),
    fold_left moveAfterBegin funcs (mkModuleBody (first :: acc ++ rest) post) =
      mkModuleBody (first :: rev funcs ++ acc ++ rest) post.
Proof.
  induction funcs as [|func funcs IH]; intros first acc rest post; [reflexivity|].
  cbn [fold_left rev].
  change (moveAfterBegin (mkModuleBody (first :: acc ++ rest) post) func)
    with (mkModuleBody (first :: (func :: acc) ++ rest) post).
  rewrite (IH first (func :: acc)). rewrite <- app_assoc. reflexivity.
Qed.

(** X14.  The lowering of a contract: every operation of the contract must
    be a [func.func], otherwise the lowering stops on its assertion; the
    functions are moved into the module one after the other, each right
    after the first operation of the module body, so that they end up in the
    reverse of their order in the contract: after the first operation of the
    module when the contract was not the first, in the place of the contract
    when it was. *)
Theorem contract_functions_reversed (name : string) (funcs pre post : list Operation) :
  ContractOpLowering_matchAndRewrite (sol_ContractOp name funcs) (mkModuleBody pre post) =
    if forallb isaFuncOp funcs
    then Ok (match pre with
             | [] => rev funcs ++ post
             | first :: rest => first :: rev funcs ++ rest ++ post
             end)
    else Err (InternalCompilerError "assert(isa<func::FuncOp>(&func))").
Proof.
  unfold ContractOpLowering_matchAndRewrite.
  destruct (forallb isaFuncOp funcs); [|reflexivity].
  destruct pre as [|first rest].
  - pose proof (moveAfterBegin_empty funcs post []) as H. cbn [app] in H.
    cbv zeta. rewrite H. reflexivity.
  - pose proof (moveAfterBegin_first funcs first [] rest post) as H. cbn [app] in H.
    cbv zeta. rewrite H. cbn [before after app].
    rewrite <- app_assoc. reflexivity.
Qed.

End LoweringMoreProofs.

(** * The functions of a lowered object *)

Module ObjectProofs.
Import mlir lowering shapes MonadFacts LoweringProofs EntryProofs LoweringMoreProofs.

Lemma outcome_Ok {S A} (res : Result (A * S)) (Q : A -> S -> Prop) :
  outcome res Q False -> exists a s', res = Ok (a, s') /\ Q a s'.
Proof. destruct res as [[a s']|e]; cbn; [eauto|tauto]. Qed.

Lemma outcome_of_Ok {S A} (res : Result (A * S)) (Q : A -> S -> Prop) (E : Prop)
    (a : A) (s' : S) :
  outcome res Q E -> res = Ok (a, s') -> Q a s'.
Proof. intros H ->. exact H. Qed.

Lemma lookupSymbol_app (name : string) (body rest : list Operation) (op : Operation) :
  lookupSymbol name body = Some op -> lookupSymbol name (body ++ rest) = Some op.
Proof.
  induction body as [|o body IH]; cbn [lookupSymbol app]; [discriminate|].
  destruct (bool_decide (getSymName o = Some name)); [auto|exact IH].
Qed.

(** Looking a global up or inserting it keeps what every other name
    resolves to. *)
Lemma getOrInsertGlobalOp_keeps (name : string) ty alignment addrSpace linkage attr
    (bld : OpBuilder) (body er : list Operation) :
  exists ty' alignment' addrSpace' linkage' value' body',
    getOrInsertGlobalOp name ty alignment addrSpace linkage attr
      (mkRewriter bld body er) =
      Ok (LLVM_GlobalOp name ty' alignment' addrSpace' linkage' value',
          mkRewriter bld body' er) /\
    hasGlobal name body' /\
    (forall other, hasGlobal other body -> hasGlobal other body') /\
    (forall other, other <> name -> lookupSymbol other body' = lookupSymbol other body).
Proof.
  destruct (getOrInsertGlobalOp_spec name ty alignment addrSpace linkage attr bld body er)
    as (ty' & al' & asp' & lk' & v' & body' & Hrun & Hhas & Hpres).
  exists ty', al', asp', lk', v', body'.
  split; [exact Hrun|]. split; [exact Hhas|]. split; [exact Hpres|].
  revert Hrun. unfold getOrInsertGlobalOp. unfold bind at 1. cbn [get moduleBody].
  destruct (lookupSymbol name body) as [found|].
  - destruct found; cbn; intros H; inversion H; subst; intros other Hne;
      try reflexivity;
      apply (lookupSymbol_cons_other name); (reflexivity || exact Hne).
  - cbn. intros H; inversion H; subst. intros other Hne.
    apply (lookupSymbol_cons_other name); [reflexivity|exact Hne].
Qed.

(** A global that the module declares is returned as it is. *)
Lemma getOrInsertGlobalOp_found (name : string) ty alignment addrSpace linkage attr
    (bld : OpBuilder) (body er : list Operation) :
  hasGlobal name body ->
  exists ty' alignment' addrSpace' linkage' value',
    getOrInsertGlobalOp name ty alignment addrSpace linkage attr
      (mkRewriter bld body er) =
      Ok (LLVM_GlobalOp name ty' alignment' addrSpace' linkage' value',
          mkRewriter bld body er).
Proof.
  intros (ty' & al' & asp' & lk' & v' & H). exists ty', al', asp', lk', v'.
  unfold getOrInsertGlobalOp. unfold bind at 1. cbn [get moduleBody]. rewrite H.
  reflexivity.
Qed.

Lemma getOrInsertLLVMFuncOp_keeps (name : string) resTy argTys linkage attrs
    (bld : OpBuilder) (body er : list Operation) :
  exists resTy' argTys' linkage' attrs' blocks' body',
    getOrInsertLLVMFuncOp name resTy argTys linkage attrs (mkRewriter bld body er) =
      Ok (LLVM_LLVMFuncOp name resTy' argTys' linkage' attrs' blocks',
          mkRewriter bld body' er) /\
    lookupSymbol name body' =
      Some (LLVM_LLVMFuncOp name resTy' argTys' linkage' attrs' blocks') /\
    (forall other, other <> name -> lookupSymbol other body' = lookupSymbol other body) /\
    (lookupSymbol name body =
       Some (LLVM_LLVMFuncOp name resTy' argTys' linkage' attrs' blocks') \/
     (forall fn, lookupSymbol name body = Some fn -> isaLLVMFuncOp fn = false) /\
     LLVM_LLVMFuncOp name resTy' argTys' linkage' attrs' blocks' =
       LLVM_LLVMFuncOp name resTy argTys linkage attrs []).
Proof.
  destruct (getOrInsertLLVMFuncOp_cases name resTy argTys linkage attrs
              (mkRewriter bld body er))
    as [(fn & Hfn & Hisa & Hrun)|(Hnone & Hrun)]; cbn [moduleBody builder erased] in *.
  - pose proof (lookupSymbol_name _ _ _ Hfn) as Hsym.
    destruct fn; try discriminate. cbn in Hsym. injection Hsym as ->.
    eexists _, _, _, _, _, body. split; [exact Hrun|]. split; [exact Hfn|].
    split; [reflexivity|]. left. exact Hfn.
  - eexists _, _, _, _, _, _. split; [exact Hrun|].
    split; [apply lookupSymbol_cons_same; reflexivity|].
    split; [intros other Hne; apply (lookupSymbol_cons_other name);
            [reflexivity|exact Hne]|].
    right. split; [exact Hnone|reflexivity].
Qed.

(** The loop over the body of the outer object, when every nested object is
    a runtime object: the regions of the nested objects are put in front of
    the blocks of the runtime function, the last nested object first. *)
Lemma nested_objects_keeps (runtimeFunc : Operation) (name : string) :
  getSymName runtimeFunc = Some name ->
  forall (objBody : list Operation) (bld : OpBuilder) (body er : list Operation)
         resTy argTys linkage attrs blocks,
    forallb nestedDeployed objBody = true ->
    lookupSymbol name body =
      Some (LLVM_LLVMFuncOp name resTy argTys linkage attrs blocks) ->
    exists body',
      forEach objBody
        (fun nested =>
           match nested with
           | sol_ObjectOp runtimeName runtimeBody =>
               bind (assert (endswith runtimeName "_deployed")
                       "assert(runtimeObj.getSymName().endswith(_deployed))")
                 (fun _ => bind (inlineRegionBefore (getRegion runtimeBody) runtimeFunc)
                             (fun _ => eraseOp nested))
           | _ => ret tt
           end) (mkRewriter bld body er) =
        Ok (tt, mkRewriter bld body' (er ++ List.filter isaObjectOp objBody)) /\
      lookupSymbol name body' =
        Some (LLVM_LLVMFuncOp name resTy argTys linkage attrs
                (nestedRegions objBody blocks)) /\
      (forall other, other <> name ->
         lookupSymbol other body' = lookupSymbol other body).
Proof.
  intros Hname objBody.
  induction objBody as [|op objBody IH];
    intros bld body er resTy argTys linkage attrs blocks Hall Hfn.
  - exists body. cbn [List.filter forEach nestedRegions]. rewrite app_nil_r. auto.
  - cbn [forallb] in Hall. apply andb_true_iff in Hall as [Hop Hall].
    cbn [forEach].
    destruct op;
      try (unfold bind at 1; cbn [ret List.filter isaObjectOp nestedRegions];
           apply IH; assumption).
    cbn [nestedDeployed] in Hop.
    destruct (IH bld (inlineInto name (getRegion body0) body)
                (er ++ [sol_ObjectOp sym_name body0])
                resTy argTys linkage attrs (getRegion body0 ++ blocks) Hall
                (lookupSymbol_inlineInto name _ _ _ _ _ _ _ Hfn))
      as (body' & Hloop & Hfn' & Hkeep).
    exists body'.
    rewrite (bind_Ok _ _ _ tt
               (mkRewriter bld (inlineInto name (getRegion body0) body)
                  (er ++ [sol_ObjectOp sym_name body0]))).
    + rewrite Hloop. cbn [List.filter isaObjectOp nestedRegions].
      rewrite <- app_assoc. split; [reflexivity|]. split; [exact Hfn'|].
      intros other Hne. rewrite (Hkeep other Hne).
      apply lookupSymbol_inlineInto_other. exact Hne.
    + unfold bind, assert, inlineRegionBefore. rewrite Hname, Hop. reflexivity.
Qed.

Ltac run_global Hhas Hpres Hkeep :=
  assoc;
  unfold getOrInsertIntGlobalOp, getOrInsertPtrGlobalOp;
  lazymatch goal with
  | |- outcome (bind (getOrInsertGlobalOp ?name ?ty ?al ?asp ?lk ?attr) _
                  (mkRewriter ?bld ?body ?er)) _ _ =>
      let Hrun := fresh "Hrun" in
      destruct (getOrInsertGlobalOp_keeps name ty al asp lk attr bld body er)
        as (? & ? & ? & ? & ? & ? & Hrun & Hhas & Hpres & Hkeep);
      run_with Hrun; clear Hrun
  end.

Ltac run_func Hfn Hkeep Horigin :=
  assoc;
  unfold getOrInsertRuntimeFuncOp, getOrInsertCreationFuncOp;
  lazymatch goal with
  | |- outcome (bind (getOrInsertLLVMFuncOp ?name ?resTy ?argTys ?lk ?attrs) _
                  (mkRewriter ?bld ?body ?er)) _ _ =>
      let Hrun := fresh "Hrun" in
      destruct (getOrInsertLLVMFuncOp_keeps name resTy argTys lk attrs bld body er)
        as (? & ? & ? & ? & ? & ? & Hrun & Hfn & Hkeep & Horigin);
      run_with Hrun; clear Hrun
  end.

Ltac names Hkeep HR HD :=
  pose proof (Hkeep "__runtime" ltac:(discriminate)) as HR;
  pose proof (Hkeep "__deploy" ltac:(discriminate)) as HD.


(** What the rewrite of an outer object leaves, when it returns: the end of
    the entry block, the initializer of the two return data pointers, and the
    two functions the code of the object is moved to. *)
Lemma ObjectOpLowering_dispatch (symName : string) (objBody : list Operation)
    (r : Rewriter) :
  endswith symName "_deployed" = false ->
  outcome (ObjectOpLowering_matchAndRewrite (sol_ObjectOp symName objBody) r)
    (fun _ r' =>
       exists args ops,
         entryBlock (moduleBody r') = Some (mkBlock args ops) /\
         (exists front one deployCallFlag one' isDeployCallFlag,
            ops = front ++
              [arith_ConstantOp one (IntegerAttr i256Ty 256 1);
               arith_AndIOp deployCallFlag
                 (BlockArgument eravm.ArgIndexCallFlags i256Ty) one;
               arith_ConstantOp one' (IntegerAttr i256Ty 256 1);
               arith_CmpIOp isDeployCallFlag eq deployCallFlag one';
               scf_IfOp isDeployCallFlag
                 [LLVM_CallOp "__deploy" []; scf_YieldOp]
                 [LLVM_CallOp "__runtime" []; scf_YieldOp];
               LLVM_UnreachableOp]) /\
         (exists gep callDataSz size alignment retData active,
            In (LLVM_GEPOp gep (IntegerType 8)
                  (BlockArgument eravm.ArgIndexCallDataABI (LLVMPointerType 3))
                  [callDataSz]) ops /\
            In (LLVM_LoadOp callDataSz size alignment) ops /\
            In (LLVM_AddressOfOp size eravm.GlobCallDataSize) ops /\
            In (LLVM_StoreOp gep retData (Some 32%N)) ops /\
            In (LLVM_AddressOfOp retData eravm.GlobRetDataPtr) ops /\
            In (LLVM_AddressOfOp active eravm.GlobActivePtr) ops /\
            In (LLVM_StoreOp gep active (Some 32%N)) ops) /\
         (exists resTy argTys linkage attrs blocks,
            lookupSymbol "__runtime" (moduleBody r') =
              Some (LLVM_LLVMFuncOp "__runtime" resTy argTys linkage attrs
                      (nestedRegions objBody blocks)) /\
            (lookupSymbol "__runtime" (moduleBody r) =
               Some (LLVM_LLVMFuncOp "__runtime" resTy argTys linkage attrs blocks) \/
             (forall fn, lookupSymbol "__runtime" (moduleBody r) = Some fn ->
                         isaLLVMFuncOp fn = false) /\
             LLVM_LLVMFuncOp "__runtime" resTy argTys linkage attrs blocks =
               LLVM_LLVMFuncOp "__runtime" LLVMVoidType [] Private
                 [("isRuntime", BoolAttr true)] [])) /\
         (exists resTy argTys linkage attrs blocks,
            lookupSymbol "__deploy" (moduleBody r') =
              Some (LLVM_LLVMFuncOp "__deploy" resTy argTys linkage attrs
                      (mkBlock [] (List.filter (fun o => negb (isaObjectOp o)) objBody)
                       :: blocks)) /\
            (lookupSymbol "__deploy" (moduleBody r) =
               Some (LLVM_LLVMFuncOp "__deploy" resTy argTys linkage attrs blocks) \/
             (forall fn, lookupSymbol "__deploy" (moduleBody r) = Some fn ->
                         isaLLVMFuncOp fn = false) /\
             LLVM_LLVMFuncOp "__deploy" resTy argTys linkage attrs blocks =
               LLVM_LLVMFuncOp "__deploy" LLVMVoidType [] Private
                 [("isRuntime", BoolAttr false)] [])))
    True.
Proof.
  intros Hname. destruct r as [[n [args0 ops0]] body er].
  unfold ObjectOpLowering_matchAndRewrite. rewrite Hname.
  run_builder. run_builder.
  unfold initGlobs. cbv zeta.
  run_global Hhas1 Hpres1 Hkeep1. names Hkeep1 HR1 HD1. clear Hkeep1. do 3 run_builder.
  run_global Hhas2 Hpres2 Hkeep2. names Hkeep2 HR2 HD2. clear Hkeep2. do 3 run_builder.
  run_global Hhas3 Hpres3 Hkeep3. names Hkeep3 HR3 HD3. clear Hkeep3. do 3 run_builder.
  run_global Hhas4 Hpres4 Hkeep4. names Hkeep4 HR4 HD4. clear Hkeep4. do 3 run_builder.
  run_global Hhas5 Hpres5 Hkeep5. names Hkeep5 HR5 HD5. clear Hkeep5. do 3 run_builder.
  run_global Hhas6 Hpres6 Hkeep6. names Hkeep6 HR6 HD6. clear Hkeep6. do 3 run_builder.
  (* getABILen *) run_builder.
  run_getGlobal. do 2 run_builder.
  run_genLoad 22.
  do 2 run_builder.
  run_global Hhas7 Hpres7 Hkeep7. names Hkeep7 HR7 HD7. clear Hkeep7. do 2 run_builder.
  run_global Hhas8 Hpres8 Hkeep8. names Hkeep8 HR8 HD8. clear Hkeep8. do 2 run_builder.
  run_getGlobal. do 3 run_builder.
  run_getGlobal. do 2 run_builder.
  (* the loop over the extra ABI data arguments *) run_builder.
  do 5 run_builder.
  run_func HfnR HkeepR HoriginR.
  pose proof (HkeepR "__deploy" ltac:(discriminate)) as HD9. clear HkeepR.
  assoc.
  lazymatch goal with
  | Hfn : lookupSymbol "__runtime" _ = Some ?fn
    |- outcome (bind (forEach ?objBody _) _ (mkRewriter ?bld ?body ?er)) _ _ =>
      destruct (forallb nestedDeployed objBody) eqn:Hnested;
      [ destruct (nested_objects_keeps fn "__runtime" eq_refl objBody bld body er
                    _ _ _ _ _ Hnested Hfn) as (? & Hloop & HfnR' & HkeepN);
        run_with Hloop; clear Hloop
      | let Hloop := fresh in
        pose proof (nested_objects_spec fn "__runtime" eq_refl objBody bld body er)
          as Hloop;
        cbv zeta in Hloop; rewrite Hnested in Hloop;
        destruct Hloop as (? & Hloop);
        exact (outcome_bind_Err _ _ _ _ _ _ Hloop I) ]
  end.
  pose proof (HkeepN "__deploy" ltac:(discriminate)) as HD10. clear HkeepN.
  run_func HfnD HkeepD HoriginD.
  pose proof (HkeepD "__runtime" ltac:(discriminate)) as HR11. clear HkeepD.
  do 3 run_builder.
  eapply outcome_bind; [reflexivity|]. cbv beta.
  unfold outcome, modify.
  cbn [moduleBody erased withModule builder block].
  unfold entryBlock. rewrite last_snoc.
  eexists _, _. split; [reflexivity|].
  split; [|split; [|split]].
  - lazymatch goal with
    | |- exists front _ _ _ _, ?ops = _ => exists (take 73 ops)
    end.
    do 4 eexists. reflexivity.
  - do 6 eexists. repeat split; cbn [In];
      repeat first [left; reflexivity | right].
  - do 5 eexists. split.
    + apply lookupSymbol_app. rewrite lookupSymbol_inlineInto_other by discriminate.
      rewrite HR11. exact HfnR'.
    + lazymatch type of HoriginR with
      | lookupSymbol _ ?b = _ \/ _ =>
          assert (lookupSymbol "__runtime" body = lookupSymbol "__runtime" b) as ->
            by congruence
      end.
      exact HoriginR.
  - do 5 eexists. split.
    + apply lookupSymbol_app.
      exact (lookupSymbol_inlineInto "__deploy"
               (getRegion (List.filter (fun o => negb (isaObjectOp o)) objBody))
               _ _ _ _ _ _ HfnD).
    + lazymatch type of HoriginD with
      | lookupSymbol _ ?b = _ \/ _ =>
          assert (lookupSymbol "__deploy" body = lookupSymbol "__deploy" b) as ->
            by congruence
      end.
      exact HoriginD.
Qed.


(** X15.  The entry function ends by dispatching on the deploy call flag:
    the last operations of its block are the constant 1, the conjunction of
    the call flags argument (argument 1) with it, a second constant 1, the
    comparison for equality of the conjunction with it, the conditional on
    the comparison that calls [__deploy] when it holds and [__runtime]
    otherwise, and the unreachable terminator. *)
Theorem entry_dispatches_on_deploy_flag (symName : string)
    (objBody : list Operation) (r r' : Rewriter) :
  endswith symName "_deployed" = false ->
  ObjectOpLowering_matchAndRewrite (sol_ObjectOp symName objBody) r = Ok (tt, r') ->
  exists args front one deployCallFlag one' isDeployCallFlag,
    entryBlock (moduleBody r') =
      Some (mkBlock args
              (front ++
               [arith_ConstantOp one (IntegerAttr i256Ty 256 1);
                arith_AndIOp deployCallFlag
                  (BlockArgument eravm.ArgIndexCallFlags i256Ty) one;
                arith_ConstantOp one' (IntegerAttr i256Ty 256 1);
                arith_CmpIOp isDeployCallFlag eq deployCallFlag one';
                scf_IfOp isDeployCallFlag
                  [LLVM_CallOp "__deploy" []; scf_YieldOp]
                  [LLVM_CallOp "__runtime" []; scf_YieldOp];
                LLVM_UnreachableOp])).
Proof.
  intros Hname Hrun.
  destruct (outcome_of_Ok _ _ _ _ _ (ObjectOpLowering_dispatch symName objBody r Hname) Hrun)
    as (args & ops & Hblk & (front & one & flag & one' & isFlag & Hops) & _).
  exists args, front, one, flag, one', isFlag. rewrite Hblk, Hops. reflexivity.
Qed.

Lemma entry_dispatches_on_deploy_flag_witness :
  exists args front one deployCallFlag one' isDeployCallFlag,
    entryBlock (moduleBody FooLowered) =
      Some (mkBlock args
              (front ++
               [arith_ConstantOp one (IntegerAttr i256Ty 256 1);
                arith_AndIOp deployCallFlag
                  (BlockArgument eravm.ArgIndexCallFlags i256Ty) one;
                arith_ConstantOp one' (IntegerAttr i256Ty 256 1);
                arith_CmpIOp isDeployCallFlag eq deployCallFlag one';
                scf_IfOp isDeployCallFlag
                  [LLVM_CallOp "__deploy" []; scf_YieldOp]
                  [LLVM_CallOp "__runtime" []; scf_YieldOp];
                LLVM_UnreachableOp])).
Proof.
  apply (entry_dispatches_on_deploy_flag "Foo" [sol_ObjectOp "Foo_deployed" []]
           samples.emptyRewriter FooLowered); [reflexivity|vm_compute; reflexivity].
Defined.

(** X16.  The code of an outer object ends up in two functions of the
    module.  [__runtime] begins with the blocks of the nested runtime
    objects, the last nested object first, before the blocks the function
    had; [__deploy] begins with one block that holds the operations of the
    object that are not objects, before the blocks the function had.  Each
    of the two is the function the module had under the name, or, when the
    module had no function of the name, a new private function without
    arguments tagged [isRuntime = true] for [__runtime] and
    [isRuntime = false] for [__deploy]. *)
Theorem object_code_moves_to_functions (symName : string)
    (objBody : list Operation) (r r' : Rewriter) :
  endswith symName "_deployed" = false ->
  ObjectOpLowering_matchAndRewrite (sol_ObjectOp symName objBody) r = Ok (tt, r') ->
  (exists resTy argTys linkage attrs blocks,
     lookupSymbol "__runtime" (moduleBody r') =
       Some (LLVM_LLVMFuncOp "__runtime" resTy argTys linkage attrs
               (nestedRegions objBody blocks)) /\
     (lookupSymbol "__runtime" (moduleBody r) =
        Some (LLVM_LLVMFuncOp "__runtime" resTy argTys linkage attrs blocks) \/
      (forall fn, lookupSymbol "__runtime" (moduleBody r) = Some fn ->
                  isaLLVMFuncOp fn = false) /\
      LLVM_LLVMFuncOp "__runtime" resTy argTys linkage attrs blocks =
        LLVM_LLVMFuncOp "__runtime" LLVMVoidType [] Private
          [("isRuntime", BoolAttr true)] [])) /\
  (exists resTy argTys linkage attrs blocks,
     lookupSymbol "__deploy" (moduleBody r') =
       Some (LLVM_LLVMFuncOp "__deploy" resTy argTys linkage attrs
               (mkBlock [] (List.filter (fun o => negb (isaObjectOp o)) objBody)
                :: blocks)) /\
     (lookupSymbol "__deploy" (moduleBody r) =
        Some (LLVM_LLVMFuncOp "__deploy" resTy argTys linkage attrs blocks) \/
      (forall fn, lookupSymbol "__deploy" (moduleBody r) = Some fn ->
                  isaLLVMFuncOp fn = false) /\
      LLVM_LLVMFuncOp "__deploy" resTy argTys linkage attrs blocks =
        LLVM_LLVMFuncOp "__deploy" LLVMVoidType [] Private
          [("isRuntime", BoolAttr false)] [])).
Proof.
  intros Hname Hrun.
  destruct (outcome_of_Ok _ _ _ _ _ (ObjectOpLowering_dispatch symName objBody r Hname) Hrun)
    as (args & ops & _ & _ & _ & Hruntime & Hdeploy).
  split; assumption.
Qed.

Lemma object_code_moves_to_functions_witness :
  (exists resTy argTys linkage attrs blocks,
     lookupSymbol "__runtime" (moduleBody FooLowered) =
       Some (LLVM_LLVMFuncOp "__runtime" resTy argTys linkage attrs
               (nestedRegions [sol_ObjectOp "Foo_deployed" []] blocks)) /\
     (lookupSymbol "__runtime" (moduleBody samples.emptyRewriter) =
        Some (LLVM_LLVMFuncOp "__runtime" resTy argTys linkage attrs blocks) \/
      (forall fn, lookupSymbol "__runtime" (moduleBody samples.emptyRewriter) = Some fn ->
                  isaLLVMFuncOp fn = false) /\
      LLVM_LLVMFuncOp "__runtime" resTy argTys linkage attrs blocks =
        LLVM_LLVMFuncOp "__runtime" LLVMVoidType [] Private
          [("isRuntime", BoolAttr true)] [])) /\
  (exists resTy argTys linkage attrs blocks,
     lookupSymbol "__deploy" (moduleBody FooLowered) =
       Some (LLVM_LLVMFuncOp "__deploy" resTy argTys linkage attrs
               (mkBlock []
                  (List.filter (fun o => negb (isaObjectOp o))
                     [sol_ObjectOp "Foo_deployed" []])
                :: blocks)) /\
     (lookupSymbol "__deploy" (moduleBody samples.emptyRewriter) =
        Some (LLVM_LLVMFuncOp "__deploy" resTy argTys linkage attrs blocks) \/
      (forall fn, lookupSymbol "__deploy" (moduleBody samples.emptyRewriter) = Some fn ->
                  isaLLVMFuncOp fn = false) /\
      LLVM_LLVMFuncOp "__deploy" resTy argTys linkage attrs blocks =
        LLVM_LLVMFuncOp "__deploy" LLVMVoidType [] Private
          [("isRuntime", BoolAttr false)] [])).
Proof.
  apply (object_code_moves_to_functions "Foo" [sol_ObjectOp "Foo_deployed" []]
           samples.emptyRewriter FooLowered); [reflexivity|vm_compute; reflexivity].
Defined.

(** X17.  The return data pointer and the active pointer are initialised to
    one and the same value: the pointer that [getelementptr] makes of the
    ABI pointer argument (argument 0), taken as a pointer to bytes, and the
    value loaded from the calldata size global; it is stored, aligned to 32,
    to [ptr_return_data] and to [ptr_active]. *)
Theorem return_data_pointers_initialised (symName : string)
    (objBody : list Operation) (r r' : Rewriter) :
  endswith symName "_deployed" = false ->
  ObjectOpLowering_matchAndRewrite (sol_ObjectOp symName objBody) r = Ok (tt, r') ->
  exists args ops gep callDataSz size alignment retData active,
    entryBlock (moduleBody r') = Some (mkBlock args ops) /\
    In (LLVM_GEPOp gep (IntegerType 8)
          (BlockArgument eravm.ArgIndexCallDataABI (LLVMPointerType 3))
          [callDataSz]) ops /\
    In (LLVM_LoadOp callDataSz size alignment) ops /\
    In (LLVM_AddressOfOp size eravm.GlobCallDataSize) ops /\
    In (LLVM_StoreOp gep retData (Some 32%N)) ops /\
    In (LLVM_AddressOfOp retData eravm.GlobRetDataPtr) ops /\
    In (LLVM_AddressOfOp active eravm.GlobActivePtr) ops /\
    In (LLVM_StoreOp gep active (Some 32%N)) ops.
Proof.
  intros Hname Hrun.
  destruct (outcome_of_Ok _ _ _ _ _ (ObjectOpLowering_dispatch symName objBody r Hname) Hrun)
    as (args & ops & Hblk & _ & (gep & sz & size & al & retData & active & H) & _).
  exists args, ops, gep, sz, size, al, retData, active. split; assumption.
Qed.

Lemma return_data_pointers_initialised_witness :
  exists args ops gep callDataSz size alignment retData active,
    entryBlock (moduleBody FooLowered) = Some (mkBlock args ops) /\
    In (LLVM_GEPOp gep (IntegerType 8)
          (BlockArgument eravm.ArgIndexCallDataABI (LLVMPointerType 3))
          [callDataSz]) ops /\
    In (LLVM_LoadOp callDataSz size alignment) ops /\
    In (LLVM_AddressOfOp size eravm.GlobCallDataSize) ops /\
    In (LLVM_StoreOp gep retData (Some 32%N)) ops /\
    In (LLVM_AddressOfOp retData eravm.GlobRetDataPtr) ops /\
    In (LLVM_AddressOfOp active eravm.GlobActivePtr) ops /\
    In (LLVM_StoreOp gep active (Some 32%N)) ops.
Proof.
  apply (return_data_pointers_initialised "Foo" [sol_ObjectOp "Foo_deployed" []]
           samples.emptyRewriter FooLowered); [reflexivity|vm_compute; reflexivity].
Defined.

(** X18.  The lowering of an outer object returns exactly when every object
    nested in it is a runtime object (its name ends with [_deployed]):
    otherwise it stops on its assertion.  When it returns, the operations it
    has erased are the nested objects, in their order, and then the object
    itself. *)
Theorem outer_object_erases_nested (symName : string)
    (objBody : list Operation) (r : Rewriter) :
  endswith symName "_deployed" = false ->
  isOk (ObjectOpLowering_matchAndRewrite (sol_ObjectOp symName objBody) r) =
    forallb nestedDeployed objBody /\
  (forall r',
     ObjectOpLowering_matchAndRewrite (sol_ObjectOp symName objBody) r = Ok (tt, r') ->
     erased r' =
       erased r ++ List.filter isaObjectOp objBody ++ [sol_ObjectOp symName objBody]).
Proof.
  intros Hname.
  pose proof (ObjectOpLowering_entry symName objBody r Hname) as H.
  destruct (ObjectOpLowering_matchAndRewrite (sol_ObjectOp symName objBody) r)
    as [[[] r0]|e]; cbn in H |- *.
  - destruct H as (Hnested & _ & _ & Herased). split; [auto|].
    intros r' [= <-]. exact Herased.
  - split; [auto|]. intros r' [=].
Qed.

Lemma outer_object_erases_nested_witness :
  isOk (ObjectOpLowering_matchAndRewrite
          (sol_ObjectOp "Foo" [sol_ObjectOp "Bar" []]) samples.emptyRewriter) =
    forallb nestedDeployed [sol_ObjectOp "Bar" []] /\
  erased FooLowered =
    erased samples.emptyRewriter ++
    List.filter isaObjectOp [sol_ObjectOp "Foo_deployed" []] ++
    [sol_ObjectOp "Foo" [sol_ObjectOp "Foo_deployed" []]].
Proof.
  split.
  - apply (outer_object_erases_nested "Foo" [sol_ObjectOp "Bar" []]
             samples.emptyRewriter). reflexivity.
  - apply (outer_object_erases_nested "Foo" [sol_ObjectOp "Foo_deployed" []]
             samples.emptyRewriter); [reflexivity|vm_compute; reflexivity].
Defined.

End ObjectProofs.

(** * The globals of the entry function *)

Module GlobalProofs.
Import mlir lowering shapes MonadFacts LoweringProofs EntryProofs LoweringMoreProofs
  ObjectProofs.

(** A global that the module declares is found: the module body stays. *)
Lemma getOrInsertGlobalOp_full (name : string) ty alignment addrSpace linkage attr
    (bld : OpBuilder) (body er : list Operation) :
  exists ty' alignment' addrSpace' linkage' value' body',
    getOrInsertGlobalOp name ty alignment addrSpace linkage attr
      (mkRewriter bld body er) =
      Ok (LLVM_GlobalOp name ty' alignment' addrSpace' linkage' value',
          mkRewriter bld body' er) /\
    hasGlobal name body' /\
    (forall other, hasGlobal other body -> hasGlobal other body') /\
    (hasGlobal name body -> body' = body).
Proof.
  destruct (getOrInsertGlobalOp_spec name ty alignment addrSpace linkage attr bld body er)
    as (ty' & al' & asp' & lk' & v' & body' & Hrun & Hhas & Hpres).
  exists ty', al', asp', lk', v', body'.
  split; [exact Hrun|]. split; [exact Hhas|]. split; [exact Hpres|].
  intros Hfound.
  destruct (getOrInsertGlobalOp_found name ty alignment addrSpace linkage attr
              bld body er Hfound) as (? & ? & ? & ? & ? & Hrun').
  rewrite Hrun' in Hrun. injection Hrun as _ _ _ _ _ <-. reflexivity.
Qed.

Lemma and_flip (A B : Prop) : B /\ A -> A /\ B.
Proof. tauto. Qed.

Ltac run_append :=
  assoc;
  eapply outcome_bind;
  [ cbv -[lookupSymbol app]; reflexivity
  | cbv beta ].

Ltac run_declare Hhas Hpres Hsame :=
  assoc;
  unfold getOrInsertIntGlobalOp;
  lazymatch goal with
  | |- outcome (bind (getOrInsertGlobalOp ?name ?ty ?al ?asp ?lk ?attr) _
                  (mkRewriter ?bld ?body ?er)) _ _ =>
      let Hrun := fresh "Hrun" in
      destruct (getOrInsertGlobalOp_full name ty al asp lk attr bld body er)
        as (? & ? & ? & ? & ? & ? & Hrun & Hhas & Hpres & Hsame);
      run_with Hrun; clear Hrun
  end.

Lemma initGlobs_outcome (r : Rewriter) :
  outcome (initGlobs r)
    (fun _ r' =>
       (exists new,
          operations (block (builder r')) = operations (block (builder r)) ++ new /\
          length new = 15 /\
          Forall (fun name =>
                    exists addr zero,
                      In (LLVM_AddressOfOp addr name) new /\
                      In (arith_ConstantOp zero (IntegerAttr i256Ty 256 0)) new /\
                      In (LLVM_StoreOp zero addr (Some 32%N)) new)
                 [eravm.GlobHeapMemPtr; eravm.GlobCallDataSize; eravm.GlobRetDataSz;
                  eravm.GlobCallFlags] /\
          (exists addr splat,
             In (LLVM_AddressOfOp addr eravm.GlobExtraABIData) new /\
             In (arith_ConstantOp splat (DenseSplatAttr 10 256 0)) new /\
             In (LLVM_StoreOp splat addr None) new)) /\
       arguments (block (builder r')) = arguments (block (builder r)) /\
       erased r' = erased r /\
       Forall (fun name => hasGlobal name (moduleBody r')) initialised /\
       (forall other, hasGlobal other (moduleBody r) -> hasGlobal other (moduleBody r')) /\
       (Forall (fun name => hasGlobal name (moduleBody r)) initialised ->
        moduleBody r' = moduleBody r))
    False.
Proof.
  destruct r as [[n [args0 ops0]] body er].
  unfold initGlobs. cbv zeta.
  run_declare Hhas1 Hpres1 Hsame1. do 3 run_append.
  run_declare Hhas2 Hpres2 Hsame2. do 3 run_append.
  run_declare Hhas3 Hpres3 Hsame3. do 3 run_append.
  run_declare Hhas4 Hpres4 Hsame4. do 3 run_append.
  run_declare Hhas5 Hpres5 Hsame5. do 2 run_append.
  unfold outcome, create_, modify, withBuilder, append.
  cbn [builder block operations arguments erased moduleBody nextResult].
  split; [|split; [reflexivity|split; [reflexivity|split; [|split]]]].
  - eexists. rewrite <- !app_assoc. cbn [app].
    split; [reflexivity|]. split; [reflexivity|]. split.
    + repeat constructor;
        (do 2 eexists;
         split; [cbn [In]; repeat first [left; reflexivity | right]|];
         apply and_flip;
         split; cbn [In]; repeat first [left; reflexivity | right]).
    + do 2 eexists.
      split; [cbn [In]; repeat first [left; reflexivity | right]|].
      apply and_flip.
      split; cbn [In]; repeat first [left; reflexivity | right].
  - unfold initialised. repeat constructor; eauto 20.
  - eauto 20.
  - unfold initialised. intros Hall.
    apply Forall_cons in Hall as [H1 Hall]. apply Forall_cons in Hall as [H2 Hall].
    apply Forall_cons in Hall as [H3 Hall]. apply Forall_cons in Hall as [H4 Hall].
    apply Forall_cons in Hall as [H5 _].
    specialize (Hsame1 H1). subst.
    specialize (Hsame2 H2). subst.
    specialize (Hsame3 H3). subst.
    specialize (Hsame4 H4). subst.
    specialize (Hsame5 H5). subst.
    reflexivity.
Qed.

(** X19.  [initGlobs] declares the four word globals (heap memory pointer,
    calldata size, return data size, call flags) and the array of extra ABI
    data, keeps the globals the module has, and emits fifteen operations at
    the insertion point: for each word global its address, a constant 0 and
    the store of the constant to the address, aligned to 32, and for the
    array its address, a constant of ten zero words and the store of it.
    Run again, it emits the stores again and leaves the module body as it
    is: every global is declared once. *)
Theorem initGlobs_declares_once (r : Rewriter) :
  exists (r' : Rewriter) (new : list Operation),
    initGlobs r = Ok (tt, r') /\
    operations (block (builder r')) = operations (block (builder r)) ++ new /\
    length new = 15 /\
    Forall (fun name =>
              exists addr zero,
                In (LLVM_AddressOfOp addr name) new /\
                In (arith_ConstantOp zero (IntegerAttr i256Ty 256 0)) new /\
                In (LLVM_StoreOp zero addr (Some 32%N)) new)
           [eravm.GlobHeapMemPtr; eravm.GlobCallDataSize; eravm.GlobRetDataSz;
            eravm.GlobCallFlags] /\
    (exists addr splat,
       In (LLVM_AddressOfOp addr eravm.GlobExtraABIData) new /\
       In (arith_ConstantOp splat (DenseSplatAttr 10 256 0)) new /\
       In (LLVM_StoreOp splat addr None) new) /\
    erased r' = erased r /\
    Forall (fun name => hasGlobal name (moduleBody r'))
      [eravm.GlobHeapMemPtr; eravm.GlobCallDataSize; eravm.GlobRetDataSz;
       eravm.GlobCallFlags; eravm.GlobExtraABIData] /\
    (forall other, hasGlobal other (moduleBody r) -> hasGlobal other (moduleBody r')) /\
    (exists r'' : Rewriter,
       initGlobs r' = Ok (tt, r'') /\ moduleBody r'' = moduleBody r').
Proof.
  destruct (outcome_Ok _ _ (initGlobs_outcome r))
    as ([] & r' & Hrun & (new & Hops & Hlen & Hwords & Harray) & _ & Herased &
        Hdeclared & Hkept & _).
  destruct (outcome_Ok _ _ (initGlobs_outcome r'))
    as ([] & r'' & Hrun' & _ & _ & _ & _ & _ & Hsame).
  exists r', new. repeat (split; [assumption|]).
  exists r''. split; [exact Hrun'|]. apply Hsame. exact Hdeclared.
Qed.

End GlobalProofs.
